(** * aapt2 split-APK configuration: resolver, name formatter and tag handlers

    A shallow embedding of [tools/aapt2/configuration/ConfigurationParser.cpp]
    together with the properties of its natural-language specification.

    Conventions of the embedding:
    - [std::string] and [StringPiece] are [string], and a [StringPiece] that
      can be the null piece is an [option string]; [Maybe<T>] is [option T];
      [std::vector<T>] is [list T]; [Group<T>] and [Entry<T>] (unordered maps
      keyed by label) are [gmap string _];
    - [int] is [Z] restricted to 32 bits, with the wrap-around of [+] written
      out ([int_add]);
    - a function that reports through [IDiagnostics*] returns, next to its
      value, the list of messages it emitted, in emission order (the writer
      monad [W]); a function that can be left without a return, through a
      C++ exception or through a read of a null pointer, returns an
      [outcome];
    - an out-parameter ([std::string* name], [std::vector<T>* target]) is an
      argument plus a component of the result. *)

From Stdlib Require Import ZArith Ascii.
From stdpp Require Import base option list strings gmap sorting.

Local Open Scope Z_scope.

(** ** Machine integers *)

Definition INT_MIN : Z := -2147483648.
Definition INT_MAX : Z := 2147483647.

(** Two's complement reduction of a mathematical integer to [int]. *)
Definition wrap_int (z : Z) : Z := (z + 2147483648) mod 4294967296 - 2147483648.

(** [a + b] on [int]. *)
Definition int_add (a b : Z) : Z := wrap_int (a + b).

(** ** [std::string] operations used by the parser *)

Module cxx.

Definition npos : option nat := None.

Fixpoint take (n : nat) (s : string) : string :=
  match n, s with
  | S n', String c s' => String c (take n' s')
  | _, _ => ""
  end.

Fixpoint drop (n : nat) (s : string) : string :=
  match n, s with
  | S n', String _ s' => drop n' s'
  | _, _ => s
  end.

(** [s.find(p)]: the least offset at which [p] occurs in [s], [None] for
    [npos]. *)
Fixpoint find (p s : string) : option nat :=
  if String.prefix p s then Some 0%nat
  else match s with
       | "" => None
       | String _ s' => S <$> find p s'
       end.

(** [s.rfind(p)]: the greatest offset at which [p] occurs in [s]. *)
Fixpoint rfind (p s : string) : option nat :=
  match s with
  | "" => if String.prefix p "" then Some 0%nat else None
  | String _ s' =>
      match rfind p s' with
      | Some i => Some (S i)
      | None => if String.prefix p s then Some 0%nat else None
      end
  end.

(** [s.replace(offset, len, v)] for [offset <= s.size()]. *)
Definition replace (offset len : nat) (v s : string) : string :=
  take offset s +:+ v +:+ drop (offset + len) s.

(** What ends a call without a return. [invalid_argument] and
    [out_of_range] are the exceptions of the standard library thrown here;
    nothing in the parser catches them. [null_dereference] is the read of a
    C string through a null pointer: undefined, and in practice the end of
    the process (a segmentation fault). *)
Inductive exn : Type := invalid_argument | out_of_range | null_dereference.

Definition is_space (c : ascii) : bool :=
  let n := nat_of_ascii c in
  ((9 <=? n) && (n <=? 13) || (n =? 32))%nat.

Fixpoint skip_spaces (s : string) : string :=
  match s with
  | String c s' => if is_space c then skip_spaces s' else s
  | "" => ""
  end.

Definition digit_of (c : ascii) : option Z :=
  let n := nat_of_ascii c in
  if ((48 <=? n) && (n <=? 57))%nat then Some (Z.of_nat n - 48) else None.

(** The value of the longest prefix of decimal digits, [None] when that
    prefix is empty. *)
Fixpoint digits (acc : option Z) (s : string) : option Z :=
  match s with
  | String c s' =>
      match digit_of c with
      | Some d => digits (Some (10 * default 0 acc + d)) s'
      | None => acc
      end
  | "" => acc
  end.

(** [std::stoi(s)]: leading white space, an optional sign, then decimal
    digits up to the first other character. Throws [invalid_argument] when
    there is no digit and [out_of_range] when the value is not an [int]. *)
Definition stoi (s : string) : exn + Z :=
  let s1 := skip_spaces s in
  let '(negative, s2) :=
    match s1 with
    | String "-" r => (true, r)
    | String "+" r => (false, r)
    | _ => (false, s1)
    end in
  match digits None s2 with
  | None => inl invalid_argument
  | Some v =>
      let v := if negative : bool then - v else v in
      if (INT_MIN <=? v) && (v <=? INT_MAX) then inr v else inl out_of_range
  end.

End cxx.

(** Number of offsets of [s] at which [p] occurs. *)
Fixpoint occurrences (p s : string) : nat :=
  ((if String.prefix p s then 1 else 0) +
   match s with
   | "" => 0
   | String _ s' => occurrences p s'
   end)%nat.

(** ** Helpers of [util/] that the parser calls *)

Module util.

(** Modelled from the spec: [util::EndsWith] is declared in [util/Util.h],
    which is not among the sources. The spec reads "the resulting name does
    not already end in that extension": a suffix test. *)
Definition EndsWith (s suffix : string) : bool :=
  if (String.length s <? String.length suffix)%nat then false
  else bool_decide
         (cxx.drop (String.length s - String.length suffix) s = suffix).

End util.

(** Modelled from the spec: [StringPiece] is declared in
    [androidfw/StringPiece.h], which is not among the sources. The spec has
    the extension placeholder "substituted with the input extension (without
    its leading separator)": [piece.substr(start)] is the piece from offset
    [start] on. A piece is a pointer with a length, and a [start] beyond the
    length, as [substr(1)] on the empty extension of a file name without
    ['.'], gives the default piece of the class, which points at nothing:
    [None] is that null piece, whose [data()] is the null pointer. *)
Definition StringPiece_substr (start : nat) (piece : string)
    : option string :=
  if (String.length piece <? start)%nat then None
  else Some (cxx.drop start piece).

(** Stand-ins for [file::GetFilename], [file::GetExtension] and
    [util::TrimWhitespace], whose sources are not among the files of the
    parser. The development is parametric in these three helpers; the
    stand-ins are used where a property is evaluated on a sample document. *)
Module host.

Definition dir_sep : ascii := "/"%char.

(** The text after the last directory separator. *)
Fixpoint GetFilename (path : string) : string :=
  match path with
  | "" => ""
  | String c s' =>
      if bool_decide (is_Some (cxx.find (String dir_sep "") s'))
      then GetFilename s'
      else if Ascii.eqb c dir_sep then s' else path
  end.

Fixpoint from_first_dot (s : string) : string :=
  match s with
  | "" => ""
  | String c s' => if Ascii.eqb c "."%char then s else from_first_dot s'
  end.

(** The file name from its first ['.'] on, empty when it has none. *)
Definition GetExtension (path : string) : string :=
  from_first_dot (GetFilename path).

(** Leading and trailing white space removed. *)
Definition TrimWhitespace (s : string) : string :=
  String.rev (cxx.skip_spaces (String.rev (cxx.skip_spaces s))).

End host.

(** ** Diagnostics *)

Inductive Level : Type := Note | Warn | Error.

(** One call on the [IDiagnostics] sink. [source] is the context attached by
    a [SourcePathDiagnostics] wrapper. *)
Record DiagMessage : Type := mkDiag {
  level : Level;
  source : option string;
  message : string
}.

(** A value together with the messages emitted while computing it. *)
Definition W (A : Type) : Type := (A * list DiagMessage)%type.

Definition ret {A} (a : A) : W A := (a, []).

Definition bind {A B} (m : W A) (f : A → W B) : W B :=
  let '(a, l1) := m in
  let '(b, l2) := f a in
  (b, l1 ++ l2).

Definition value {A} (m : W A) : A := fst m.
Definition emitted {A} (m : W A) : list DiagMessage := snd m.

Definition diag_Error (msg : string) : W unit := (tt, [mkDiag Error None msg]).
Definition diag_Warn (msg : string) : W unit := (tt, [mkDiag Warn None msg]).
Definition diag_Note (msg : string) : W unit := (tt, [mkDiag Note None msg]).

(** [src_diag.Error(...)] on a [SourcePathDiagnostics{{src}, diag}]. *)
Definition src_diag_Error (src msg : string) : W unit :=
  (tt, [mkDiag Error (Some src) msg]).

Notation "'do' x <- m ; k" := (bind m (λ x, k))
  (at level 10, x name, m at level 100, k at level 200).
Notation "'do' ' p <- m ; k" := (bind m (λ x, match x with p => k end))
  (at level 10, p pattern, m at level 100, k at level 200).
Notation "'exec' m ; k" := (bind m (λ _, k))
  (at level 10, m at level 100, k at level 200).

(** ** Data model *)

Inductive Abi : Type :=
  | kArmeV6 | kArmV7a | kArm64V8a | kX86 | kX86_64 | kMips | kMips64
  | kUniversal.

(** [kStringToAbiMap]. *)
Definition kStringToAbiMap : gmap string Abi :=
  list_to_map
    [("armeabi", kArmeV6); ("armeabi-v7a", kArmV7a); ("arm64-v8a", kArm64V8a);
     ("x86", kX86); ("x86_64", kX86_64); ("mips", kMips);
     ("mips64", kMips64); ("universal", kUniversal)].

(** [kAbiToStringMap]. *)
Definition kAbiToStringMap : list string :=
  ["armeabi"; "armeabi-v7a"; "arm64-v8a"; "x86"; "x86_64"; "mips"; "mips64";
   "universal"].

Record AndroidManifest : Type := mkAndroidManifest {}.

Record AndroidSdk : Type := mkAndroidSdk {
  min_sdk_version : option Z;
  target_sdk_version : option Z;
  max_sdk_version : option Z;
  manifest : option AndroidManifest
}.

(** [GlTexture]; its [name] member is [gl_name] here. *)
Record GlTexture : Type := mkGlTexture {
  gl_name : string;
  texture_paths : list string
}.

Definition DeviceFeature : Type := string.

(** An artifact template, as declared by an [artifact] element. *)
Record ConfiguredArtifact : Type := mkConfiguredArtifact {
  name : option string;
  version : Z;
  abi_group : option string;
  screen_density_group : option string;
  locale_group : option string;
  android_sdk_group : option string;
  device_feature_group : option string;
  gl_texture_group : option string
}.

(** Modelled from the spec: the comparison operators of [ConfiguredArtifact]
    are declared in [ConfigurationParser.h], which is not among the sources.
    The spec has the templates sorted "by version ascending" and rejected when
    "two templates share a version": [operator<] and [operator==] compare the
    version only. *)
Definition artifact_lt (a b : ConfiguredArtifact) : bool :=
  version a <? version b.
Definition artifact_eq (a b : ConfiguredArtifact) : bool :=
  version a =? version b.

(** [std::sort] orders by [operator<]: afterwards no element is less than one
    before it. *)
Definition not_after (a b : ConfiguredArtifact) : Prop :=
  artifact_lt b a = false.

Global Instance not_after_dec : RelDecision not_after.
Proof. intros a b. unfold not_after. apply _. Defined.

(** [std::sort(artifacts.begin(), artifacts.end())]. The standard fixes the
    result up to the order of equivalent elements; [Parse] rejects a list with
    equivalent elements, and otherwise the result is unique (lemma
    [std_sort_unique]). *)
Definition std_sort (l : list ConfiguredArtifact) : list ConfiguredArtifact :=
  merge_sort not_after l.

(** [std::adjacent_find(first, last)]: the index of the first element equal
    to its successor, [None] for [last]. *)
Fixpoint adjacent_find (l : list ConfiguredArtifact) : option nat :=
  match l with
  | a :: (b :: _) as l' =>
      if artifact_eq a b then Some 0%nat else S <$> adjacent_find l'
  | _ => None
  end.

(** [OutputArtifact]; its [name] member is [out_name] here. *)
Record OutputArtifact {ConfigDescription : Type} : Type := mkOutputArtifact {
  out_name : string;
  abis : list Abi;
  screen_densities : list ConfigDescription;
  locales : list ConfigDescription;
  android_sdk : option AndroidSdk;
  features : list DeviceFeature;
  textures : list GlTexture
}.
Global Arguments OutputArtifact : clear implicits.
Global Arguments mkOutputArtifact {_} _ _ _ _ _ _ _.

Record PostProcessingConfiguration {ConfigDescription : Type} : Type :=
  mkPostProcessingConfiguration {
  artifacts : list ConfiguredArtifact;
  artifact_format : option string;
  abi_groups : gmap string (list Abi);
  screen_density_groups : gmap string (list ConfigDescription);
  locale_groups : gmap string (list ConfigDescription);
  android_sdk_groups : gmap string AndroidSdk;
  gl_texture_groups : gmap string (list GlTexture);
  device_feature_groups : gmap string (list DeviceFeature)
}.
Global Arguments PostProcessingConfiguration : clear implicits.
Global Arguments mkPostProcessingConfiguration {_} _ _ _ _ _ _ _ _.

(** ** XML tree ([xml/XmlDom.h]) *)

Record Attribute : Type := mkAttribute {
  attr_name : string;
  attr_value : string
}.

(** [xml::Node] with its two subclasses met in a configuration document. *)
Inductive Node : Type :=
  | NElement (e : Element)
  | NText (text : string)
with Element : Type :=
  | mkElement (element_name : string) (attributes : list Attribute)
      (children : list Node).

Definition element_name (e : Element) : string :=
  match e with mkElement n _ _ => n end.
Definition attributes (e : Element) : list Attribute :=
  match e with mkElement _ a _ => a end.
Definition children (e : Element) : list Node :=
  match e with mkElement _ _ c => c end.

(** [Element::GetChildElements]: the children that are elements, in order. *)
Fixpoint GetChildElements_of (nodes : list Node) : list Element :=
  match nodes with
  | [] => []
  | NElement e :: rest => e :: GetChildElements_of rest
  | NText _ :: rest => GetChildElements_of rest
  end.
Definition GetChildElements (e : Element) : list Element :=
  GetChildElements_of (children e).

(** The texts of the [xml::Text] nodes among [nodes], in order
    ([NodeCast<xml::Text>] succeeds on exactly these). *)
Fixpoint text_nodes (nodes : list Node) : list string :=
  match nodes with
  | [] => []
  | NText t :: rest => t :: text_nodes rest
  | NElement _ :: rest => text_nodes rest
  end.

(** ** The document, with namespaces *)

(** The tree as the inflater builds it: every element has a namespace URI,
    empty for an element without namespace. The handlers do not read it,
    and see an element as an [Element] above. *)
Module xml.

Inductive Node : Type :=
  | ElementNode (e : Element)
  | TextNode (text : string)
with Element : Type :=
  | mkElement (namespace_uri : string) (name : string)
      (attributes : list Attribute) (children : list Node).

Definition namespace_uri (e : Element) : string :=
  match e with mkElement ns _ _ _ => ns end.
Definition children (e : Element) : list Node :=
  match e with mkElement _ _ _ c => c end.

(** [xml::XmlResource]: [root] is null for a document without element. *)
Record XmlResource : Type := mkXmlResource { root : option Element }.

End xml.

(** What a handler sees of an element of the document. *)
Fixpoint without_namespaces (e : xml.Element) : Element :=
  match e with
  | xml.mkElement _ n attrs cs =>
      mkElement n attrs
        (List.map (λ c, match c with
                        | xml.ElementNode e' => NElement (without_namespaces e')
                        | xml.TextNode t => NText t
                        end) cs)
  end.

(** No element of the tree has a namespace URI. *)
Fixpoint no_namespace (e : xml.Element) : bool :=
  match e with
  | xml.mkElement ns _ _ cs =>
      String.eqb ns "" &&
      forallb (λ c, match c with
                    | xml.ElementNode e' => no_namespace e'
                    | xml.TextNode _ => true
                    end) cs
  end.

Definition kAaptXmlNs : string := "http://schemas.android.com/tools/aapt".

(** [NamespaceVisitor::Visit(xml::Element* node)]: clears the namespace URI
    of the node and, through [VisitChildren], visits the child nodes; the
    visit of a text node does nothing. The result is the tree afterwards. *)
Fixpoint NamespaceVisitor_Visit (node : xml.Element) : xml.Element :=
  match node with
  | xml.mkElement _ n attrs cs =>
      xml.mkElement "" n attrs
        (List.map (λ child, match child with
                            | xml.ElementNode e =>
                                xml.ElementNode (NamespaceVisitor_Visit e)
                            | xml.TextNode t => xml.TextNode t
                            end) cs)
  end.

(** ** Control flow *)

(** How a function is left: by [return], or without one, by an uncaught
    exception or a read through a null pointer. *)
Inductive outcome (A : Type) : Type :=
  | Returned (a : A)
  | Thrown (e : cxx.exn).
Global Arguments Returned {_} _.
Global Arguments Thrown {_} _.

(** The optional value a call returns; none when it does not return. *)
Definition returned {A} (r : outcome (option A)) : option A :=
  match r with
  | Returned a => a
  | Thrown _ => None
  end.

(** A range-based [for] whose body updates the loop state [s]. *)
Fixpoint for_each {A S} (body : S → A → W S) (l : list A) (s : S) : W S :=
  match l with
  | [] => ret s
  | x :: rest => do s' <- body s x; for_each body rest s'
  end.

(** The same loop when the body may throw: the exception ends the loop. *)
Fixpoint for_each_x {A S} (body : S → A → W (outcome S)) (l : list A) (s : S)
    : W (outcome S) :=
  match l with
  | [] => ret (Returned s)
  | x :: rest =>
      do r <- body s x;
      match r with
      | Returned s' => for_each_x body rest s'
      | Thrown e => ret (Thrown e)
      end
  end.

(** [target->push_back(item)]. *)
Definition push_back {T} (target : list T) (item : T) : list T :=
  target ++ [item].

(** ** Architecture names *)

(** Modelled from the spec: the enumeration [Abi] is declared in
    [ConfigurationParser.h], which is not among the sources. The spec has the
    "string↔enum mapping ... total and bidirectional": the enumerators are
    numbered from 0 in the order in which the two tables of the source list
    them. *)
Definition Abi_index (abi : Abi) : nat :=
  match abi with
  | kArmeV6 => 0
  | kArmV7a => 1
  | kArm64V8a => 2
  | kX86 => 3
  | kX86_64 => 4
  | kMips => 5
  | kMips64 => 6
  | kUniversal => 7
  end.

(** [AbiToString(abi)]: [kAbiToStringMap.at(static_cast<size_t>(abi))];
    [std::array::at] throws [std::out_of_range] beyond the last index. *)
Definition AbiToString (abi : Abi) : outcome string :=
  match kAbiToStringMap !! Abi_index abi with
  | Some s => Returned s
  | None => Thrown cxx.out_of_range
  end.

(** ** Name formatter *)

(** [ReplacePlaceholder(placeholder, value, name, diag)]. The result pairs the
    returned flag with the content of [*name] afterwards. A [value] that is
    present is a piece over characters, which [name->replace] reads through
    [value.value().data()]; the one call that can pass the null piece is in
    [ToBaseName] and is modelled there. *)
Definition ReplacePlaceholder (placeholder : string) (value : option string)
    (name : string) : W (bool * string) :=
  match cxx.find placeholder name with
  | None =>
      (* Make sure the placeholder was present if the desired value is present. *)
      match value with
      | Some _ =>
          exec diag_Error ("Missing placeholder for artifact: " +:+ placeholder);
          ret (false, name)
      | None => ret (true, name)
      end
  | Some offset =>
      (* Make sure the placeholder was not present if the desired value was not
         present. *)
      match value with
      | None =>
          exec diag_Error
            ("Placeholder present but no value for artifact: " +:+ placeholder);
          ret (false, name)
      | Some v =>
          let name := cxx.replace offset (String.length placeholder) v name in
          (* Make sure there was only one instance of the placeholder. *)
          match cxx.find placeholder name with
          | Some _ =>
              exec diag_Error
                ("Placeholder present multiple times: " +:+ placeholder);
              ret (false, name)
          | None => ret (true, name)
          end
      end
  end.

(** [GetLabel(element, diag)]: the value of the first [label] attribute. *)
Fixpoint label_attribute (attrs : list Attribute) : string :=
  match attrs with
  | [] => ""
  | attr :: rest =>
      if String.eqb (attr_name attr) "label" then attr_value attr
      else label_attribute rest
  end.

Definition GetLabel (element : Element) : W string :=
  let label := label_attribute (attributes element) in
  if String.eqb label "" then
    exec diag_Error ("No label found for element " +:+ element_name element);
    ret label
  else ret label.

(** Member-wise updates of the records. *)
Definition with_name (v : option string) (a : ConfiguredArtifact) :=
  mkConfiguredArtifact v (version a) (abi_group a) (screen_density_group a)
    (locale_group a) (android_sdk_group a) (device_feature_group a)
    (gl_texture_group a).
Definition with_version (v : Z) (a : ConfiguredArtifact) :=
  mkConfiguredArtifact (name a) v (abi_group a) (screen_density_group a)
    (locale_group a) (android_sdk_group a) (device_feature_group a)
    (gl_texture_group a).
Definition with_abi_group (v : option string) (a : ConfiguredArtifact) :=
  mkConfiguredArtifact (name a) (version a) v (screen_density_group a)
    (locale_group a) (android_sdk_group a) (device_feature_group a)
    (gl_texture_group a).
Definition with_screen_density_group (v : option string)
    (a : ConfiguredArtifact) :=
  mkConfiguredArtifact (name a) (version a) (abi_group a) v
    (locale_group a) (android_sdk_group a) (device_feature_group a)
    (gl_texture_group a).
Definition with_locale_group (v : option string) (a : ConfiguredArtifact) :=
  mkConfiguredArtifact (name a) (version a) (abi_group a)
    (screen_density_group a) v (android_sdk_group a) (device_feature_group a)
    (gl_texture_group a).
Definition with_android_sdk_group (v : option string)
    (a : ConfiguredArtifact) :=
  mkConfiguredArtifact (name a) (version a) (abi_group a)
    (screen_density_group a) (locale_group a) v (device_feature_group a)
    (gl_texture_group a).
Definition with_device_feature_group (v : option string)
    (a : ConfiguredArtifact) :=
  mkConfiguredArtifact (name a) (version a) (abi_group a)
    (screen_density_group a) (locale_group a) (android_sdk_group a) v
    (gl_texture_group a).
Definition with_gl_texture_group (v : option string)
    (a : ConfiguredArtifact) :=
  mkConfiguredArtifact (name a) (version a) (abi_group a)
    (screen_density_group a) (locale_group a) (android_sdk_group a)
    (device_feature_group a) v.

(** [ConfiguredArtifact artifact{}]. *)
Definition empty_artifact : ConfiguredArtifact :=
  mkConfiguredArtifact None 0 None None None None None None.

(** [CopyXmlReferences(name, groups, target)]; the result pairs the returned
    flag with the content of [*target] afterwards. *)
Definition CopyXmlReferences {T} (name : option string)
    (groups : gmap string (list T)) (target : list T) : bool * list T :=
  match name with
  | None => (true, target)
  | Some n =>
      match groups !! n with
      | None => (false, target)
      | Some group => (true, foldl push_back target group)
      end
  end.

(** [src_diag.Error(...); has_errors = true;] when a lookup failed. *)
Definition report_unless (ok : bool) (src msg : string) (has_errors : bool)
    : W bool :=
  if ok then ret has_errors else exec src_diag_Error src msg; ret true.

(** [maybe.value()] where the source has established that it is present. *)
Definition Maybe_value (m : option string) : string := default "" m.

(** ** Sample configurations and elements *)

Module sample.

Definition artifact (n : option string) (v : Z) (abi gl : option string)
    : ConfiguredArtifact :=
  mkConfiguredArtifact n v abi None None None None gl.

Definition arm : list Abi := [kArmeV6; kArmV7a].
Definition dxt1 : list GlTexture := [mkGlTexture "dxt1" ["assets/dxt1/*"]].

(** Two named artifacts declared with versions 2 and 1; the second refers to
    a texture group and its name has no texture placeholder. *)
Definition named : PostProcessingConfiguration unit :=
  mkPostProcessingConfiguration
    [artifact (Some "b") 2 (Some "arm") None;
     artifact (Some "a") 1 None (Some "dxt1")]
    None {["arm" := arm]} ∅ ∅ ∅ {["dxt1" := dxt1]} ∅.

(** The second artifact refers to an architecture group that is not
    declared. *)
Definition missing_group : PostProcessingConfiguration unit :=
  mkPostProcessingConfiguration
    [artifact (Some "a") 1 (Some "arm") None;
     artifact (Some "b") 2 (Some "x86") None]
    None {["arm" := arm]} ∅ ∅ ∅ ∅ ∅.

(** Two artifacts declared with version 1. *)
Definition same_version : PostProcessingConfiguration unit :=
  mkPostProcessingConfiguration
    [artifact (Some "a") 1 None None; artifact (Some "b") 1 None None]
    None ∅ ∅ ∅ ∅ ∅ ∅.

(** A global format without texture placeholder and an artifact that is
    named from it and refers to a texture group. *)
Definition format_without_gl : PostProcessingConfiguration unit :=
  mkPostProcessingConfiguration
    [artifact None 1 (Some "arm") (Some "dxt1")]
    (Some "${basename}.${abi}.${ext}")
    {["arm" := arm]} ∅ ∅ ∅ {["dxt1" := dxt1]} ∅.

(** An artifact whose architecture label is the architecture placeholder,
    and one whose architecture label is the density placeholder. *)
Definition abi_labelled_abi : ConfiguredArtifact :=
  artifact None 1 (Some "${abi}") None.
Definition abi_labelled_density : ConfiguredArtifact :=
  mkConfiguredArtifact None 1 (Some "${density}") (Some "hdpi") None None
    None None.

Definition element (n : string) (attrs : list Attribute)
    (cs : list Element) : Element :=
  mkElement n attrs (NElement <$> cs).

Definition text_element (n text : string) : Element :=
  mkElement n [] [NText text].

(** [<artifact/>], [<artifact version="5"/>] and
    [<artifact version="2147483647"/>]. *)
Definition artifact_plain : Element := element "artifact" [] [].
Definition artifact_5 : Element :=
  element "artifact" [mkAttribute "version" "5"] [].
Definition artifact_max : Element :=
  element "artifact" [mkAttribute "version" "2147483647"] [].
Definition artifact_text : Element :=
  element "artifact" [mkAttribute "version" "one"] [].

(** An [abi-group] whose second entry is not an architecture. *)
Definition abi_group_element : Element :=
  element "abi-group" [mkAttribute "label" "arm"]
    [text_element "abi" "armeabi-v7a"; text_element "abi" "bogus";
     text_element "abi" "x86"].

(** A [gl-texture-group] with two textures of one path each. *)
Definition gl_texture_group_element : Element :=
  element "gl-texture-group" [mkAttribute "label" "dxt1"]
    [element "gl-texture" [mkAttribute "name" "GL_EXT_a"]
       [text_element "texture-path" "assets/a/*"];
     element "gl-texture" [mkAttribute "name" "GL_EXT_b"]
       [text_element "texture-path" "assets/b/*"]].

(** A [device-feature-group] with a child that is no feature. *)
Definition feature_group_element : Element :=
  element "device-feature-group" [mkAttribute "label" "audio"]
    [text_element "supports-feature" "android.hardware.audio.low_latency";
     element "bogus" [] [];
     text_element "supports-feature" " android.hardware.audio.pro "].

(** An [abi-group] of two architectures. *)
Definition arm_group_element : Element :=
  element "abi-group" [mkAttribute "label" "arm"]
    [text_element "abi" "armeabi-v7a"; text_element "abi" " arm64-v8a "].

(** A group element without label. *)
Definition unlabelled_element : Element :=
  element "abi-group" [mkAttribute "name" "arm"] [text_element "abi" "x86"].

(** A labelled group element without child element. *)
Definition empty_group_element : Element :=
  element "android-sdk-group" [mkAttribute "label" "v19"] [].

(** A [screen-density-group] whose second entry is a locale, and a
    [locale-group] whose second entry has a density too. *)
Definition density_group_element : Element :=
  element "screen-density-group" [mkAttribute "label" "large"]
    [text_element "screen-density" "xhdpi-v21";
     text_element "screen-density" "en";
     text_element "screen-density" " hdpi "].

Definition locale_group_element : Element :=
  element "locale-group" [mkAttribute "label" "europe"]
    [text_element "locale" "en"; text_element "locale" "fr-hdpi"].

(** An [android-sdk-group] with two entries, the first one with a version
    that does not parse, an unknown attribute and two manifests. *)
Definition sdk_element : Element :=
  element "android-sdk"
    [mkAttribute "minSdkVersion" "19"; mkAttribute "maxSdkVersion" "x";
     mkAttribute "codename" "K"]
    [element "manifest" [] []; element "manifest" [] []].

Definition sdk_group_element : Element :=
  element "android-sdk-group" [mkAttribute "label" "v19"]
    [sdk_element;
     element "android-sdk" [mkAttribute "minSdkVersion" "21"] []].


(** An [artifact] element with a version and an unknown attribute, and the
    same with its attributes in another order. *)
Definition artifact_7 : Element :=
  element "artifact"
    [mkAttribute "name" "${basename}.arm.apk"; mkAttribute "version" "7";
     mkAttribute "abi-group" "arm"; mkAttribute "comment" "none"] [].

Definition artifact_7_reordered : Element :=
  element "artifact"
    [mkAttribute "comment" "none"; mkAttribute "abi-group" "arm";
     mkAttribute "version" "7"; mkAttribute "name" "${basename}.arm.apk"] [].


(** Two artifacts of versions 1 and 2 with the same literal name. *)
Definition same_name : PostProcessingConfiguration unit :=
  mkPostProcessingConfiguration
    [artifact (Some "split.apk") 1 None None;
     artifact (Some "split.apk") 2 None None]
    None ∅ ∅ ∅ ∅ ∅ ∅.

(** A document in the namespace of aapt with an architecture group below a
    node in another namespace, a document in a foreign namespace, and a
    document without root element. *)
Definition aapt_root : xml.Element :=
  xml.mkElement kAaptXmlNs "post-process" []
    [xml.ElementNode
       (xml.mkElement "http://schemas.android.com/tools" "groups" []
          [xml.ElementNode
             (xml.mkElement kAaptXmlNs "abi-group"
                [mkAttribute "label" "arm"]
                [xml.ElementNode
                   (xml.mkElement "" "abi" [] [xml.TextNode "x86"])])])].

Definition foreign_root : xml.Element :=
  xml.mkElement "urn:example" "post-process" [] [].

(** A document with an architecture group that has no label. *)
Definition unlabelled_root : xml.Element :=
  xml.mkElement "" "post-process" []
    [xml.ElementNode
       (xml.mkElement "" "groups" []
          [xml.ElementNode (xml.mkElement "" "abi-group" [] [])])].

Definition documents : list (string * xml.XmlResource) :=
  [("<post-process xmlns='http://schemas.android.com/tools/aapt'>",
    xml.mkXmlResource (Some aapt_root));
   ("<post-process>",
    xml.mkXmlResource (Some (NamespaceVisitor_Visit aapt_root)));
   ("<post-process xmlns='urn:example'/>",
    xml.mkXmlResource (Some foreign_root));
   ("<post-process><groups><abi-group/></groups></post-process>",
    xml.mkXmlResource (Some unlabelled_root));
   ("<!-- empty -->", xml.mkXmlResource None)].

End sample.

(** Stand-ins for the qualifier parser, the SDK version parser, the XML
    inflater and the action executor, none of which is among the sources of
    the parser. The development is parametric in them; the stand-ins are
    used where a property is evaluated on a sample document. *)
Module stand_in.

(** A qualifier as far as the handlers look at it. *)
Record Qualifier : Type := mkQualifier {
  density : Z;
  locale : string;
  sdkVersion : Z
}.

Definition DefaultConfig : Qualifier := mkQualifier 0 "" 0.

Definition CONFIG_LOCALE : Z := 4.
Definition CONFIG_DENSITY : Z := 256.
Definition CONFIG_VERSION : Z := 1024.

(** The mask of the members in which two qualifiers differ. *)
Definition diff (a b : Qualifier) : Z :=
  (if density a =? density b then 0 else CONFIG_DENSITY) +
  (if String.eqb (locale a) (locale b) then 0 else CONFIG_LOCALE) +
  (if sdkVersion a =? sdkVersion b then 0 else CONFIG_VERSION).

Definition CopyWithoutSdkVersion (c : Qualifier) : Qualifier :=
  mkQualifier (density c) (locale c) 0.

(** The qualifiers of the sample documents. *)
Definition ConfigDescription_Parse (text : string) : option Qualifier :=
  if String.eqb text "hdpi" then Some (mkQualifier 240 "" 0)
  else if String.eqb text "xhdpi-v21" then Some (mkQualifier 320 "" 21)
  else if String.eqb text "en" then Some (mkQualifier 0 "en" 0)
  else if String.eqb text "fr-hdpi" then Some (mkQualifier 240 "fr" 0)
  else None.

(** A decimal SDK version. *)
Definition ParseSdkVersion (s : string) : option Z :=
  match cxx.stoi s with
  | inr v => Some v
  | inl _ => None
  end.

(** An inflater that knows the sample documents by their text. *)
Definition Inflate (contents : string) : W (option xml.XmlResource) :=
  match List.find (λ d, String.eqb (fst d) contents) sample.documents with
  | Some d => ret (Some (snd d))
  | None =>
      exec diag_Error "not well-formed (invalid token)";
      ret None
  end.

(** The child elements of an element that have no namespace. *)
Definition plain_children (e : xml.Element) : list xml.Element :=
  omap (λ c, match c with
             | xml.ElementNode (xml.mkElement "" _ _ _ as child) => Some child
             | _ => None
             end) (xml.children e).

(** An executor for actions two levels below the root: it runs, in document
    order and on elements without namespace, the action registered for the
    path of each such element, and returns whether all of them returned
    [true]. *)
Definition Execute {ConfigDescription : Type}
    (actions :
       list (list string *
             (PostProcessingConfiguration ConfigDescription → Element →
              W (outcome (PostProcessingConfiguration ConfigDescription *
                          bool)))))
    (doc : xml.XmlResource)
    (config : PostProcessingConfiguration ConfigDescription)
    : W (outcome (PostProcessingConfiguration ConfigDescription * bool)) :=
  match xml.root doc with
  | Some (xml.mkElement "" root_name _ _ as root) =>
      for_each_x
        (λ st branch,
           for_each_x
             (λ '(config, ok) node,
                let path :=
                  [root_name; element_name (without_namespaces branch);
                   element_name (without_namespaces node)] in
                match List.find (λ a, bool_decide (fst a = path)) actions with
                | Some a =>
                    do r <- snd a config (without_namespaces node);
                    match r with
                    | Returned (config, ok') =>
                        ret (Returned (config, ok && ok'))
                    | Thrown e => ret (Thrown e)
                    end
                | None => ret (Returned (config, ok))
                end)
             (plain_children branch) st)
        (plain_children root) (config, true)
  | _ => ret (Returned (config, true))
  end.

End stand_in.

Section Parser.

Set Default Proof Using "Type".

(** The parts of the repository this file is compiled against but that are
    not among the sources: the qualifier type [ConfigDescription], the file
    name helpers of [util/Files.h] and [util::TrimWhitespace]. *)
Context {ConfigDescription : Type}.
Variable GetFilename : string → string.
Variable GetExtension : string → string.
Variable TrimWhitespace : string → string.

(** The qualifier parser the density and locale handlers call:
    [ConfigDescription::Parse(text, &out)] as an option, the member
    functions [CopyWithoutSdkVersion] and [diff] (a bit mask, an [int]),
    [ConfigDescription::DefaultConfig()] and the two mask constants of
    [android::ResTable_config]; and [ResourceUtils::ParseSdkVersion], which
    the SDK handler calls. *)
Variable ConfigDescription_Parse : string → option ConfigDescription.
Variable CopyWithoutSdkVersion : ConfigDescription → ConfigDescription.
Variable diff : ConfigDescription → ConfigDescription → Z.
Variable DefaultConfig : ConfigDescription.
Variable CONFIG_DENSITY : Z.
Variable CONFIG_LOCALE : Z.
Variable ParseSdkVersion : string → option Z.

(** The XML inflater and the action executor, with what they report:
    [xml::Inflate(&in, diag, Source("config.xml"))] gives the document or
    nothing; [executor.Execute(XmlActionExecutorPolicy::kNone, diag, doc)]
    runs the handlers bound to [config] at the element paths given, and
    gives the configuration afterwards with the returned flag, unless a
    handler throws. *)
Variable Inflate : string → W (option xml.XmlResource).
Variable Execute :
  list (list string *
        (PostProcessingConfiguration ConfigDescription → Element →
         W (outcome (PostProcessingConfiguration ConfigDescription * bool)))) →
  xml.XmlResource → PostProcessingConfiguration ConfigDescription →
  W (outcome (PostProcessingConfiguration ConfigDescription * bool)).

Local Abbreviation Config := (PostProcessingConfiguration ConfigDescription).
Local Abbreviation Output := (OutputArtifact ConfigDescription).

(** [ToBaseName(result, apk_name, diag)]. The value handed to
    [ReplacePlaceholder] for the extension is the piece [ext.substr(1)].
    The call is made when the name contains the placeholder, so that
    [ReplacePlaceholder] finds it and reads the value through its [data()]
    in [name->replace]: with the null piece that is a read through the null
    pointer, and [ToBaseName] does not return. *)
Definition ToBaseName (result apk_name : string)
    : W (outcome (option string)) :=
  let ext := GetExtension apk_name in
  let end_index := cxx.rfind ext apk_name in
  let base_name :=
    match end_index with
    | Some i => cxx.take i apk_name
    | None => ""
    end in
  (* Base name is optional. *)
  do r <-
    (if bool_decide (cxx.find "${basename}" result ≠ cxx.npos) then
       let maybe_base_name :=
         if String.eqb base_name "" then None else Some base_name in
       do '(ok, result) <-
         ReplacePlaceholder "${basename}" maybe_base_name result;
       if ok then ret (Some result) else ret None
     else ret (Some result));
  match r with
  | None => ret (Returned None)
  | Some result =>
      (* Extension is optional. *)
      if bool_decide (cxx.find "${ext}" result ≠ cxx.npos) then
        (* Make sure we disregard the '.' in the extension when replacing
           the placeholder. *)
        match StringPiece_substr 1 ext with
        | None => ret (Thrown cxx.null_dereference)
        | Some piece =>
            do '(ok, result) <-
              ReplacePlaceholder "${ext}" (Some piece) result;
            if ok then ret (Returned (Some result)) else ret (Returned None)
        end
      else
        (* If no extension is specified, and the name template does not end
           in the current extension, add the existing extension. *)
        if util.EndsWith result ext then ret (Returned (Some result))
        else ret (Returned (Some (result +:+ ext)))
  end.

(** [ConfiguredArtifact::ToArtifactName(format, apk_name, diag)]. The
    values here are pieces over the labels, which are [std::string]s. *)
Definition ToArtifactName (this : ConfiguredArtifact)
    (format apk_name : string) : W (outcome (option string)) :=
  do base <- ToBaseName format apk_name;
  match base with
  | Thrown e => ret (Thrown e)
  | Returned None => ret (Returned None)
  | Returned (Some result) =>
    do '(ok, result) <- ReplacePlaceholder "${abi}" (abi_group this) result;
    if negb ok then ret (Returned None) else
    do '(ok, result) <-
      ReplacePlaceholder "${density}" (screen_density_group this) result;
    if negb ok then ret (Returned None) else
    do '(ok, result) <-
      ReplacePlaceholder "${locale}" (locale_group this) result;
    if negb ok then ret (Returned None) else
    do '(ok, result) <-
      ReplacePlaceholder "${sdk}" (android_sdk_group this) result;
    if negb ok then ret (Returned None) else
    do '(ok, result) <-
      ReplacePlaceholder "${feature}" (device_feature_group this) result;
    if negb ok then ret (Returned None) else
    do '(ok, result) <-
      ReplacePlaceholder "${gl}" (gl_texture_group this) result;
    if negb ok then ret (Returned None) else
    ret (Returned (Some result))
  end.

(** [ConfiguredArtifact::Name(apk_name, diag)]. *)
Definition Name (this : ConfiguredArtifact) (apk_name : string)
    : W (outcome (option string)) :=
  match name this with
  | None => ret (Returned None)
  | Some n => ToBaseName n apk_name
  end.

(** ** Resolver *)

(** [ToOutputArtifact(artifact, apk_name, config, diag)]. *)
Definition ToOutputArtifact (artifact : ConfiguredArtifact)
    (apk_name : string) (config : Config) : W (outcome (option Output)) :=
  if bool_decide (name artifact = None) &&
     bool_decide (artifact_format config = None) then
    exec diag_Error
      "Artifact does not have a name and no global name template defined";
    ret (Returned None)
  else
  do artifact_name <-
    (if bool_decide (name artifact ≠ None) then Name artifact apk_name
     else ToArtifactName artifact (Maybe_value (artifact_format config))
            apk_name);
  match artifact_name with
  | Thrown e => ret (Thrown e)
  | Returned None =>
      exec diag_Error "Could not determine split APK artifact name";
      ret (Returned None)
  | Returned (Some output_name) =>
    let has_errors := false in
    let '(ok, out_abis) :=
      CopyXmlReferences (abi_group artifact) (abi_groups config) [] in
    do has_errors <-
      report_unless ok output_name
        ("Could not lookup required ABIs: " +:+
         Maybe_value (abi_group artifact)) has_errors;
    let '(ok, out_locales) :=
      CopyXmlReferences (locale_group artifact) (locale_groups config) [] in
    do has_errors <-
      report_unless ok output_name
        ("Could not lookup required locales: " +:+
         Maybe_value (locale_group artifact)) has_errors;
    let '(ok, out_screen_densities) :=
      CopyXmlReferences (screen_density_group artifact)
        (screen_density_groups config) [] in
    do has_errors <-
      report_unless ok output_name
        ("Could not lookup required screen densities: " +:+
         Maybe_value (screen_density_group artifact)) has_errors;
    let '(ok, out_features) :=
      CopyXmlReferences (device_feature_group artifact)
        (device_feature_groups config) [] in
    do has_errors <-
      report_unless ok output_name
        ("Could not lookup required device features: " +:+
         Maybe_value (device_feature_group artifact)) has_errors;
    let '(ok, out_textures) :=
      CopyXmlReferences (gl_texture_group artifact)
        (gl_texture_groups config) [] in
    do has_errors <-
      report_unless ok output_name
        ("Could not lookup required OpenGL texture formats: " +:+
         Maybe_value (gl_texture_group artifact)) has_errors;
    do '(has_errors, out_android_sdk) <-
      match android_sdk_group artifact with
      | Some g =>
          match android_sdk_groups config !! g with
          | None =>
              exec src_diag_Error output_name
                ("Could not lookup required Android SDK version: " +:+ g);
              ret (true, None)
          | Some entry => ret (has_errors, Some entry)
          end
      | None => ret (has_errors, None)
      end;
    if has_errors : bool then ret (Returned None)
    else ret (Returned
                (Some (mkOutputArtifact output_name out_abis
                         out_screen_densities out_locales out_android_sdk
                         out_features out_textures)))
  end.

(** The body of the loop of [Parse] over the sorted artifacts: the state is
    [output_artifacts] and [has_errors]. *)
Definition Parse_artifact (apk_name : string) (config : Config)
    (st : list Output * bool) (artifact : ConfiguredArtifact)
    : W (outcome (list Output * bool)) :=
  let '(output_artifacts, has_errors) := st in
  do output_artifact <- ToOutputArtifact artifact apk_name config;
  match output_artifact with
  | Thrown e => ret (Thrown e)
  | Returned None =>
      (* Defer return an error condition so that all errors are reported. *)
      ret (Returned (output_artifacts, true))
  | Returned (Some o) =>
      ret (Returned (push_back output_artifacts o, has_errors))
  end.

(** [ConfigurationParser::Parse(apk_path)]. [maybe_config] is the result of
    [ExtractConfiguration(contents_, diag_)], which rests on the XML
    inflater and the action executor. The locals [ext] and [base_name] of
    the source are computed and not used. *)
Definition Parse (maybe_config : option Config) (apk_path : string)
    : W (outcome (option (list Output))) :=
  match maybe_config with
  | None => ret (Returned None)
  | Some config =>
      (* For now, make sure the version codes are unique. *)
      let artifacts := std_sort (artifacts config) in
      if bool_decide (adjacent_find artifacts ≠ None) then
        exec diag_Error "Configuration has duplicate versions";
        ret (Returned None)
      else
        let apk_name := GetFilename apk_path in
        (* Convert from a parsed configuration to a list of artifacts for
           processing. *)
        do r <-
          for_each_x (Parse_artifact apk_name config) artifacts ([], false);
        match r with
        | Thrown e => ret (Thrown e)
        | Returned (output_artifacts, has_errors) =>
            if has_errors : bool then ret (Returned None)
            else ret (Returned (Some output_artifacts))
        end
  end.

(** ** Tag handlers *)

Definition push_artifact (a : ConfiguredArtifact) (config : Config)
    : Config :=
  mkPostProcessingConfiguration (push_back (artifacts config) a)
    (artifact_format config) (abi_groups config)
    (screen_density_groups config) (locale_groups config)
    (android_sdk_groups config) (gl_texture_groups config)
    (device_feature_groups config).

Definition with_abi_groups (g : gmap string (list Abi)) (config : Config)
    : Config :=
  mkPostProcessingConfiguration (artifacts config)
    (artifact_format config) g
    (screen_density_groups config) (locale_groups config)
    (android_sdk_groups config) (gl_texture_groups config)
    (device_feature_groups config).

Definition with_gl_texture_groups (g : gmap string (list GlTexture))
    (config : Config) : Config :=
  mkPostProcessingConfiguration (artifacts config)
    (artifact_format config) (abi_groups config)
    (screen_density_groups config) (locale_groups config)
    (android_sdk_groups config) g
    (device_feature_groups config).

(** The body of the attribute loop of [ArtifactTagHandler]: the state is
    [artifact] and [version]. *)
Definition ArtifactTagHandler_attr (st : ConfiguredArtifact * option Z)
    (attr : Attribute) : W (outcome (ConfiguredArtifact * option Z)) :=
  let '(artifact, version) := st in
  if String.eqb (attr_name attr) "name" then
    ret (Returned (with_name (Some (attr_value attr)) artifact, version))
  else if String.eqb (attr_name attr) "version" then
    match cxx.stoi (attr_value attr) with
    | inr v => ret (Returned (artifact, Some v))
    | inl e => ret (Thrown e)
    end
  else if String.eqb (attr_name attr) "abi-group" then
    ret (Returned
           (with_abi_group (Some (attr_value attr)) artifact, version))
  else if String.eqb (attr_name attr) "screen-density-group" then
    ret (Returned
           (with_screen_density_group (Some (attr_value attr)) artifact,
            version))
  else if String.eqb (attr_name attr) "locale-group" then
    ret (Returned
           (with_locale_group (Some (attr_value attr)) artifact, version))
  else if String.eqb (attr_name attr) "android-sdk-group" then
    ret (Returned
           (with_android_sdk_group (Some (attr_value attr)) artifact,
            version))
  else if String.eqb (attr_name attr) "gl-texture-group" then
    ret (Returned
           (with_gl_texture_group (Some (attr_value attr)) artifact,
            version))
  else if String.eqb (attr_name attr) "device-feature-group" then
    ret (Returned
           (with_device_feature_group (Some (attr_value attr)) artifact,
            version))
  else
    exec diag_Note ("Unknown artifact attribute: " +:+ attr_name attr +:+
                    " = " +:+ attr_value attr);
    ret (Returned (artifact, version)).

(** [ArtifactTagHandler(config, root_element, diag)]. The result pairs the
    configuration afterwards with the returned flag. *)
Definition ArtifactTagHandler (config : Config) (root_element : Element)
    : W (outcome (Config * bool)) :=
  (* This will be incremented later so the first version will always be
     different to the base APK. *)
  let current_version :=
    match last (artifacts config) with
    | None => 0
    | Some back => version back
    end in
  do r <-
    for_each_x ArtifactTagHandler_attr (attributes root_element)
      (empty_artifact, None);
  match r with
  | Thrown e => ret (Thrown e)
  | Returned (artifact, version) =>
      let artifact :=
        with_version
          (match version with
           | Some v => v
           | None => int_add current_version 1
           end) artifact in
      ret (Returned (push_artifact artifact config, true))
  end.

(** The body of the child loop of [AbiGroupTagHandler]: the state is
    [group] and [valid]. The inner loop stops at the first text node;
    [kStringToAbiMap.at] throws [std::out_of_range] for an unknown key. *)
Definition AbiGroupTagHandler_child (st : list Abi * bool) (child : Element)
    : W (outcome (list Abi * bool)) :=
  let '(group, valid) := st in
  if negb (String.eqb (element_name child) "abi") then
    exec diag_Error
      ("Unexpected element in ABI group: " +:+ element_name child);
    ret (Returned (group, false))
  else
    match text_nodes (children child) with
    | t :: _ =>
        match kStringToAbiMap !! TrimWhitespace t with
        | Some abi => ret (Returned (push_back group abi, valid))
        | None => ret (Thrown cxx.out_of_range)
        end
    | [] => ret (Returned (group, valid))
    end.

(** [AbiGroupTagHandler(config, root_element, diag)]. *)
Definition AbiGroupTagHandler (config : Config) (root_element : Element)
    : W (outcome (Config * bool)) :=
  do label <- GetLabel root_element;
  if String.eqb label "" then ret (Returned (config, false))
  else
    let group := default [] (abi_groups config !! label) in
    do r <-
      for_each_x AbiGroupTagHandler_child (GetChildElements root_element)
        (group, true);
    match r with
    | Thrown e => ret (Thrown e)
    | Returned (group, valid) =>
        ret (Returned
               (with_abi_groups (<[label := group]> (abi_groups config))
                  config, valid))
    end.

(** The first [name] attribute, where the attribute loop of the texture
    handler breaks. *)
Fixpoint name_attribute (attrs : list Attribute) : option string :=
  match attrs with
  | [] => None
  | attr :: rest =>
      if String.eqb (attr_name attr) "name" then Some (attr_value attr)
      else name_attribute rest
  end.

Definition add_texture_path (result : GlTexture) (t : string) : GlTexture :=
  mkGlTexture (gl_name result)
    (push_back (texture_paths result) (TrimWhitespace t)).

(** The body of the loop over the children of one [gl-texture] element. *)
Definition GlTextureGroupTagHandler_path (child_name : string)
    (st : GlTexture * bool) (element : Element) : W (GlTexture * bool) :=
  let '(result, valid) := st in
  if negb (String.eqb (element_name element) "texture-path") then
    exec diag_Error
      ("Unexpected element in gl-texture element: " +:+ child_name);
    ret (result, false)
  else
    ret (foldl add_texture_path result (text_nodes (children element)),
         valid).

(** The body of the child loop of [GlTextureGroupTagHandler]: the state is
    [result], [group] and [valid]. *)
Definition GlTextureGroupTagHandler_child
    (st : GlTexture * list GlTexture * bool) (child : Element)
    : W (GlTexture * list GlTexture * bool) :=
  let '(result, group, valid) := st in
  do '(result, valid) <-
    (if negb (String.eqb (element_name child) "gl-texture") then
       exec diag_Error
         ("Unexpected element in GL texture group: " +:+ element_name child);
       ret (result, false)
     else
       let result :=
         match name_attribute (attributes child) with
         | Some n => mkGlTexture n (texture_paths result)
         | None => result
         end in
       for_each (GlTextureGroupTagHandler_path (element_name child))
         (GetChildElements child) (result, valid));
  ret (result, push_back group result, valid).

(** [GlTextureGroupTagHandler(config, root_element, diag)]. A
    default-constructed [GlTexture] has an empty name and no paths. *)
Definition GlTextureGroupTagHandler (config : Config)
    (root_element : Element) : W (Config * bool) :=
  do label <- GetLabel root_element;
  if String.eqb label "" then ret (config, false)
  else
    let group := default [] (gl_texture_groups config !! label) in
    do '(_, group, valid) <-
      for_each GlTextureGroupTagHandler_child
        (GetChildElements root_element) (mkGlTexture "" [], group, true);
    ret (with_gl_texture_groups
           (<[label := group]> (gl_texture_groups config)) config, valid).

Definition with_artifacts (l : list ConfiguredArtifact) (config : Config)
    : Config :=
  mkPostProcessingConfiguration l (artifact_format config)
    (abi_groups config) (screen_density_groups config) (locale_groups config)
    (android_sdk_groups config) (gl_texture_groups config)
    (device_feature_groups config).

Definition with_artifact_format (f : option string) (config : Config)
    : Config :=
  mkPostProcessingConfiguration (artifacts config) f (abi_groups config)
    (screen_density_groups config) (locale_groups config)
    (android_sdk_groups config) (gl_texture_groups config)
    (device_feature_groups config).

Definition with_screen_density_groups
    (g : gmap string (list ConfigDescription)) (config : Config) : Config :=
  mkPostProcessingConfiguration (artifacts config)
    (artifact_format config) (abi_groups config) g (locale_groups config)
    (android_sdk_groups config) (gl_texture_groups config)
    (device_feature_groups config).

Definition with_locale_groups (g : gmap string (list ConfigDescription))
    (config : Config) : Config :=
  mkPostProcessingConfiguration (artifacts config)
    (artifact_format config) (abi_groups config)
    (screen_density_groups config) g
    (android_sdk_groups config) (gl_texture_groups config)
    (device_feature_groups config).

Definition with_android_sdk_groups (g : gmap string AndroidSdk)
    (config : Config) : Config :=
  mkPostProcessingConfiguration (artifacts config)
    (artifact_format config) (abi_groups config)
    (screen_density_groups config) (locale_groups config) g
    (gl_texture_groups config) (device_feature_groups config).

Definition with_device_feature_groups (g : gmap string (list DeviceFeature))
    (config : Config) : Config :=
  mkPostProcessingConfiguration (artifacts config)
    (artifact_format config) (abi_groups config)
    (screen_density_groups config) (locale_groups config)
    (android_sdk_groups config) (gl_texture_groups config) g.

(** [ArtifactFormatTagHandler(config, root_element, diag)]: the loop over
    the children stops at the first text node. *)
Definition ArtifactFormatTagHandler (config : Config)
    (root_element : Element) : W (Config * bool) :=
  match text_nodes (children root_element) with
  | t :: _ => ret (with_artifact_format (Some (TrimWhitespace t)) config, true)
  | [] => ret (config, true)
  end.

(** The body of the child loop of [ScreenDensityGroupTagHandler]: the state
    is [group] and [valid]. The inner loop stops at the first text node. *)
Definition ScreenDensityGroupTagHandler_child
    (st : list ConfigDescription * bool) (child : Element)
    : W (list ConfigDescription * bool) :=
  let '(group, valid) := st in
  if negb (String.eqb (element_name child) "screen-density") then
    exec diag_Error
      ("Unexpected root_element in screen density group: " +:+
       element_name child);
    ret (group, false)
  else
    match text_nodes (children child) with
    | t :: _ =>
        let text := TrimWhitespace t in
        match ConfigDescription_Parse text with
        | Some config_descriptor =>
            if diff (CopyWithoutSdkVersion config_descriptor) DefaultConfig
               =? CONFIG_DENSITY then
              (* Copy the density with the minimum SDK version stripped
                 out. *)
              ret (push_back group (CopyWithoutSdkVersion config_descriptor),
                   valid)
            else
              exec diag_Error
                ("Could not parse config descriptor for screen-density: " +:+
                 text);
              ret (group, false)
        | None =>
            exec diag_Error
              ("Could not parse config descriptor for screen-density: " +:+
               text);
            ret (group, false)
        end
    | [] => ret (group, valid)
    end.

(** [ScreenDensityGroupTagHandler(config, root_element, diag)]. *)
Definition ScreenDensityGroupTagHandler (config : Config)
    (root_element : Element) : W (Config * bool) :=
  do label <- GetLabel root_element;
  if String.eqb label "" then ret (config, false)
  else
    let group := default [] (screen_density_groups config !! label) in
    do '(group, valid) <-
      for_each ScreenDensityGroupTagHandler_child
        (GetChildElements root_element) (group, true);
    ret (with_screen_density_groups
           (<[label := group]> (screen_density_groups config)) config, valid).

(** The body of the child loop of [LocaleGroupTagHandler]. Its two messages
    are those of the density handler, as in the source. *)
Definition LocaleGroupTagHandler_child
    (st : list ConfigDescription * bool) (child : Element)
    : W (list ConfigDescription * bool) :=
  let '(group, valid) := st in
  if negb (String.eqb (element_name child) "locale") then
    exec diag_Error
      ("Unexpected root_element in screen density group: " +:+
       element_name child);
    ret (group, false)
  else
    match text_nodes (children child) with
    | t :: _ =>
        let text := TrimWhitespace t in
        match ConfigDescription_Parse text with
        | Some config_descriptor =>
            if diff (CopyWithoutSdkVersion config_descriptor) DefaultConfig
               =? CONFIG_LOCALE then
              (* Copy the locale with the minimum SDK version stripped out. *)
              ret (push_back group (CopyWithoutSdkVersion config_descriptor),
                   valid)
            else
              exec diag_Error
                ("Could not parse config descriptor for screen-density: " +:+
                 text);
              ret (group, false)
        | None =>
            exec diag_Error
              ("Could not parse config descriptor for screen-density: " +:+
               text);
            ret (group, false)
        end
    | [] => ret (group, valid)
    end.

(** [LocaleGroupTagHandler(config, root_element, diag)]. *)
Definition LocaleGroupTagHandler (config : Config) (root_element : Element)
    : W (Config * bool) :=
  do label <- GetLabel root_element;
  if String.eqb label "" then ret (config, false)
  else
    let group := default [] (locale_groups config !! label) in
    do '(group, valid) <-
      for_each LocaleGroupTagHandler_child
        (GetChildElements root_element) (group, true);
    ret (with_locale_groups
           (<[label := group]> (locale_groups config)) config, valid).

Definition with_min_sdk_version (v : option Z) (e : AndroidSdk) : AndroidSdk :=
  mkAndroidSdk v (target_sdk_version e) (max_sdk_version e) (manifest e).
Definition with_target_sdk_version (v : option Z) (e : AndroidSdk)
    : AndroidSdk :=
  mkAndroidSdk (min_sdk_version e) v (max_sdk_version e) (manifest e).
Definition with_max_sdk_version (v : option Z) (e : AndroidSdk) : AndroidSdk :=
  mkAndroidSdk (min_sdk_version e) (target_sdk_version e) v (manifest e).
Definition with_manifest (v : option AndroidManifest) (e : AndroidSdk)
    : AndroidSdk :=
  mkAndroidSdk (min_sdk_version e) (target_sdk_version e) (max_sdk_version e)
    v.

(** [AndroidSdk entry;]: no version and no manifest. *)
Definition empty_sdk : AndroidSdk := mkAndroidSdk None None None None.

(** [*target = ResourceUtils::ParseSdkVersion(attr.value)] and the check that
    follows it, [target] pointing to the member that [set] updates. *)
Definition AndroidSdkGroupTagHandler_target
    (set : option Z → AndroidSdk → AndroidSdk) (entry : AndroidSdk)
    (valid : bool) (attr : Attribute) : W (AndroidSdk * bool) :=
  let target := ParseSdkVersion (attr_value attr) in
  let entry := set target entry in
  match target with
  | None =>
      exec diag_Error
        ("Invalid attribute: " +:+ attr_name attr +:+ " = " +:+
         attr_value attr);
      ret (entry, false)
  | Some _ => ret (entry, valid)
  end.

(** The body of the attribute loop of [AndroidSdkGroupTagHandler]: the state
    is [entry] and [valid]. *)
Definition AndroidSdkGroupTagHandler_attr (st : AndroidSdk * bool)
    (attr : Attribute) : W (AndroidSdk * bool) :=
  let '(entry, valid) := st in
  if String.eqb (attr_name attr) "minSdkVersion" then
    AndroidSdkGroupTagHandler_target with_min_sdk_version entry valid attr
  else if String.eqb (attr_name attr) "targetSdkVersion" then
    AndroidSdkGroupTagHandler_target with_target_sdk_version entry valid attr
  else if String.eqb (attr_name attr) "maxSdkVersion" then
    AndroidSdkGroupTagHandler_target with_max_sdk_version entry valid attr
  else
    exec diag_Warn ("Unknown attribute: " +:+ attr_name attr +:+ " = " +:+
                    attr_value attr);
    ret (entry, valid).

(** The body of the loop over the child elements of one [android-sdk]
    element. *)
Definition AndroidSdkGroupTagHandler_manifest (entry : AndroidSdk)
    (node : Element) : W AndroidSdk :=
  if String.eqb (element_name node) "manifest" then
    match manifest entry with
    | Some _ =>
        exec diag_Warn "Found multiple manifest tags. Ignoring duplicates.";
        ret entry
    | None => ret (with_manifest (Some mkAndroidManifest) entry)
    end
  else ret entry.

(** The body of the child loop of [AndroidSdkGroupTagHandler]: the state is
    [config->android_sdk_groups], [valid] and [found]. *)
Definition AndroidSdkGroupTagHandler_child (label : string)
    (st : gmap string AndroidSdk * bool * bool) (child : Element)
    : W (gmap string AndroidSdk * bool * bool) :=
  let '(groups, valid, found) := st in
  if negb (String.eqb (element_name child) "android-sdk") then
    exec diag_Error
      ("Unexpected root_element in ABI group: " +:+ element_name child);
    ret (groups, false, found)
  else
    do '(entry, valid) <-
      for_each AndroidSdkGroupTagHandler_attr (attributes child)
        (empty_sdk, valid);
    do entry <-
      for_each AndroidSdkGroupTagHandler_manifest (GetChildElements child)
        entry;
    let groups := <[label := entry]> groups in
    let valid := if found : bool then false else valid in
    ret (groups, valid, true).

(** [AndroidSdkGroupTagHandler(config, root_element, diag)]. *)
Definition AndroidSdkGroupTagHandler (config : Config)
    (root_element : Element) : W (Config * bool) :=
  do label <- GetLabel root_element;
  if String.eqb label "" then ret (config, false)
  else
    do '(groups, valid, _) <-
      for_each (AndroidSdkGroupTagHandler_child label)
        (GetChildElements root_element)
        (android_sdk_groups config, true, false);
    ret (with_android_sdk_groups groups config, valid).

(** The body of the child loop of [DeviceFeatureGroupTagHandler]: the state
    is [group] and [valid]. The inner loop stops at the first text node. *)
Definition DeviceFeatureGroupTagHandler_child
    (st : list DeviceFeature * bool) (child : Element)
    : W (list DeviceFeature * bool) :=
  let '(group, valid) := st in
  if negb (String.eqb (element_name child) "supports-feature") then
    exec diag_Error
      ("Unexpected root_element in device feature group: " +:+
       element_name child);
    ret (group, false)
  else
    match text_nodes (children child) with
    | t :: _ => ret (push_back group (TrimWhitespace t), valid)
    | [] => ret (group, valid)
    end.

(** [DeviceFeatureGroupTagHandler(config, root_element, diag)]. *)
Definition DeviceFeatureGroupTagHandler (config : Config)
    (root_element : Element) : W (Config * bool) :=
  do label <- GetLabel root_element;
  if String.eqb label "" then ret (config, false)
  else
    let group := default [] (device_feature_groups config !! label) in
    do '(group, valid) <-
      for_each DeviceFeatureGroupTagHandler_child
        (GetChildElements root_element) (group, true);
    ret (with_device_feature_groups
           (<[label := group]> (device_feature_groups config)) config, valid).

(** ** Vocabulary of the properties *)

(** Strictly ascending versions. *)
Definition version_lt (a b : ConfiguredArtifact) : Prop :=
  version a < version b.

(** The output [ToOutputArtifact] returns for [a], and whether there is
    none. *)
Definition resolve (apk_name : string) (config : Config)
    (a : ConfiguredArtifact) : option Output :=
  returned (value (ToOutputArtifact a apk_name config)).

Definition fails (apk_name : string) (config : Config)
    (a : ConfiguredArtifact) : bool :=
  match resolve apk_name config a with
  | None => true
  | Some _ => false
  end.

(** [ToOutputArtifact] does not return for [a]. *)
Definition faults (apk_name : string) (config : Config)
    (a : ConfiguredArtifact) : bool :=
  match value (ToOutputArtifact a apk_name config) with
  | Thrown _ => true
  | Returned _ => false
  end.

(** The artifacts of [l] that a loop over [l] calls [ToOutputArtifact] on:
    those up to the first one for which the call does not return, that one
    included; all of [l] when every call returns. *)
Fixpoint reached (apk_name : string) (config : Config)
    (l : list ConfiguredArtifact) : list ConfiguredArtifact :=
  match l with
  | [] => []
  | a :: rest =>
      a :: (if faults apk_name config a then []
            else reached apk_name config rest)
  end.

(** [a] names, on some axis, a group label that [config] does not have. *)
Definition missing_label (config : Config) (a : ConfiguredArtifact)
    : Prop :=
  (∃ l, abi_group a = Some l ∧ abi_groups config !! l = None) ∨
  (∃ l, locale_group a = Some l ∧ locale_groups config !! l = None) ∨
  (∃ l, screen_density_group a = Some l ∧
        screen_density_groups config !! l = None) ∨
  (∃ l, device_feature_group a = Some l ∧
        device_feature_groups config !! l = None) ∨
  (∃ l, gl_texture_group a = Some l ∧
        gl_texture_groups config !! l = None) ∨
  (∃ l, android_sdk_group a = Some l ∧
        android_sdk_groups config !! l = None).

(** The content of a referenced group: empty without a reference. *)
Definition referenced {T} (label : option string)
    (groups : gmap string (list T)) : option (list T) :=
  match label with
  | None => Some []
  | Some l => groups !! l
  end.

(** The SDK entry an artifact refers to: a single optional value. *)
Definition referenced_sdk (label : option string)
    (groups : gmap string AndroidSdk) : option (option AndroidSdk) :=
  match label with
  | None => Some None
  | Some l => Some <$> groups !! l
  end.

(** The name [ToOutputArtifact] computes: from the artifact's own name when
    it has one, from the global format otherwise. *)
Definition resolved_name (apk_name : string) (config : Config)
    (a : ConfiguredArtifact) : option string :=
  match name a, artifact_format config with
  | Some _, _ => returned (value (Name a apk_name))
  | None, Some format => returned (value (ToArtifactName a format apk_name))
  | None, None => None
  end.

(** An [artifact] element whose [version] attributes, if any, are all
    accepted by [std::stoi]. *)
Definition version_attribute_parses (attr : Attribute) : bool :=
  if String.eqb (attr_name attr) "version" then
    match cxx.stoi (attr_value attr) with
    | inr _ => true
    | inl _ => false
    end
  else true.

Definition version_attributes_parse (e : Element) : bool :=
  forallb version_attribute_parses (attributes e).

Definition has_version_attribute (e : Element) : bool :=
  existsb (λ attr, String.eqb (attr_name attr) "version") (attributes e).

(** [current_version] of [ArtifactTagHandler]: the version of the last
    artifact declared so far, 0 when there is none. *)
Definition previous_version (config : Config) : Z :=
  match last (artifacts config) with
  | None => 0
  | Some back => version back
  end.

Definition in_int_range (z : Z) : Prop := INT_MIN ≤ z ≤ INT_MAX.

(** Modelled from the spec: the action executor that calls the handlers
    ([xml/XmlActionExecutor.h]) is not among the sources. The spec keeps the
    templates "in declaration order": the handler runs on the [artifact]
    elements in document order, starting from [config]; an exception ends
    the pass. *)
Definition declare_artifacts (es : list Element) (config : Config)
    : W (outcome Config) :=
  for_each_x
    (λ config e,
       do r <- ArtifactTagHandler config e;
       match r with
       | Returned (config', _) => ret (Returned config')
       | Thrown exn => ret (Thrown exn)
       end) es config.

(** A configuration without artifacts, groups or format. *)
Definition empty_config : Config :=
  mkPostProcessingConfiguration [] None ∅ ∅ ∅ ∅ ∅ ∅.

(** The texture paths that one child of a [gl-texture-group] contributes:
    the trimmed text nodes of the [texture-path] children of a
    [gl-texture] element, nothing for any other element. *)
Definition path_texts (element : Element) : list string :=
  if String.eqb (element_name element) "texture-path"
  then TrimWhitespace <$> text_nodes (children element)
  else [].

Definition own_paths (child : Element) : list string :=
  if String.eqb (element_name child) "gl-texture"
  then concat (path_texts <$> GetChildElements child)
  else [].

(** An [abi] child whose text, if any, is a key of [kStringToAbiMap];
    any other child element. *)
Definition abi_child_known (child : Element) : bool :=
  if negb (String.eqb (element_name child) "abi") then true
  else match text_nodes (children child) with
       | t :: _ =>
           bool_decide
             (is_Some (kStringToAbiMap !! TrimWhitespace t))
       | [] => true
       end.

(** Text without the character that starts a placeholder. *)
Fixpoint no_dollar (s : string) : bool :=
  match s with
  | "" => true
  | String c s' => negb (Ascii.eqb c "$") && no_dollar s'
  end.

(** The shape of every placeholder of the formatter: a ['$'] and then no
    other ['$']. Two occurrences of such a text cannot overlap. *)
Definition is_marker (p : string) : bool :=
  match p with
  | String c rest => Ascii.eqb c "$" && no_dollar rest
  | "" => false
  end.

(** The axis placeholders with the reference each one stands for, in the
    order in which [ToArtifactName] handles them. *)
Definition axes (this : ConfiguredArtifact) : list (string * option string) :=
  [("${abi}", abi_group this);
   ("${density}", screen_density_group this);
   ("${locale}", locale_group this);
   ("${sdk}", android_sdk_group this);
   ("${feature}", device_feature_group this);
   ("${gl}", gl_texture_group this)].

(** [ReplacePlaceholder] for each pair of [l] in turn, given up at the
    first failure. *)
Fixpoint ReplacePlaceholders (l : list (string * option string))
    (result : string) : W (option string) :=
  match l with
  | [] => ret (Some result)
  | (placeholder, v) :: rest =>
      do '(ok, result) <- ReplacePlaceholder placeholder v result;
      if negb ok then ret None else ReplacePlaceholders rest result
  end.

(** The two stages of [ToBaseName] as values: the base name, then the
    extension. *)
Definition base_name_of (apk_name : string) : option string :=
  let base_name :=
    match cxx.rfind (GetExtension apk_name) apk_name with
    | Some i => cxx.take i apk_name
    | None => ""
    end in
  if String.eqb base_name "" then None else Some base_name.

Definition basename_stage (result apk_name : string) : option string :=
  if bool_decide (cxx.find "${basename}" result ≠ cxx.npos) then
    let r := value (ReplacePlaceholder "${basename}" (base_name_of apk_name)
                      result) in
    if fst r then Some (snd r) else None
  else Some result.

Definition ext_stage (result apk_name : string) : option string :=
  let ext := GetExtension apk_name in
  if bool_decide (cxx.find "${ext}" result ≠ cxx.npos) then
    piece ← StringPiece_substr 1 ext;
    let r := value (ReplacePlaceholder "${ext}" (Some piece) result) in
    if fst r then Some (snd r) else None
  else if util.EndsWith result ext then Some result
  else Some (result +:+ ext).

(** The eight placeholders of the formatter. *)
Definition placeholders : list string :=
  ["${basename}"; "${ext}"; "${abi}"; "${density}"; "${locale}"; "${sdk}";
   "${feature}"; "${gl}"].

Definition starts_placeholder (s : string) : bool :=
  existsb (λ p, String.prefix p s) placeholders.

(** A name template in which every ['$'] starts a placeholder. *)
Fixpoint well_formed (s : string) : bool :=
  match s with
  | "" => true
  | String c s' =>
      (if Ascii.eqb c "$" then starts_placeholder s else true) &&
      well_formed s'
  end.

(** How often a placeholder has to occur for the formatter to accept it:
    once with a reference, never without. *)
Definition expected_occurrences (v : option string) : nat :=
  match v with
  | Some _ => 1%nat
  | None => 0%nat
  end.

(** The labels an artifact refers to are free of ['$']. *)
Definition plain_labels (this : ConfiguredArtifact) : Prop :=
  Forall (λ pv, ∀ label, pv.2 = Some label → no_dollar label = true)
    (axes this).

(** The name template that applies to an artifact: its own literal name
    if it has one, otherwise the global format. *)
Definition applicable_template (config : Config) (a : ConfiguredArtifact)
    : option string :=
  match name a with
  | Some own => Some own
  | None => artifact_format config
  end.

(** An axis of a converted artifact holds the content of the referenced
    group, and nothing without a reference. *)
Definition copies_axis {T} (label : option string)
    (groups : gmap string (list T)) (resolved : list T) : Prop :=
  match label with
  | Some l => groups !! l = Some resolved
  | None => resolved = []
  end.

(** The error [ToOutputArtifact] reports for a reference to a label that
    the registry does not have, under the name [n] of the artifact. *)
Definition lookup_error {T} (n msg : string) (label : option string)
    (groups : gmap string T) : list DiagMessage :=
  match label with
  | Some l =>
      match groups !! l with
      | None => [mkDiag Error (Some n) (msg +:+ l)]
      | Some _ => []
      end
  | None => []
  end.

(** The trimmed text of the first text node of an element, where the inner
    loop of a group handler stops. *)
Definition first_text (e : Element) : option string :=
  TrimWhitespace <$> head (text_nodes (children e)).

(** The children of a group element whose name is not [tag], with the
    message reported for each, and whether there is none. *)
Definition unexpected_errors (msg tag : string) (cs : list Element)
    : list DiagMessage :=
  (λ c, mkDiag Error None (msg +:+ element_name c)) <$>
  List.filter (λ c, negb (String.eqb (element_name c) tag)) cs.

Definition all_named (tag : string) (cs : list Element) : bool :=
  forallb (λ c, String.eqb (element_name c) tag) cs.

(** What one child contributes to its group, per axis. *)
Definition feature_entry (child : Element) : option DeviceFeature :=
  if String.eqb (element_name child) "supports-feature"
  then first_text child else None.

Definition abi_entry (child : Element) : option Abi :=
  if String.eqb (element_name child) "abi"
  then t ← first_text child; kStringToAbiMap !! t else None.

Definition qualifier_entry (tag : string) (mask : Z) (child : Element)
    : option ConfigDescription :=
  if String.eqb (element_name child) tag then
    t ← first_text child;
    d ← ConfigDescription_Parse t;
    if diff (CopyWithoutSdkVersion d) DefaultConfig =? mask
    then Some (CopyWithoutSdkVersion d) else None
  else None.

(** A child that a qualifier handler accepts: an element named [tag]
    without text, or with a text that gives an entry. *)
Definition qualifier_child_ok (tag : string) (mask : Z) (child : Element)
    : bool :=
  String.eqb (element_name child) tag &&
  match first_text child with
  | None => true
  | Some _ => bool_decide (is_Some (qualifier_entry tag mask child))
  end.

(** What a qualifier handler reports for one child. The two messages are
    those of the density handler; the locale handler has the same. *)
Definition qualifier_errors (tag : string) (mask : Z) (child : Element)
    : list DiagMessage :=
  if negb (String.eqb (element_name child) tag) then
    [mkDiag Error None
       ("Unexpected root_element in screen density group: " +:+
        element_name child)]
  else
    match first_text child, qualifier_entry tag mask child with
    | Some text, None =>
        [mkDiag Error None
           ("Could not parse config descriptor for screen-density: " +:+
            text)]
    | _, _ => []
    end.

(** Every list of a registry consists of values with property [P]. *)
Definition registry_all {T} (P : T → Prop) (groups : gmap string (list T))
    : Prop :=
  ∀ l g, groups !! l = Some g → Forall P g.

(** The invariant of the two qualifier registries: a registered density
    differs from the default configuration in the density only, a registered
    locale in the locale only. *)
Definition qualifiers_ok (config : Config) : Prop :=
  registry_all (λ c, diff c DefaultConfig = CONFIG_DENSITY)
    (screen_density_groups config) ∧
  registry_all (λ c, diff c DefaultConfig = CONFIG_LOCALE)
    (locale_groups config).

(** The value of the last attribute named [n]. *)
Definition attribute (n : string) (attrs : list Attribute) : option string :=
  attr_value <$>
  last (List.filter (λ attr, String.eqb (attr_name attr) n) attrs).

(** The version an [artifact] element states. *)
Definition explicit_version (attrs : list Attribute) : option Z :=
  s ← attribute "version" attrs;
  match cxx.stoi s with
  | inr v => Some v
  | inl _ => None
  end.

(** The entry the SDK handler builds for one [android-sdk] element. *)
Definition sdk_entry (child : Element) : AndroidSdk :=
  value (for_each AndroidSdkGroupTagHandler_manifest (GetChildElements child)
           (fst (value (for_each AndroidSdkGroupTagHandler_attr
                          (attributes child) (empty_sdk, true))))).

Definition sdk_version_attribute (attr : Attribute) : bool :=
  String.eqb (attr_name attr) "minSdkVersion" ||
  String.eqb (attr_name attr) "targetSdkVersion" ||
  String.eqb (attr_name attr) "maxSdkVersion".

(** The version attributes of an [android-sdk] element all parse. *)
Definition sdk_attributes_parse (child : Element) : bool :=
  forallb (λ attr, if sdk_version_attribute attr
                   then bool_decide (is_Some (ParseSdkVersion (attr_value attr)))
                   else true)
    (attributes child).

(** The [android-sdk] children of a group element. *)
Definition sdk_children (cs : list Element) : list Element :=
  List.filter (λ c, String.eqb (element_name c) "android-sdk") cs.




(** ** The whole pass *)

(** [ActionHandler]. *)
Definition ActionHandler : Type :=
  Config → Element → W (outcome (Config * bool)).

(** A handler that does not throw, as an [ActionHandler]. *)
Definition returning (handler : Config → Element → W (Config * bool))
    : ActionHandler :=
  λ config element, do r <- handler config element; ret (Returned r).

(** The actions [ExtractConfiguration] registers with the executor, in the
    order of the source, each with the path of its element from the root.
    [Bind(&config, handler)] is the handler itself here: the configuration
    it is bound to is the one the executor passes on. *)
Definition actions : list (list string * ActionHandler) :=
  [(["post-process"; "artifacts"; "artifact"], ArtifactTagHandler);
   (["post-process"; "artifacts"; "artifact-format"],
    returning ArtifactFormatTagHandler);
   (["post-process"; "groups"; "abi-group"], AbiGroupTagHandler);
   (["post-process"; "groups"; "screen-density-group"],
    returning ScreenDensityGroupTagHandler);
   (["post-process"; "groups"; "locale-group"],
    returning LocaleGroupTagHandler);
   (["post-process"; "groups"; "android-sdk-group"],
    returning AndroidSdkGroupTagHandler);
   (["post-process"; "groups"; "gl-texture-group"],
    returning GlTextureGroupTagHandler);
   (["post-process"; "groups"; "device-feature-group"],
    returning DeviceFeatureGroupTagHandler)].

(** [ExtractConfiguration(contents, diag)]. *)
Definition ExtractConfiguration (contents : string)
    : W (outcome (option Config)) :=
  do doc <- Inflate contents;
  match doc with
  | None => ret (Returned None)
  | Some doc =>
      (* Strip any namespaces from the XML as the XmlActionExecutor ignores
         anything with a namespace. *)
      match xml.root doc with
      | None =>
          exec diag_Error
            "Could not find the root element in the XML document";
          ret (Returned None)
      | Some root =>
          let xml_ns := xml.namespace_uri root in
          if negb (String.eqb xml_ns "") &&
             negb (String.eqb xml_ns kAaptXmlNs) then
            exec diag_Error
              ("Unknown namespace found on root element: " +:+ xml_ns);
            ret (Returned None)
          else
            let doc :=
              if negb (String.eqb xml_ns "")
              then xml.mkXmlResource (Some (NamespaceVisitor_Visit root))
              else doc in
            do r <- Execute actions doc empty_config;
            match r with
            | Thrown e => ret (Thrown e)
            | Returned (config, true) => ret (Returned (Some config))
            | Returned (_, false) =>
                exec diag_Error "Could not process XML document";
                ret (Returned None)
            end
      end
  end.

(** [ConfigurationParser::Parse(apk_path)] from the contents of the
    configuration file on: [ExtractConfiguration], then the conversion. *)
Definition ConfigurationParser_Parse (contents apk_path : string)
    : W (outcome (option (list Output))) :=
  do r <- ExtractConfiguration contents;
  match r with
  | Thrown e => ret (Thrown e)
  | Returned maybe_config => Parse maybe_config apk_path
  end.

(** The document [ExtractConfiguration] hands to the executor: the
    inflated one, with every namespace URI cleared when the root has one. *)
Definition executed_document (doc : xml.XmlResource) (root : xml.Element)
    : xml.XmlResource :=
  if negb (String.eqb (xml.namespace_uri root) "")
  then xml.mkXmlResource (Some (NamespaceVisitor_Visit root))
  else doc.

(** * Properties *)

(** ** The writer monad *)

Lemma value_bind {A B} (m : W A) (f : A → W B) :
  value (bind m f) = value (f (value m)).
Proof. unfold bind, value. destruct m as [a l]; simpl. by destruct (f a). Qed.

Lemma emitted_bind {A B} (m : W A) (f : A → W B) :
  emitted (bind m f) = emitted m ++ emitted (f (value m)).
Proof.
  unfold bind, value, emitted. destruct m as [a l]; simpl. by destruct (f a).
Qed.

Lemma value_ret {A} (a : A) : value (ret a) = a.
Proof. done. Qed.

Lemma W_eta {A} (m : W A) : m = (value m, emitted m).
Proof. by destruct m. Qed.

Lemma returned_Some {A} (r : outcome (option A)) (a : A) :
  returned r = Some a ↔ r = Returned (Some a).
Proof. destruct r as [[x|]|e]; simpl; split; congruence. Qed.

(** ** Sorting by version and the duplicate check *)

Lemma not_after_le a b : not_after a b ↔ version a ≤ version b.
Proof. unfold not_after, artifact_lt. rewrite Z.ltb_ge. done. Qed.

Global Instance not_after_total : Total not_after.
Proof. intros a b. rewrite !not_after_le. lia. Qed.

Global Instance not_after_trans : Transitive not_after.
Proof. intros a b c. rewrite !not_after_le. lia. Qed.

Global Instance version_lt_trans : Transitive version_lt.
Proof. intros a b c. unfold version_lt. lia. Qed.

Lemma std_sort_Permutation l : std_sort l ≡ₚ l.
Proof. apply merge_sort_Permutation. Qed.

Lemma std_sort_Sorted l : Sorted not_after (std_sort l).
Proof. apply Sorted_merge_sort, _. Qed.

Lemma adjacent_find_cons a b l :
  adjacent_find (a :: b :: l) =
    if artifact_eq a b then Some 0%nat else S <$> adjacent_find (b :: l).
Proof. done. Qed.

Lemma adjacent_find_Some l i :
  adjacent_find l = Some i →
  ∃ a b, l !! i = Some a ∧ l !! S i = Some b ∧ version a = version b.
Proof.
  revert i. induction l as [|a [|b l] IH]; intros i; try done.
  rewrite adjacent_find_cons. unfold artifact_eq at 1.
  destruct (Z.eqb_spec (version a) (version b)) as [Heq|Hne].
  - intros [= <-]. by exists a, b.
  - destruct (adjacent_find (b :: l)) as [k|] eqn:Hk; simpl; [|done].
    intros [= <-]. apply (IH k). done.
Qed.

Lemma adjacent_find_None l :
  adjacent_find l = None →
  ∀ i a b, l !! i = Some a → l !! S i = Some b → version a ≠ version b.
Proof.
  induction l as [|a [|b l] IH]; intros Hnone i x y Hx Hy; try done.
  rewrite adjacent_find_cons in Hnone. unfold artifact_eq at 1 in Hnone.
  destruct (Z.eqb_spec (version a) (version b)) as [Heq|Hne]; [done|].
  destruct (adjacent_find (b :: l)) eqn:Hk; [done|].
  destruct i as [|i].
  - simpl in Hx, Hy. by simplify_eq.
  - by apply (IH eq_refl i).
Qed.

(** A list sorted by [operator<] without adjacent equal elements ascends
    strictly. *)
Lemma Sorted_strict l :
  Sorted not_after l → adjacent_find l = None → Sorted version_lt l.
Proof.
  induction 1 as [|a l Hl IH Hhd]; intros Hnone; [constructor|].
  constructor.
  - apply IH. destruct l as [|b l]; [done|].
    rewrite adjacent_find_cons in Hnone.
    destruct (artifact_eq a b); [done|].
    by destruct (adjacent_find (b :: l)).
  - destruct Hhd as [|b l Hab]; constructor.
    apply not_after_le in Hab.
    pose proof (adjacent_find_None _ Hnone 0%nat a b eq_refl eq_refl).
    unfold version_lt. lia.
Qed.

Lemma Sorted_version_lt_not_after l :
  Sorted version_lt l → Sorted not_after l.
Proof.
  induction 1 as [|a l Hl IH Hhd]; constructor; [done|].
  destruct Hhd as [|b l Hab]; constructor.
  apply not_after_le. unfold version_lt in Hab. lia.
Qed.

Lemma strict_NoDup l :
  StronglySorted version_lt l → NoDup (version <$> l).
Proof.
  induction 1 as [|a l Hl IH Hall]; csimpl; constructor; [|done].
  rewrite list_elem_of_fmap. intros (b & Heq & Hin).
  rewrite Forall_forall in Hall. specialize (Hall b Hin).
  unfold version_lt in Hall. lia.
Qed.

Lemma NoDup_adjacent_find l :
  NoDup (version <$> l) → adjacent_find l = None.
Proof.
  intros Hnd. destruct (adjacent_find l) as [i|] eqn:Hi; [|done].
  apply adjacent_find_Some in Hi as (a & b & Ha & Hb & Hv).
  assert (i = S i); [|lia].
  apply (NoDup_lookup _ _ _ (version a) Hnd);
    rewrite list_lookup_fmap; [by rewrite Ha|by rewrite Hb, Hv].
Qed.

(** The duplicate check of [Parse] passes exactly when the versions of the
    declared artifacts are pairwise different. *)
Lemma adjacent_find_std_sort l :
  adjacent_find (std_sort l) = None ↔ NoDup (version <$> l).
Proof.
  split.
  - intros Hnone. rewrite <-(std_sort_Permutation l).
    apply strict_NoDup, Sorted_StronglySorted; [apply _|].
    apply Sorted_strict; [apply std_sort_Sorted|done].
  - intros Hnd. apply NoDup_adjacent_find.
    by rewrite (std_sort_Permutation l).
Qed.

Lemma std_sort_strict l :
  NoDup (version <$> l) → StronglySorted version_lt (std_sort l).
Proof.
  intros Hnd. apply Sorted_StronglySorted; [apply _|].
  apply Sorted_strict; [apply std_sort_Sorted|].
  by apply adjacent_find_std_sort.
Qed.

(** Whatever order [std::sort] gives to equivalent elements, a result that
    passes the duplicate check is the one of [std_sort]. *)
Lemma std_sort_unique l l' :
  l' ≡ₚ l → Sorted not_after l' → adjacent_find l' = None →
  l' = std_sort l.
Proof.
  intros Hperm Hsorted Hnone.
  assert (StronglySorted version_lt l') as Hstrict.
  { apply Sorted_StronglySorted; [apply _|]. by apply Sorted_strict. }
  assert (NoDup (version <$> l)) as Hnd.
  { rewrite <-Hperm. by apply strict_NoDup. }
  apply (StronglySorted_unique_strong version_lt);
    [|done|by apply std_sort_strict|by rewrite std_sort_Permutation].
  intros x y _ _. unfold version_lt. lia.
Qed.

Lemma duplicate_adjacent_find (l : list ConfiguredArtifact) i j a b :
  i ≠ j → l !! i = Some a → l !! j = Some b → version a = version b →
  adjacent_find (std_sort l) ≠ None.
Proof.
  intros Hij Ha Hb Hv Hnone. apply adjacent_find_std_sort in Hnone.
  apply Hij, (NoDup_lookup _ _ _ (version a) Hnone);
    rewrite list_lookup_fmap; [by rewrite Ha|by rewrite Hb, Hv].
Qed.

(** ** The resolver *)

Lemma foldl_push_back {T} (target group : list T) :
  foldl push_back target group = target ++ group.
Proof.
  revert target. induction group as [|x group IH]; intros target; simpl.
  - by rewrite app_nil_r.
  - rewrite IH. unfold push_back. by rewrite <-app_assoc.
Qed.

Lemma CopyXmlReferences_spec {T} (label : option string)
    (groups : gmap string (list T)) :
  CopyXmlReferences label groups [] =
    match referenced label groups with
    | Some g => (true, g)
    | None => (false, [])
    end.
Proof.
  unfold CopyXmlReferences, referenced. destruct label as [l|]; [|done].
  destruct (groups !! l) as [g|]; [|done]. by rewrite foldl_push_back.
Qed.

(** The loop of [Parse]: the outputs are appended in the order of the
    list, and the flag records whether a conversion failed. *)
Lemma Parse_loop apk_name config l outs h :
  existsb (faults apk_name config) l = false →
  value (for_each_x (Parse_artifact apk_name config) l (outs, h)) =
    Returned (outs ++ omap (resolve apk_name config) l,
              h || existsb (fails apk_name config) l).
Proof.
  revert outs h. induction l as [|a l IH]; intros outs h.
  - intros _. simpl. by rewrite app_nil_r, orb_false_r.
  - cbn [for_each_x existsb omap list_omap]. unfold faults at 1, fails at 1.
    change (resolve apk_name config a)
      with (returned (value (ToOutputArtifact a apk_name config))).
    rewrite value_bind. unfold Parse_artifact at 1. rewrite value_bind.
    destruct (value (ToOutputArtifact a apk_name config)) as [[o|]|e];
      [| |done]; cbn [orb returned]; intros Hl; rewrite value_ret.
    + rewrite (IH _ _ Hl). unfold push_back. by rewrite <-app_assoc.
    + rewrite (IH _ _ Hl). by rewrite orb_true_r.
Qed.

(** A conversion that does not return ends the loop, and [Parse] with it. *)
Lemma Parse_loop_fault apk_name config l st :
  existsb (faults apk_name config) l = true →
  ∃ e, value (for_each_x (Parse_artifact apk_name config) l st) = Thrown e.
Proof.
  revert st. induction l as [|a l IH]; intros [outs h]; [done|].
  cbn [for_each_x existsb]. unfold faults at 1.
  rewrite value_bind. unfold Parse_artifact at 1. rewrite value_bind.
  destruct (value (ToOutputArtifact a apk_name config)) as [[o|]|e];
    cbn [orb]; rewrite value_ret.
  - apply IH.
  - apply IH.
  - intros _. by exists e.
Qed.

Lemma faults_fails apk_name config a :
  faults apk_name config a = true → fails apk_name config a = true.
Proof.
  unfold faults, fails, resolve.
  by destruct (value (ToOutputArtifact a apk_name config)).
Qed.

Lemma existsb_faults_fails apk_name config l :
  existsb (faults apk_name config) l = true →
  existsb (fails apk_name config) l = true.
Proof.
  rewrite !existsb_exists. intros (a & Hin & Ha). exists a.
  split; [done|]. by apply faults_fails.
Qed.

(** The list [Parse] returns, in closed form. *)
Lemma Parse_value config apk_path :
  returned (value (Parse (Some config) apk_path)) =
    let sorted := std_sort (artifacts config) in
    let apk_name := GetFilename apk_path in
    if bool_decide (adjacent_find sorted ≠ None) then None
    else if existsb (fails apk_name config) sorted then None
    else Some (omap (resolve apk_name config) sorted).
Proof.
  unfold Parse. cbv zeta. case_bool_decide; [done|].
  rewrite value_bind.
  destruct (existsb (faults (GetFilename apk_path) config)
              (std_sort (artifacts config))) eqn:Hfaults.
  - rewrite (existsb_faults_fails _ _ _ Hfaults).
    destruct (Parse_loop_fault _ _ _ ([], false) Hfaults) as [e ->]. done.
  - rewrite (Parse_loop _ _ _ _ _ Hfaults). simpl.
    by destruct (existsb (fails _ _) _).
Qed.

Lemma omap_resolve_Forall2 apk_name config l :
  existsb (fails apk_name config) l = false →
  Forall2 (λ a o, resolve apk_name config a = Some o) l
    (omap (resolve apk_name config) l).
Proof.
  induction l as [|a l IH]; [constructor|].
  cbn [existsb omap list_omap]. unfold fails at 1.
  destruct (resolve apk_name config a) as [o|] eqn:Ho; [|done].
  simpl. intros Hl. constructor; auto.
Qed.

(** [ToOutputArtifact] in closed form: a name, then every reference looked
    up in its registry. *)
Lemma ToOutputArtifact_value apk_name config a :
  resolve apk_name config a =
    n ← resolved_name apk_name config a;
    out_abis ← referenced (abi_group a) (abi_groups config);
    out_locales ← referenced (locale_group a) (locale_groups config);
    out_densities ←
      referenced (screen_density_group a) (screen_density_groups config);
    out_features ←
      referenced (device_feature_group a) (device_feature_groups config);
    out_textures ←
      referenced (gl_texture_group a) (gl_texture_groups config);
    out_sdk ← referenced_sdk (android_sdk_group a) (android_sdk_groups config);
    Some (mkOutputArtifact n out_abis out_densities out_locales out_sdk
            out_features out_textures).
Proof.
  unfold resolve, ToOutputArtifact, resolved_name.
  destruct (name a) as [own|] eqn:Hname;
    destruct (artifact_format config) as [format|] eqn:Hformat.
  all: repeat first [rewrite bool_decide_true by done
                    |rewrite bool_decide_false by done
                    |rewrite bool_decide_false by (by intros [])].
  all: cbn [andb].
  4: done.
  all: rewrite value_bind.
  all: try change (Maybe_value (Some format)) with format.
  all: match goal with
       | |- context [returned (value ?m) ≫= _] =>
           destruct (value m) as [[n|]|e]; [|reflexivity..]
       end.
  all: cbn [returned].
  all: rewrite !CopyXmlReferences_spec.
  all: cbn [mbind option_bind].
  all: destruct (referenced (abi_group a) _);
    destruct (referenced (locale_group a) _);
    destruct (referenced (screen_density_group a) _);
    destruct (referenced (device_feature_group a) _);
    destruct (referenced (gl_texture_group a) _);
    destruct (android_sdk_group a) as [g|];
    try destruct (android_sdk_groups config !! g) eqn:Hsdk;
    cbn [referenced_sdk]; rewrite ?Hsdk; reflexivity.
Qed.

Lemma missing_label_fails apk_name config a :
  missing_label config a → resolve apk_name config a = None.
Proof.
  intros Hmissing. rewrite ToOutputArtifact_value.
  destruct (resolved_name apk_name config a); [|done]. cbn [mbind option_bind].
  destruct Hmissing as
    [(l & Hl & Hg)|[(l & Hl & Hg)|[(l & Hl & Hg)|[(l & Hl & Hg)|
    [(l & Hl & Hg)|(l & Hl & Hg)]]]]];
    rewrite Hl; cbn [referenced referenced_sdk]; rewrite Hg;
    repeat match goal with
           | |- context [referenced ?x ?y] => destruct (referenced x y)
           end; reflexivity.
Qed.

Lemma resolve_Some_labels apk_name config a out :
  resolve apk_name config a = Some out → ¬ missing_label config a.
Proof.
  intros Hres Hmissing.
  by rewrite (missing_label_fails _ _ _ Hmissing) in Hres.
Qed.

(** ** Resolution is all or nothing *)

(** One artifact that fails to convert makes the loop of [Parse] raise
    [has_errors], whatever the other artifacts do. *)
Lemma Parse_fails_with (config : Config) (apk_path : string)
    (a : ConfiguredArtifact) :
  a ∈ artifacts config →
  resolve (GetFilename apk_path) config a = None →
  returned (value (Parse (Some config) apk_path)) = None.
Proof.
  intros Hin Hfail. rewrite Parse_value. cbv zeta.
  case_bool_decide; [done|].
  assert (existsb (fails (GetFilename apk_path) config)
            (std_sort (artifacts config)) = true) as ->; [|done].
  apply existsb_exists. exists a. split.
  - apply list_elem_of_In. by rewrite std_sort_Permutation.
  - unfold fails. by rewrite Hfail.
Qed.

(** A list is returned only when every declared artifact converted, and it
    then has one output per artifact. *)
Lemma Parse_Some_complete (config : Config) apk_path outs :
  returned (value (Parse (Some config) apk_path)) = Some outs →
  length outs = length (artifacts config) ∧
  ∀ a, a ∈ artifacts config →
       is_Some (resolve (GetFilename apk_path) config a).
Proof.
  rewrite Parse_value. cbv zeta. case_bool_decide; [done|].
  destruct (existsb _ _) eqn:Hex; [done|]. intros [= <-].
  pose proof (omap_resolve_Forall2 _ _ _ Hex) as Hall. split.
  - rewrite <-(Forall2_length _ _ _ Hall).
    by rewrite (std_sort_Permutation (artifacts config)).
  - intros a Hin. rewrite <-(std_sort_Permutation (artifacts config)) in Hin.
    apply list_elem_of_lookup in Hin as [i Hi].
    destruct (Forall2_lookup_l _ _ _ _ _ Hall Hi) as (o & _ & ->). by eexists.
Qed.

(** ** Duplicate versions *)

(** C3. When two declared artifacts have the same version, [Parse] returns
    nothing and the only thing it does is to report the duplicate: the
    sorted copy has an adjacent duplicate and no artifact is converted. *)
Theorem Parse_duplicate_versions (config : Config) (apk_path : string)
    (i j : nat) (a b : ConfiguredArtifact) :
  i ≠ j →
  artifacts config !! i = Some a →
  artifacts config !! j = Some b →
  version a = version b →
  adjacent_find (std_sort (artifacts config)) ≠ None ∧
  Parse (Some config) apk_path =
    (Returned None,
     [mkDiag Error None "Configuration has duplicate versions"]).
Proof.
  intros Hij Ha Hb Hv.
  pose proof (duplicate_adjacent_find _ _ _ _ _ Hij Ha Hb Hv) as Hdup.
  split; [done|]. unfold Parse. by rewrite bool_decide_true.
Qed.

(** ** Order of the returned list *)

(** C2, as the code has it. The loop of [Parse] runs over the sorted copy:
    the returned list holds the conversions of the artifacts in ascending
    order of version. That is the declaration order exactly when the
    artifacts were declared in ascending order of version. *)
Theorem Parse_version_order (config : Config) (apk_path : string)
    (outs : list Output) :
  returned (value (Parse (Some config) apk_path)) = Some outs →
  let sorted := std_sort (artifacts config) in
  sorted ≡ₚ artifacts config ∧
  StronglySorted version_lt sorted ∧
  Forall2 (λ a o, resolve (GetFilename apk_path) config a = Some o)
    sorted outs ∧
  (sorted = artifacts config ↔ Sorted version_lt (artifacts config)).
Proof.
  rewrite Parse_value. cbv zeta. case_bool_decide as Hadj; [done|].
  destruct (existsb _ _) eqn:Hex; [done|]. intros [= <-].
  assert (adjacent_find (std_sort (artifacts config)) = None) as Hnone.
  { destruct (adjacent_find _); [|done]. by destruct Hadj. }
  assert (StronglySorted version_lt (std_sort (artifacts config))) as Hs.
  { by apply std_sort_strict, adjacent_find_std_sort. }
  split_and!; [apply std_sort_Permutation|done|by apply omap_resolve_Forall2|].
  split.
  - intros <-. by apply StronglySorted_Sorted.
  - intros Hdecl. symmetry. apply std_sort_unique; [done| |].
    + by apply Sorted_version_lt_not_after.
    + apply NoDup_adjacent_find, strict_NoDup.
      apply Sorted_StronglySorted; [apply _|done].
Qed.

(** ** The artifact handler *)

Lemma wrap_int_in_range z : in_int_range (wrap_int z).
Proof.
  unfold in_int_range, wrap_int, INT_MIN, INT_MAX.
  pose proof (Z.mod_pos_bound (z + 2147483648) 4294967296). lia.
Qed.

Lemma wrap_int_id z : in_int_range z → wrap_int z = z.
Proof.
  unfold in_int_range, wrap_int, INT_MIN, INT_MAX. intros Hz.
  rewrite Z.mod_small; lia.
Qed.

Lemma int_add_1 z : in_int_range z → z < INT_MAX → int_add z 1 = z + 1.
Proof.
  intros Hz Hmax. apply wrap_int_id. unfold in_int_range, INT_MAX in *. lia.
Qed.

Lemma stoi_in_range s v : cxx.stoi s = inr v → in_int_range v.
Proof.
  unfold cxx.stoi, in_int_range.
  destruct (match cxx.skip_spaces s with
            | String "-" r => (true, r)
            | String "+" r => (false, r)
            | _ => (false, cxx.skip_spaces s)
            end) as [negative s2].
  destruct (cxx.digits None s2) as [d|]; [|done].
  destruct (_ && _) eqn:Hrange; [|done]. intros [= <-].
  apply andb_true_iff in Hrange as [?%Z.leb_le ?%Z.leb_le]. done.
Qed.

Lemma ArtifactTagHandler_attr_value artifact version attr :
  (String.eqb (attr_name attr) "version" = true ∧
   value (ArtifactTagHandler_attr (artifact, version) attr) =
     match cxx.stoi (attr_value attr) with
     | inr v => Returned (artifact, Some v)
     | inl e => Thrown e
     end) ∨
  (String.eqb (attr_name attr) "version" = false ∧
   ∃ artifact',
     value (ArtifactTagHandler_attr (artifact, version) attr) =
       Returned (artifact', version)).
Proof.
  unfold ArtifactTagHandler_attr.
  destruct (String.eqb (attr_name attr) "name") eqn:Hname.
  { apply String.eqb_eq in Hname. rewrite Hname. right.
    split; [done|]. by eexists. }
  destruct (String.eqb (attr_name attr) "version") eqn:Hversion.
  { left. split; [done|]. by destruct (cxx.stoi _). }
  right. split; [done|].
  repeat match goal with
         | |- context [String.eqb ?x ?y] => destruct (String.eqb x y)
         end; by eexists.
Qed.

Lemma ArtifactTagHandler_attr_notes st attr :
  Forall (λ d, level d = Note) (emitted (ArtifactTagHandler_attr st attr)).
Proof.
  destruct st as [artifact version]. unfold ArtifactTagHandler_attr.
  repeat match goal with
         | |- context [String.eqb ?x ?y] => destruct (String.eqb x y)
         | |- context [cxx.stoi ?x] => destruct (cxx.stoi x)
         end; repeat constructor.
Qed.

(** The attribute loop returns when every [version] attribute parses, and
    leaves the version unset when there is no such attribute. *)
Lemma attribute_loop_returns attrs artifact version :
  forallb version_attribute_parses attrs = true →
  ∃ artifact' version',
    value (for_each_x ArtifactTagHandler_attr attrs (artifact, version)) =
      Returned (artifact', version') ∧
    (existsb (λ attr, String.eqb (attr_name attr) "version") attrs = false →
     version' = version) ∧
    ((∀ v, version = Some v → in_int_range v) →
     ∀ v, version' = Some v → in_int_range v).
Proof.
  revert artifact version.
  induction attrs as [|attr attrs IH]; intros artifact version Hall.
  { exists artifact, version. done. }
  cbn [forallb] in Hall. apply andb_true_iff in Hall as [Hattr Hall].
  cbn [for_each_x existsb]. rewrite value_bind.
  unfold version_attribute_parses in Hattr.
  destruct (ArtifactTagHandler_attr_value artifact version attr)
    as [[Hv ->]|[Hv (artifact' & ->)]]; rewrite Hv in *.
  - destruct (cxx.stoi (attr_value attr)) as [exn|v] eqn:Hstoi; [done|].
    destruct (IH artifact (Some v) Hall) as (a' & v' & -> & _ & Hrange).
    exists a', v'. split_and!; [done..|].
    intros _. apply Hrange. intros ? [= <-]. by eapply stoi_in_range.
  - destruct (IH artifact' version Hall) as (a' & v' & -> & Hkeep & Hrange).
    exists a', v'. done.
Qed.

Lemma attribute_loop_throws attrs artifact version :
  forallb version_attribute_parses attrs = false →
  ∃ exn,
    value (for_each_x ArtifactTagHandler_attr attrs (artifact, version)) =
      Thrown exn.
Proof.
  revert artifact version.
  induction attrs as [|attr attrs IH]; intros artifact version Hall; [done|].
  cbn [forallb] in Hall. cbn [for_each_x]. rewrite value_bind.
  unfold version_attribute_parses in Hall.
  destruct (ArtifactTagHandler_attr_value artifact version attr)
    as [[Hv ->]|[Hv (artifact' & ->)]]; rewrite Hv in *.
  - destruct (cxx.stoi (attr_value attr)) as [exn|v]; [by exists exn|].
    apply IH, Hall.
  - apply IH, Hall.
Qed.

Lemma for_each_x_emitted {A S} (body : S → A → W (outcome S))
    (P : DiagMessage → Prop) l s :
  (∀ s x, Forall P (emitted (body s x))) →
  Forall P (emitted (for_each_x body l s)).
Proof.
  intros Hbody. revert s. induction l as [|x l IH]; intros s; [constructor|].
  cbn [for_each_x]. rewrite emitted_bind. apply Forall_app. split; [done|].
  destruct (value (body s x)); [apply IH|constructor].
Qed.

Lemma ArtifactTagHandler_value config e :
  value (ArtifactTagHandler config e) =
    match value (for_each_x ArtifactTagHandler_attr (attributes e)
                   (empty_artifact, None)) with
    | Thrown exn => Thrown exn
    | Returned (artifact, ver) =>
        Returned
          (push_artifact
             (with_version
                (match ver with
                 | Some v => v
                 | None => int_add (previous_version config) 1
                 end) artifact) config, true)
    end.
Proof.
  unfold ArtifactTagHandler. rewrite value_bind.
  destruct (value (for_each_x _ _ _)) as [[artifact ver]|exn]; done.
Qed.

(** C10. [std::stoi] is applied to the [version] attribute without a guard.
    When every [version] attribute of the element parses, the handler
    returns [true] with exactly one artifact appended to the configuration;
    when one does not, the handler is left by the exception of [std::stoi]
    and returns nothing. In both cases the only messages are the notes for
    unknown attributes: non-numeric version text gets no diagnostic. *)
Theorem ArtifactTagHandler_total (config : Config) (e : Element) :
  (version_attributes_parse e = true →
   ∃ artifact,
     value (ArtifactTagHandler config e) =
       Returned (push_artifact artifact config, true) ∧
     artifacts (push_artifact artifact config) =
       artifacts config ++ [artifact]) ∧
  (version_attributes_parse e = false →
   ∃ exn, value (ArtifactTagHandler config e) = Thrown exn) ∧
  Forall (λ d, level d = Note) (emitted (ArtifactTagHandler config e)).
Proof.
  split_and!.
  - intros Hparse. rewrite ArtifactTagHandler_value.
    destruct (attribute_loop_returns _ empty_artifact None Hparse)
      as (artifact & ver & -> & _).
    by eexists.
  - intros Hparse. rewrite ArtifactTagHandler_value.
    destruct (attribute_loop_throws _ empty_artifact None Hparse)
      as (exn & ->).
    by exists exn.
  - unfold ArtifactTagHandler. rewrite emitted_bind. apply Forall_app. split.
    + apply for_each_x_emitted, ArtifactTagHandler_attr_notes.
    + destruct (value (for_each_x _ _ _)) as [[artifact version]|exn];
        constructor.
Qed.

Lemma no_version_attribute_parses e :
  has_version_attribute e = false → version_attributes_parse e = true.
Proof.
  unfold has_version_attribute, version_attributes_parse.
  induction (attributes e) as [|attr attrs IH]; [done|].
  cbn [existsb forallb]. intros [Hattr Hrest]%orb_false_iff.
  unfold version_attribute_parses at 1. rewrite Hattr. by apply IH.
Qed.

(** One run of the handler: the appended artifact has an [int] version, and
    without a [version] attribute that version is [current_version + 1]. *)
Lemma ArtifactTagHandler_version config e :
  version_attributes_parse e = true →
  ∃ artifact,
    value (ArtifactTagHandler config e) =
      Returned (push_artifact artifact config, true) ∧
    in_int_range (version artifact) ∧
    (has_version_attribute e = false →
     version artifact = int_add (previous_version config) 1).
Proof.
  intros Hparse. rewrite ArtifactTagHandler_value.
  destruct (attribute_loop_returns _ empty_artifact None Hparse)
    as (artifact & ver & -> & Hkeep & Hrange).
  eexists. split; [done|]. cbn [version with_version]. split.
  - destruct ver as [v|]; [by apply Hrange|apply wrap_int_in_range].
  - intros Hnone. by rewrite (Hkeep Hnone).
Qed.

Lemma last_app_lookup {A} (l : list A) k x :
  l !! k = Some x → last (take (S k) l) = Some x.
Proof.
  intros Hk. rewrite (take_S_r _ _ _ Hk). apply last_snoc.
Qed.

(** A pass over the [artifact] elements appends one artifact per element,
    in document order. *)
Lemma declare_artifacts_spec es config :
  forallb version_attributes_parse es = true →
  ∃ new config',
    value (declare_artifacts es config) = Returned config' ∧
    artifacts config' = artifacts config ++ new ∧
    length new = length es ∧
    Forall (λ a, in_int_range (version a)) new ∧
    ∀ k e a,
      es !! k = Some e → new !! k = Some a →
      has_version_attribute e = false →
      version a =
        int_add (match last (artifacts config ++ take k new) with
                 | None => 0
                 | Some back => version back
                 end) 1.
Proof.
  revert config. induction es as [|e es IH]; intros config Hall.
  { exists [], config. rewrite app_nil_r. split_and!; try done. }
  cbn [forallb] in Hall. apply andb_true_iff in Hall as [He Hes].
  destruct (ArtifactTagHandler_version config e He)
    as (a0 & Hrun & Hrange & Hauto).
  destruct (IH (push_artifact a0 config) Hes)
    as (new & config' & Hrest & Hartifacts & Hlen & Hranges & Hversions).
  exists (a0 :: new), config'. split_and!.
  - unfold declare_artifacts in *. cbn [for_each_x].
    rewrite !value_bind, Hrun. exact Hrest.
  - rewrite Hartifacts. cbn [artifacts push_artifact]. unfold push_back.
    by rewrite <-app_assoc.
  - simpl. by rewrite Hlen.
  - by constructor.
  - intros [|k] e' a' He' Ha' Hnone; simplify_eq/=.
    + rewrite app_nil_r. by apply Hauto.
    + rewrite (Hversions k e' a' He' Ha' Hnone).
      cbn [artifacts push_artifact]. unfold push_back.
      by rewrite <-app_assoc.
Qed.

(** A pass over the [artifact] elements of a document, from the empty
    configuration. *)
Lemma declare_artifacts_versions (es : list Element) :
  forallb version_attributes_parse es = true →
  ∃ config,
    value (declare_artifacts es empty_config) = Returned config ∧
    length (artifacts config) = length es ∧
    ∀ k e a,
      es !! k = Some e → artifacts config !! k = Some a →
      has_version_attribute e = false →
      match k with
      | O => version a = 1
      | S k' =>
          ∃ prev,
            artifacts config !! k' = Some prev ∧
            version a = int_add (version prev) 1 ∧
            (version prev < INT_MAX → version a = version prev + 1)
      end.
Proof.
  intros Hall.
  destruct (declare_artifacts_spec es empty_config Hall)
    as (new & config & Hrun & Hartifacts & Hlen & Hranges & Hversions).
  cbn [artifacts empty_config app] in Hartifacts, Hversions.
  exists config. rewrite Hartifacts. split_and!; [done..|].
  intros k e a He Ha Hnone. specialize (Hversions k e a He Ha Hnone).
  destruct k as [|k']; [done|].
  destruct (lookup_lt_is_Some_2 new k') as [prev Hprev].
  { apply lookup_lt_Some in Ha. lia. }
  exists prev. rewrite (last_app_lookup _ _ _ Hprev) in Hversions.
  split_and!; [done..|]. intros Hmax. rewrite Hversions.
  apply int_add_1; [|done].
  rewrite Forall_forall in Hranges. apply Hranges.
  by apply list_elem_of_lookup_2 in Hprev.
Qed.

(** C6, as the code has it. An [artifact] element without a [version]
    attribute gets version 1 when no artifact was declared before it, and
    otherwise the [int] sum of the version of the artifact declared last
    (explicit or automatic) and 1: one more than that version whenever it is
    below [INT_MAX]. So it is for every element of a pass over the
    [artifact] elements of a document. *)
Theorem auto_assigned_version (es : list Element) (config : Config)
    (e : Element) :
  (has_version_attribute e = false →
   ∃ a,
     value (ArtifactTagHandler config e) =
       Returned (push_artifact a config, true) ∧
     match last (artifacts config) with
     | None => version a = 1
     | Some prev =>
         version a = int_add (version prev) 1 ∧
         (in_int_range (version prev) → version prev < INT_MAX →
          version a = version prev + 1)
     end) ∧
  (forallb version_attributes_parse es = true →
   ∃ config',
     value (declare_artifacts es empty_config) = Returned config' ∧
     length (artifacts config') = length es ∧
     ∀ k e a,
       es !! k = Some e → artifacts config' !! k = Some a →
       has_version_attribute e = false →
       match k with
       | O => version a = 1
       | S k' =>
           ∃ prev,
             artifacts config' !! k' = Some prev ∧
             version a = int_add (version prev) 1 ∧
             (version prev < INT_MAX → version a = version prev + 1)
       end).
Proof.
  split; [|apply declare_artifacts_versions].
  intros Hnone.
  destruct (ArtifactTagHandler_version config e) as (a & Hrun & _ & Hauto).
  { by apply no_version_attribute_parses. }
  exists a. split; [done|]. rewrite (Hauto Hnone). unfold previous_version.
  destruct (last (artifacts config)) as [prev|]; [|done].
  split; [done|]. intros Hrange Hmax. by apply int_add_1.
Qed.

(** ** The texture group handler *)

Lemma value_GetLabel e : value (GetLabel e) = label_attribute (attributes e).
Proof. unfold GetLabel. by destruct (String.eqb _ _). Qed.

Lemma foldl_add_texture_path result texts :
  foldl add_texture_path result texts =
    mkGlTexture (gl_name result)
      (texture_paths result ++ (TrimWhitespace <$> texts)).
Proof.
  revert result. induction texts as [|t texts IH]; intros [n paths]; simpl.
  - by rewrite app_nil_r.
  - rewrite IH. simpl. unfold push_back. by rewrite <-app_assoc.
Qed.

Lemma GlTextureGroupTagHandler_path_value child_name result valid element :
  ∃ valid',
    value (GlTextureGroupTagHandler_path child_name (result, valid) element)
    = (mkGlTexture (gl_name result)
         (texture_paths result ++ path_texts element), valid').
Proof.
  unfold GlTextureGroupTagHandler_path, path_texts.
  destruct (String.eqb (element_name element) "texture-path"); simpl.
  - exists valid. by rewrite foldl_add_texture_path.
  - exists false. rewrite app_nil_r. by destruct result.
Qed.

Lemma path_loop_value child_name elements result valid :
  ∃ valid',
    value (for_each (GlTextureGroupTagHandler_path child_name) elements
             (result, valid))
    = (mkGlTexture (gl_name result)
         (texture_paths result ++ concat (path_texts <$> elements)), valid').
Proof.
  revert result valid.
  induction elements as [|element elements IH]; intros result valid.
  { exists valid. simpl. rewrite app_nil_r. by destruct result. }
  cbn [for_each]. rewrite value_bind.
  destruct (GlTextureGroupTagHandler_path_value child_name result valid
              element) as (valid1 & ->).
  destruct (IH (mkGlTexture (gl_name result)
                  (texture_paths result ++ path_texts element)) valid1)
    as (valid2 & ->).
  exists valid2. csimpl. by rewrite <-app_assoc.
Qed.

(** One iteration of the child loop: the accumulator grows by the paths of
    the child, and is pushed whatever the child is. *)
Lemma GlTextureGroupTagHandler_child_value result group valid child :
  ∃ result' valid',
    value (GlTextureGroupTagHandler_child (result, group, valid) child) =
      (result', group ++ [result'], valid') ∧
    texture_paths result' = texture_paths result ++ own_paths child.
Proof.
  unfold GlTextureGroupTagHandler_child, own_paths. rewrite value_bind.
  destruct (String.eqb (element_name child) "gl-texture"); cbn [negb].
  - match goal with
    | |- context [for_each ?f ?l (?r, ?v)] =>
        destruct (path_loop_value (element_name child) l r v) as (valid' & ->)
    end.
    eexists _, valid'. split; [done|]. cbn [texture_paths].
    by destruct (name_attribute (attributes child)).
  - exists result, false. split; [done|]. by rewrite app_nil_r.
Qed.

Lemma child_loop_value cs result group valid :
  ∃ result' pushed valid',
    value (for_each GlTextureGroupTagHandler_child cs (result, group, valid))
    = (result', group ++ pushed, valid') ∧
    length pushed = length cs ∧
    ∀ k r, pushed !! k = Some r →
           texture_paths r =
             texture_paths result ++ concat (own_paths <$> take (S k) cs).
Proof.
  revert result group valid.
  induction cs as [|child cs IH]; intros result group valid.
  { exists result, [], valid. rewrite app_nil_r. done. }
  cbn [for_each]. rewrite value_bind.
  destruct (GlTextureGroupTagHandler_child_value result group valid child)
    as (result1 & valid1 & -> & Hpaths).
  destruct (IH result1 (group ++ [result1]) valid1)
    as (result2 & pushed & valid2 & -> & Hlen & Hpushed).
  exists result2, (result1 :: pushed), valid2. split_and!.
  - by rewrite <-app_assoc.
  - simpl. by rewrite Hlen.
  - intros [|k] r Hr; simplify_eq/=.
    + by rewrite Hpaths, app_nil_r.
    + rewrite (Hpushed k r Hr), Hpaths. by rewrite <-app_assoc.
Qed.

(** C9. For a labelled [gl-texture-group] with N child elements, the
    handler appends N entries to the group of that label, one per child
    element whatever its name, and the entry appended for the k-th child
    holds the texture paths of the children 1 to k together: the
    accumulator is never reset. *)
Theorem GlTextureGroupTagHandler_accumulates (config : Config)
    (root_element : Element) :
  let label := label_attribute (attributes root_element) in
  let cs := GetChildElements root_element in
  label ≠ "" →
  ∃ pushed valid,
    value (GlTextureGroupTagHandler config root_element) =
      (with_gl_texture_groups
         (<[label := default [] (gl_texture_groups config !! label)
                     ++ pushed]> (gl_texture_groups config)) config,
       valid) ∧
    length pushed = length cs ∧
    ∀ k r, pushed !! k = Some r →
           texture_paths r = concat (own_paths <$> take (S k) cs).
Proof.
  intros label cs Hlabel. unfold GlTextureGroupTagHandler.
  rewrite value_bind, value_GetLabel. fold label.
  destruct (String.eqb_spec label ""); [done|]. rewrite value_bind.
  destruct (child_loop_value cs (mkGlTexture "" [])
              (default [] (gl_texture_groups config !! label)) true)
    as (result & pushed & valid & Hloop & Hlen & Hpushed).
  fold cs. rewrite Hloop. by exists pushed, valid.
Qed.

(** Without a label the handler reports that, returns [false] and leaves
    the configuration as it is: the child loop is not entered. *)
Lemma GlTextureGroupTagHandler_unlabelled (config : Config)
    (root_element : Element) :
  label_attribute (attributes root_element) = "" →
  GlTextureGroupTagHandler config root_element =
    ((config, false),
     [mkDiag Error None
        ("No label found for element " +:+ element_name root_element)]).
Proof.
  intros Hlabel. unfold GlTextureGroupTagHandler, GetLabel.
  by rewrite Hlabel.
Qed.

(** ** The architecture group handler *)

Lemma AbiGroupTagHandler_child_value st child :
  value (AbiGroupTagHandler_child st child) = Thrown cxx.out_of_range ∧
    abi_child_known child = false ∨
  (∃ st', value (AbiGroupTagHandler_child st child) = Returned st') ∧
    abi_child_known child = true.
Proof.
  destruct st as [group valid].
  unfold AbiGroupTagHandler_child, abi_child_known.
  destruct (negb (String.eqb (element_name child) "abi")).
  { right. split; [by eexists|done]. }
  destruct (text_nodes (children child)) as [|t texts].
  { right. split; [by eexists|done]. }
  destruct (kStringToAbiMap !! TrimWhitespace t) as [abi|].
  - right. split; [by eexists|]. apply bool_decide_true. by eexists.
  - left. split; [done|]. apply bool_decide_false. by intros [??].
Qed.

Lemma abi_loop_throws cs st :
  forallb abi_child_known cs = false →
  value (for_each_x AbiGroupTagHandler_child cs st) =
    Thrown cxx.out_of_range.
Proof.
  revert st. induction cs as [|child cs IH]; intros st Hknown; [done|].
  cbn [forallb] in Hknown. cbn [for_each_x]. rewrite value_bind.
  destruct (AbiGroupTagHandler_child_value st child)
    as [[-> _]|[(st' & ->) Hchild]]; [done|].
  rewrite Hchild in Hknown. by apply IH.
Qed.

Lemma AbiGroupTagHandler_child_emitted st child :
  Forall (λ d, ∃ n, d = mkDiag Error None
                          ("Unexpected element in ABI group: " +:+ n))
    (emitted (AbiGroupTagHandler_child st child)).
Proof.
  destruct st as [group valid]. unfold AbiGroupTagHandler_child.
  destruct (negb (String.eqb (element_name child) "abi")).
  { repeat constructor. by eexists. }
  destruct (text_nodes (children child)) as [|t texts]; [constructor|].
  destruct (kStringToAbiMap !! TrimWhitespace t); constructor.
Qed.

(** The table has the eight architecture strings, each once. *)
Lemma kStringToAbiMap_keys :
  size kStringToAbiMap = 8%nat ∧
  Forall (λ s, is_Some (kStringToAbiMap !! s)) kAbiToStringMap.
Proof. split; [reflexivity|]. repeat constructor; by eexists. Qed.

(** C8. An [abi] entry whose text is not one of the eight architecture
    strings makes [kStringToAbiMap.at] throw: the handler is left by
    [std::out_of_range] and returns neither flag nor configuration, so the
    entries and groups after it are not handled; and what it has reported
    until then are the unexpected elements among the earlier children,
    nothing about the entry that failed. *)
Theorem AbiGroupTagHandler_unknown_abi_throws (config : Config)
    (root_element : Element) :
  label_attribute (attributes root_element) ≠ "" →
  forallb abi_child_known (GetChildElements root_element) = false →
  value (AbiGroupTagHandler config root_element) = Thrown cxx.out_of_range ∧
  Forall (λ d, ∃ n, d = mkDiag Error None
                          ("Unexpected element in ABI group: " +:+ n))
    (emitted (AbiGroupTagHandler config root_element)).
Proof.
  intros Hlabel Hknown. unfold AbiGroupTagHandler. split.
  - rewrite value_bind, value_GetLabel.
    destruct (String.eqb_spec (label_attribute (attributes root_element)) "");
      [done|].
    rewrite value_bind. by rewrite abi_loop_throws.
  - rewrite emitted_bind, value_GetLabel. unfold GetLabel at 1.
    destruct (String.eqb_spec (label_attribute (attributes root_element)) "");
      [done|].
    cbn [emitted ret snd app]. rewrite emitted_bind. apply Forall_app. split.
    + apply for_each_x_emitted. intros st child.
      apply AbiGroupTagHandler_child_emitted.
    + rewrite abi_loop_throws by done. constructor.
Qed.

(** ** Strings *)

Lemma str_app_cons c s t : String c s +:+ t = String c (s +:+ t).
Proof. done. Qed.

Lemma str_app_nil_r s : s +:+ "" = s.
Proof. induction s as [|c s IH]; [done|]. by rewrite str_app_cons, IH. Qed.

Lemma str_app_assoc s t u : (s +:+ t) +:+ u = s +:+ t +:+ u.
Proof.
  induction s as [|c s IH]; [done|]. by rewrite !str_app_cons, IH.
Qed.

Lemma prefix_nil s : String.prefix "" s = true.
Proof. by destruct s. Qed.

Lemma prefix_cons a p b s :
  String.prefix (String a p) (String b s) =
    bool_decide (a = b) && String.prefix p s.
Proof.
  cbn [String.prefix]. destruct (ascii_dec a b) as [->|Hne].
  - by rewrite bool_decide_true.
  - by rewrite bool_decide_false.
Qed.

Lemma prefix_spec p s : String.prefix p s = true ↔ ∃ t, s = p +:+ t.
Proof.
  revert s. induction p as [|a p IH]; intros s.
  { rewrite prefix_nil. split; [by exists s|done]. }
  destruct s as [|b s].
  { split; [done|]. by intros [t Ht]. }
  rewrite prefix_cons, andb_true_iff, bool_decide_eq_true, IH. split.
  - intros [-> [t ->]]. by exists t.
  - intros [t Ht]. rewrite str_app_cons in Ht. simplify_eq. eauto.
Qed.

Lemma prefix_app p t : String.prefix p (p +:+ t) = true.
Proof. apply prefix_spec. by exists t. Qed.

Lemma str_take_drop n s : cxx.take n s +:+ cxx.drop n s = s.
Proof.
  revert s. induction n as [|n IH]; intros [|c s]; try done.
  cbn [cxx.take cxx.drop]. by rewrite str_app_cons, IH.
Qed.

Lemma str_drop_app_length p t : cxx.drop (String.length p) (p +:+ t) = t.
Proof. induction p as [|c p IH]; [by destruct t|done]. Qed.

Lemma find_cons p c s :
  cxx.find p (String c s) =
    if String.prefix p (String c s) then Some 0%nat else S <$> cxx.find p s.
Proof. done. Qed.

Lemma occurrences_cons p c s :
  occurrences p (String c s) =
    ((if String.prefix p (String c s) then 1 else 0) + occurrences p s)%nat.
Proof. done. Qed.

Lemma str_take_0 s : cxx.take 0 s = "".
Proof. by destruct s. Qed.

Lemma prefix_drop p s :
  String.prefix p s = true → s = p +:+ cxx.drop (String.length p) s.
Proof. intros [t ->]%prefix_spec. by rewrite str_drop_app_length. Qed.

(** [find] returns an offset at which the pattern occurs. *)
Lemma find_Some_split p s o :
  cxx.find p s = Some o →
  s = cxx.take o s +:+ p +:+ cxx.drop (o + String.length p) s.
Proof.
  revert o. induction s as [|c s IH]; intros o.
  - cbn [cxx.find]. destruct (String.prefix p "") eqn:Hp; [|done].
    intros [= <-]. rewrite str_take_0. by apply prefix_drop.
  - rewrite find_cons. destruct (String.prefix p (String c s)) eqn:Hp.
    + intros [= <-]. rewrite str_take_0. by apply prefix_drop.
    + destruct (cxx.find p s) as [o'|]; [|done]. intros [= <-].
      cbn [cxx.take cxx.drop plus]. rewrite str_app_cons.
      by rewrite <-(IH o' eq_refl).
Qed.

Lemma find_None_occurrences p s :
  cxx.find p s = None ↔ occurrences p s = 0%nat.
Proof.
  induction s as [|c s IH].
  - cbn [cxx.find occurrences]. by destruct (String.prefix p "").
  - rewrite find_cons, occurrences_cons.
    destruct (String.prefix p (String c s)); [done|].
    destruct (cxx.find p s) as [o|]; simpl; [|exact IH].
    split; [done|]. intros H0. by apply IH in H0.
Qed.

Lemma find_Some_occurrences p s :
  is_Some (cxx.find p s) ↔ (0 < occurrences p s)%nat.
Proof.
  rewrite <-not_eq_None_Some, find_None_occurrences. lia.
Qed.

Lemma occurrences_app_le p a b :
  (occurrences p b ≤ occurrences p (a +:+ b))%nat.
Proof.
  induction a as [|c a IH]; [done|].
  rewrite str_app_cons, occurrences_cons. lia.
Qed.

Lemma marker_shape p :
  is_marker p = true → ∃ rest, p = String "$" rest ∧ no_dollar rest = true.
Proof.
  destruct p as [|c rest]; [done|]. cbn [is_marker].
  intros [Hc Hrest]%andb_true_iff. apply Ascii.eqb_eq in Hc as ->. eauto.
Qed.

Lemma marker_prefix_other rest c s :
  Ascii.eqb c "$" = false →
  String.prefix (String "$" rest) (String c s) = false.
Proof.
  intros Hc. rewrite prefix_cons, bool_decide_false; [done|].
  intros <-. by rewrite Ascii.eqb_refl in Hc.
Qed.

(** A marker does not start inside text without ['$']. *)
Lemma occurrences_skip rest r suf :
  no_dollar r = true →
  occurrences (String "$" rest) (r +:+ suf) =
    occurrences (String "$" rest) suf.
Proof.
  induction r as [|c r IH]; [done|]. cbn [no_dollar].
  intros [Hc Hr]%andb_true_iff. apply negb_true_iff in Hc.
  by rewrite str_app_cons, occurrences_cons, marker_prefix_other, IH.
Qed.

(** The occurrences of a marker are the first one and those after it. *)
Lemma occurrences_first p s o :
  is_marker p = true → cxx.find p s = Some o →
  occurrences p s =
    S (occurrences p (cxx.drop (o + String.length p) s)).
Proof.
  intros (rest & -> & Hrest)%marker_shape. revert o.
  induction s as [|c s IH]; intros o; [done|].
  rewrite find_cons, occurrences_cons.
  destruct (String.prefix _ (String c s)) eqn:Hp.
  - intros [= <-]. apply prefix_spec in Hp as [t Ht].
    rewrite str_app_cons in Ht. simplify_eq.
    cbn [plus String.length cxx.drop].
    by rewrite str_drop_app_length, occurrences_skip.
  - destruct (cxx.find _ s) as [o'|]; [|done]. intros [= <-].
    by rewrite (IH o' eq_refl).
Qed.

(** ** The name formatter *)

Lemma ReplacePlaceholder_value p v n :
  value (ReplacePlaceholder p v n) =
    match cxx.find p n, v with
    | None, None => (true, n)
    | None, Some _ | Some _, None => (false, n)
    | Some o, Some l =>
        let n' := cxx.replace o (String.length p) l n in
        (bool_decide (cxx.find p n' = None), n')
    end.
Proof.
  unfold ReplacePlaceholder.
  destruct (cxx.find p n) as [o|], v as [l|]; try reflexivity.
  cbv zeta. by destruct (cxx.find p (cxx.replace _ _ _ _)).
Qed.

(** [ReplacePlaceholder] reports exactly when it returns [false]. *)
Lemma ReplacePlaceholder_emitted p v n :
  emitted (ReplacePlaceholder p v n) =
    if fst (value (ReplacePlaceholder p v n)) then []
    else [mkDiag Error None
            (match cxx.find p n, v with
             | None, _ => "Missing placeholder for artifact: "
             | Some _, None => "Placeholder present but no value for artifact: "
             | Some _, Some _ => "Placeholder present multiple times: "
             end +:+ p)].
Proof.
  unfold ReplacePlaceholder.
  destruct (cxx.find p n) as [o|], v as [l|]; try reflexivity.
  by destruct (cxx.find p (cxx.replace _ _ _ _)).
Qed.

(** What [ReplacePlaceholder] does with a placeholder
    depends on how often it occurs in the name and on whether there is a
    value: no occurrence and no value leaves the name as it is; no
    occurrence with a value, an occurrence without a value and more than
    one occurrence fail; exactly one occurrence with a value is replaced by
    the value, and the call succeeds exactly when the name no longer
    contains the placeholder after that. *)
Lemma ReplacePlaceholder_contract (placeholder : string)
    (v : option string) (n : string) :
  is_marker placeholder = true →
  match occurrences placeholder n, v with
  | O, None => ReplacePlaceholder placeholder v n = ((true, n), [])
  | O, Some _ | S _, None | S (S _), Some _ =>
      fst (value (ReplacePlaceholder placeholder v n)) = false
  | S O, Some label =>
      ∃ pre suf,
        n = pre +:+ placeholder +:+ suf ∧
        occurrences placeholder suf = 0%nat ∧
        value (ReplacePlaceholder placeholder v n) =
          (bool_decide
             (occurrences placeholder (pre +:+ label +:+ suf) = 0%nat),
           pre +:+ label +:+ suf)
  end.
Proof.
  intros Hmarker.
  destruct (cxx.find placeholder n) as [o|] eqn:Hfind.
  - rewrite (occurrences_first _ _ _ Hmarker Hfind).
    pose proof (find_Some_split _ _ _ Hfind) as Hsplit.
    rewrite ReplacePlaceholder_value, Hfind.
    destruct v as [label|].
    2: { by destruct (occurrences _ _). }
    cbv zeta. unfold cxx.replace.
    set (pre := cxx.take o n) in *.
    set (suf := cxx.drop (o + String.length placeholder) n) in *.
    destruct (occurrences placeholder suf) as [|m] eqn:Hsuf.
    + exists pre, suf. split_and!; [done..|]. f_equal.
      apply bool_decide_ext, find_None_occurrences.
    + cbn [fst]. apply bool_decide_false.
      rewrite find_None_occurrences.
      pose proof (occurrences_app_le placeholder pre (label +:+ suf)).
      pose proof (occurrences_app_le placeholder label suf). lia.
  - pose proof Hfind as Hnone. apply find_None_occurrences in Hnone.
    rewrite Hnone. unfold ReplacePlaceholder. rewrite Hfind.
    by destruct v.
Qed.

Lemma bind_ext {A B} (m : W A) (f g : A → W B) :
  (∀ a, f a = g a) → bind m f = bind m g.
Proof. intros Hfg. unfold bind. destruct m as [a l]. by rewrite Hfg. Qed.

(** The six blocks of [ToArtifactName] are [ReplacePlaceholder] over
    [axes]. *)
Lemma ToArtifactName_axes this format apk_name :
  ToArtifactName this format apk_name =
    do base <- ToBaseName format apk_name;
    match base with
    | Thrown e => ret (Thrown e)
    | Returned None => ret (Returned None)
    | Returned (Some result) =>
        do r <- ReplacePlaceholders (axes this) result; ret (Returned r)
    end.
Proof.
  unfold ToArtifactName. apply bind_ext. intros [[result|]|e]; [|done..].
  unfold axes. cbn [ReplacePlaceholders]. unfold bind, ret.
  repeat match goal with
         | |- context [ReplacePlaceholder ?p ?v ?n] =>
             destruct (ReplacePlaceholder p v n) as [[[] ?] ?]; cbn [negb]
         end;
    by rewrite ?app_nil_r, <-?app_assoc.
Qed.

Lemma ReplacePlaceholders_cons p v rest n :
  value (ReplacePlaceholders ((p, v) :: rest) n) =
    if fst (value (ReplacePlaceholder p v n))
    then value (ReplacePlaceholders rest
                  (snd (value (ReplacePlaceholder p v n))))
    else None.
Proof.
  cbn [ReplacePlaceholders]. rewrite value_bind.
  destruct (value (ReplacePlaceholder p v n)) as [[] n']; done.
Qed.

(** The name [ToArtifactName] returns: that of [ToBaseName] with the axis
    placeholders handled in turn. *)
Lemma ToArtifactName_value this format apk_name :
  returned (value (ToArtifactName this format apk_name)) =
    base ← returned (value (ToBaseName format apk_name));
    value (ReplacePlaceholders (axes this) base).
Proof.
  rewrite ToArtifactName_axes, value_bind.
  destruct (value (ToBaseName format apk_name)) as [[base|]|e]; [|done..].
  by rewrite value_bind.
Qed.

(** ** Well-formed templates *)

Lemma elem_of_placeholders P :
  P ∈ placeholders →
  P = "${basename}" ∨ P = "${ext}" ∨ P = "${abi}" ∨ P = "${density}" ∨
  P = "${locale}" ∨ P = "${sdk}" ∨ P = "${feature}" ∨ P = "${gl}".
Proof.
  unfold placeholders. rewrite !elem_of_cons, elem_of_nil.
  intros [?|[?|[?|[?|[?|[?|[?|[?|[]]]]]]]]]; auto 10.
Qed.

Lemma placeholders_marker P : P ∈ placeholders → is_marker P = true.
Proof.
  intros HP. apply elem_of_placeholders in HP.
  destruct HP as [->|[->|[->|[->|[->|[->|[->| ->]]]]]]]; reflexivity.
Qed.

(** No placeholder is the beginning of another one. *)
Lemma placeholder_prefix_free P R t :
  P ∈ placeholders → R ∈ placeholders →
  String.prefix P (R +:+ t) = String.eqb P R.
Proof.
  intros HP HR. apply elem_of_placeholders in HP, HR.
  destruct HP as [->|[->|[->|[->|[->|[->|[->| ->]]]]]]];
    destruct HR as [->|[->|[->|[->|[->|[->|[->| ->]]]]]]];
    cbv [String.append]; by destruct t.
Qed.

(** Text without ['$'] that begins [a] followed by a ['$'] begins [a]. *)
Lemma prefix_before_dollar r a b :
  no_dollar r = true →
  String.prefix r (a +:+ String "$" b) = true → String.prefix r a = true.
Proof.
  revert r. induction a as [|x a IH]; intros [|c r]; try done.
  - cbn [no_dollar]. intros [Hc _]%andb_true_iff.
    change ("" +:+ String "$" b) with (String "$" b).
    rewrite prefix_cons, andb_true_iff, bool_decide_eq_true.
    intros [-> _]. done.
  - cbn [no_dollar]. intros [_ Hr]%andb_true_iff.
    rewrite str_app_cons, !prefix_cons, !andb_true_iff.
    intros [Hcx Hra]. split; [done|]. by apply IH.
Qed.

(** A placeholder that starts before a ['$'] ends before it. *)
Lemma placeholder_within R c pre x :
  R ∈ placeholders →
  String.prefix R (String c (pre +:+ String "$" x)) = true →
  ∃ t, String c pre = R +:+ t.
Proof.
  intros (r & -> & Hr)%placeholders_marker%marker_shape.
  rewrite prefix_cons, andb_true_iff, bool_decide_eq_true.
  intros [<- Hprefix]. apply prefix_before_dollar in Hprefix; [|done].
  apply prefix_spec in Hprefix as [t ->]. by exists t.
Qed.

Lemma starts_placeholder_spec s :
  starts_placeholder s = true ↔
  ∃ R, R ∈ placeholders ∧ String.prefix R s = true.
Proof.
  unfold starts_placeholder. rewrite existsb_exists.
  by setoid_rewrite list_elem_of_In.
Qed.

Lemma well_formed_cons c s :
  well_formed (String c s) =
    (if Ascii.eqb c "$" then starts_placeholder (String c s) else true) &&
    well_formed s.
Proof. done. Qed.

Lemma well_formed_app_r a b :
  well_formed (a +:+ b) = true → well_formed b = true.
Proof.
  induction a as [|c a IH]; [done|].
  rewrite str_app_cons, well_formed_cons. by intros [_ ?]%andb_true_iff; auto.
Qed.

Lemma well_formed_no_dollar_app v s :
  no_dollar v = true → well_formed s = true → well_formed (v +:+ s) = true.
Proof.
  intros Hv Hs. induction v as [|c v IH]; [done|].
  cbn [no_dollar] in Hv. apply andb_true_iff in Hv as [Hc Hv].
  apply negb_true_iff in Hc.
  rewrite str_app_cons, well_formed_cons, Hc. by apply IH.
Qed.

(** The first character of a well-formed text decides alike, before and
    after a change that lies behind the placeholder it starts. *)
Lemma placeholder_head_agree P c s1 s2 :
  P ∈ placeholders →
  (Ascii.eqb c "$" = true →
   ∃ R t1 t2, R ∈ placeholders ∧
              String c s1 = R +:+ t1 ∧ String c s2 = R +:+ t2) →
  String.prefix P (String c s1) = String.prefix P (String c s2).
Proof.
  intros HP Hhead. destruct (Ascii.eqb c "$") eqn:Hc.
  - destruct (Hhead eq_refl) as (R & t1 & t2 & HR & -> & ->).
    by rewrite !placeholder_prefix_free.
  - apply placeholders_marker, marker_shape in HP as (r & -> & _).
    by rewrite !marker_prefix_other.
Qed.

Lemma head_placeholder c pre Q suf v :
  Q ∈ placeholders →
  well_formed (String c (pre +:+ Q +:+ suf)) = true →
  Ascii.eqb c "$" = true →
  ∃ R t1 t2, R ∈ placeholders ∧
             String c (pre +:+ Q +:+ suf) = R +:+ t1 ∧
             String c (pre +:+ v +:+ suf) = R +:+ t2.
Proof.
  intros HQ Hwf Hc. rewrite well_formed_cons, Hc in Hwf.
  apply andb_true_iff in Hwf as [Hhead _].
  apply starts_placeholder_spec in Hhead as (R & HR & Hprefix).
  pose proof HQ as (q & -> & _)%placeholders_marker%marker_shape.
  rewrite str_app_cons in Hprefix.
  destruct (placeholder_within R c pre (q +:+ suf) HR Hprefix) as [t Ht].
  exists R, (t +:+ String "$" q +:+ suf), (t +:+ v +:+ suf).
  by rewrite <-!str_app_assoc, <-Ht.
Qed.

(** Replacing a placeholder of a well-formed text by text without ['$']
    leaves the text well formed, removes that one occurrence, and neither
    removes nor creates an occurrence of any placeholder otherwise. *)
Lemma replace_preserves pre Q suf v :
  Q ∈ placeholders → no_dollar v = true →
  well_formed (pre +:+ Q +:+ suf) = true →
  well_formed (pre +:+ v +:+ suf) = true ∧
  ∀ P, P ∈ placeholders →
       occurrences P (pre +:+ Q +:+ suf) =
         ((if String.eqb P Q then 1 else 0) +
          occurrences P (pre +:+ v +:+ suf))%nat.
Proof.
  intros HQ Hv. induction pre as [|c pre IH]; intros Hwf.
  - change ("" +:+ Q +:+ suf) with (Q +:+ suf) in *.
    change ("" +:+ v +:+ suf) with (v +:+ suf).
    apply well_formed_app_r in Hwf. split.
    { by apply well_formed_no_dollar_app. }
    intros P HP.
    pose proof HP as (r & -> & _)%placeholders_marker%marker_shape.
    pose proof HQ as (q & HeqQ & Hq)%placeholders_marker%marker_shape.
    rewrite (occurrences_skip _ v) by done.
    rewrite HeqQ at 1. rewrite str_app_cons, occurrences_cons.
    rewrite (occurrences_skip _ q) by done.
    rewrite <-str_app_cons, <-HeqQ. by rewrite placeholder_prefix_free.
  - pose proof Hwf as Htail. rewrite str_app_cons, well_formed_cons in Htail.
    apply andb_true_iff in Htail as [Hhead Htail].
    destruct (IH Htail) as [Hwf' Hcount]. split.
    + rewrite str_app_cons, well_formed_cons, Hwf', andb_true_r.
      destruct (Ascii.eqb c "$") eqn:Hc; [|done].
      destruct (head_placeholder c pre Q suf v HQ Hwf Hc)
        as (R & t1 & t2 & HR & _ & Ht2).
      apply starts_placeholder_spec. exists R. split; [done|].
      rewrite Ht2. apply prefix_app.
    + intros P HP. rewrite !str_app_cons, !occurrences_cons, (Hcount P HP).
      rewrite (placeholder_head_agree P c (pre +:+ Q +:+ suf)
                 (pre +:+ v +:+ suf) HP); [lia|].
      by apply head_placeholder.
Qed.

(** Text without ['$'] appended to a well-formed text creates no
    occurrence of a placeholder. *)
Lemma append_preserves a b :
  no_dollar b = true → well_formed a = true →
  well_formed (a +:+ b) = true ∧
  ∀ P, P ∈ placeholders → occurrences P (a +:+ b) = occurrences P a.
Proof.
  intros Hb. induction a as [|c a IH]; intros Hwf.
  - change ("" +:+ b) with b. split.
    { rewrite <-(str_app_nil_r b). by apply well_formed_no_dollar_app. }
    intros P (r & -> & _)%placeholders_marker%marker_shape.
    rewrite <-(str_app_nil_r b). by rewrite occurrences_skip.
  - pose proof Hwf as Htail. rewrite well_formed_cons in Htail.
    apply andb_true_iff in Htail as [Hhead Htail].
    destruct (IH Htail) as [Hwf' Hcount].
    assert (Ascii.eqb c "$" = true →
            ∃ R t1 t2, R ∈ placeholders ∧ String c (a +:+ b) = R +:+ t1 ∧
                       String c a = R +:+ t2) as Hsame.
    { intros Hc. rewrite Hc in Hhead.
      apply starts_placeholder_spec in Hhead as (R & HR & Hprefix).
      apply prefix_spec in Hprefix as [t Ht].
      exists R, (t +:+ b), t. split_and!; [done| |done].
      by rewrite <-str_app_assoc, <-Ht. }
    split.
    + rewrite str_app_cons, well_formed_cons, Hwf', andb_true_r.
      destruct (Ascii.eqb c "$") eqn:Hc; [|done].
      destruct (Hsame eq_refl) as (R & t1 & t2 & HR & Ht1 & _).
      apply starts_placeholder_spec. exists R. split; [done|].
      rewrite Ht1. apply prefix_app.
    + intros P HP. rewrite str_app_cons, !occurrences_cons, (Hcount P HP).
      by rewrite (placeholder_head_agree P c (a +:+ b) a HP).
Qed.

Lemma axes_placeholders this pv :
  pv ∈ axes this →
  pv.1 ∈ placeholders ∧ pv.1 ≠ "${basename}" ∧ pv.1 ≠ "${ext}".
Proof.
  unfold axes. rewrite !elem_of_cons, elem_of_nil.
  intros [->|[->|[->|[->|[->|[->|[]]]]]]]; cbn [fst];
    (split; [unfold placeholders; rewrite !elem_of_cons; auto 10|done]).
Qed.

Lemma axes_NoDup this : NoDup (axes this).*1.
Proof.
  change ((axes this).*1) with
    ["${abi}"; "${density}"; "${locale}"; "${sdk}"; "${feature}"; "${gl}"].
  apply (bool_decide_unpack _). by vm_compute.
Qed.

Lemma StringPiece_substr_Some start s piece :
  StringPiece_substr start s = Some piece → piece = cxx.drop start s.
Proof.
  unfold StringPiece_substr. destruct (_ <? _)%nat; [done|]. by intros [= <-].
Qed.

(** [substr(1)] gives the null piece exactly on the empty piece. *)
Lemma StringPiece_substr_1 s :
  StringPiece_substr 1 s =
    if String.eqb s "" then None else Some (cxx.drop 1 s).
Proof. by destruct s. Qed.

Lemma ToBaseName_stages format apk_name :
  returned (value (ToBaseName format apk_name)) =
    r1 ← basename_stage format apk_name; ext_stage r1 apk_name.
Proof.
  unfold ToBaseName, basename_stage, ext_stage, base_name_of. cbv zeta.
  rewrite value_bind. case_bool_decide.
  - rewrite value_bind.
    destruct (value (ReplacePlaceholder "${basename}" _ format)) as [[] r1];
      [|done].
    cbn [fst snd value ret mbind option_bind]. case_bool_decide.
    + destruct (StringPiece_substr 1 _) as [piece|]; [|done].
      cbn [mbind option_bind]. rewrite value_bind.
      by destruct (value (ReplacePlaceholder "${ext}" _ r1)) as [[] r2].
    + by destruct (util.EndsWith r1 _).
  - cbn [fst snd value ret mbind option_bind]. case_bool_decide.
    + destruct (StringPiece_substr 1 _) as [piece|]; [|done].
      cbn [mbind option_bind]. rewrite value_bind.
      by destruct (value (ReplacePlaceholder "${ext}" _ format)) as [[] r2].
    + by destruct (util.EndsWith format _).
Qed.

(** On a well-formed name and with a value free of ['$'],
    [ReplacePlaceholder] succeeds exactly when the placeholder occurs as
    often as expected, and then it leaves the name well formed and the other
    placeholders as they were. *)
Lemma ReplacePlaceholder_well_formed p v n :
  p ∈ placeholders → well_formed n = true →
  (∀ label, v = Some label → no_dollar label = true) →
  fst (value (ReplacePlaceholder p v n)) =
    bool_decide (occurrences p n = expected_occurrences v) ∧
  (occurrences p n = expected_occurrences v →
   well_formed (snd (value (ReplacePlaceholder p v n))) = true ∧
   ∀ P, P ∈ placeholders → P ≠ p →
        occurrences P (snd (value (ReplacePlaceholder p v n))) =
          occurrences P n).
Proof.
  intros Hp Hwf Hv. rewrite ReplacePlaceholder_value.
  destruct (cxx.find p n) as [o|] eqn:Hfind.
  - assert (0 < occurrences p n)%nat as Hpos.
    { apply find_Some_occurrences. by eexists. }
    destruct v as [label|]; cbn [expected_occurrences fst snd].
    2: { rewrite bool_decide_false by lia. split; [done|lia]. }
    cbv zeta. unfold cxx.replace. cbn [fst snd].
    pose proof (find_Some_split _ _ _ Hfind) as Hsplit.
    set (pre := cxx.take o n) in *.
    set (suf := cxx.drop (o + String.length p) n) in *.
    destruct (replace_preserves pre p suf label Hp (Hv _ eq_refl))
      as [Hwf' Hcount]; [by rewrite <-Hsplit|].
    pose proof (Hcount p Hp) as Hself.
    rewrite String.eqb_refl, <-Hsplit in Hself. split.
    + apply bool_decide_ext. rewrite find_None_occurrences. lia.
    + intros _. split; [done|]. intros P HP Hne.
      specialize (Hcount P HP). rewrite <-Hsplit in Hcount.
      apply String.eqb_neq in Hne. rewrite Hne in Hcount. lia.
  - apply find_None_occurrences in Hfind.
    destruct v as [label|]; cbn [expected_occurrences fst snd].
    + rewrite bool_decide_false by lia. split; [done|lia].
    + rewrite bool_decide_true by done. done.
Qed.

Lemma no_dollar_take i s : no_dollar s = true → no_dollar (cxx.take i s) = true.
Proof.
  revert s. induction i as [|i IH]; intros [|c s]; try done.
  cbn [no_dollar cxx.take]. intros [-> Hs]%andb_true_iff. by apply IH.
Qed.

Lemma no_dollar_drop i s : no_dollar s = true → no_dollar (cxx.drop i s) = true.
Proof.
  revert s. induction i as [|i IH]; intros [|c s]; try done.
  cbn [no_dollar cxx.drop]. intros [_ Hs]%andb_true_iff. by apply IH.
Qed.

Lemma no_dollar_base_name_of apk_name label :
  no_dollar apk_name = true →
  base_name_of apk_name = Some label → no_dollar label = true.
Proof.
  intros Hname. unfold base_name_of. cbv zeta.
  destruct (String.eqb _ _); [done|]. intros [= <-].
  destruct (cxx.rfind _ _); [by apply no_dollar_take|done].
Qed.

(** [ToBaseName] on a well-formed template, for a file name without ['$']:
    the result is well formed and has the axis placeholders of the
    template. *)
Lemma ToBaseName_well_formed format apk_name r :
  well_formed format = true →
  no_dollar apk_name = true →
  no_dollar (GetExtension apk_name) = true →
  returned (value (ToBaseName format apk_name)) = Some r →
  well_formed r = true ∧
  ∀ P, P ∈ placeholders → P ≠ "${basename}" → P ≠ "${ext}" →
       occurrences P r = occurrences P format.
Proof.
  intros Hwf Hname Hext Hr. rewrite ToBaseName_stages in Hr.
  destruct (basename_stage format apk_name) as [r1|] eqn:Hr1; [|done].
  cbn [mbind option_bind] in Hr.
  assert (well_formed r1 = true ∧
          ∀ P, P ∈ placeholders → P ≠ "${basename}" →
               occurrences P r1 = occurrences P format) as [Hwf1 Hcount1].
  { unfold basename_stage in Hr1. case_bool_decide; [|by simplify_eq].
    cbv zeta in Hr1.
    destruct (ReplacePlaceholder_well_formed "${basename}"
                (base_name_of apk_name) format) as [Hok Hstep];
      [by repeat constructor|done| |].
    { intros label. by apply no_dollar_base_name_of. }
    rewrite Hok in Hr1. case_bool_decide as Hocc; [|done].
    injection Hr1 as <-. by apply Hstep. }
  unfold ext_stage in Hr. cbv zeta in Hr. case_bool_decide.
  - destruct (StringPiece_substr 1 _) as [piece|] eqn:Hpiece; [|done].
    apply StringPiece_substr_Some in Hpiece as ->.
    cbn [mbind option_bind] in Hr.
    destruct (ReplacePlaceholder_well_formed "${ext}"
                (Some (cxx.drop 1 (GetExtension apk_name))) r1)
      as [Hok Hstep]; [by repeat constructor|done| |].
    { intros label [= <-]. exact (no_dollar_drop 1 _ Hext). }
    rewrite Hok in Hr. case_bool_decide as Hocc; [|done].
    injection Hr as <-. destruct (Hstep Hocc) as [Hwf2 Hcount2].
    split; [done|]. intros P HP Hne1 Hne2.
    rewrite Hcount2 by done. by apply Hcount1.
  - destruct (util.EndsWith r1 _); injection Hr as <-.
    { split; [done|]. intros P HP Hne1 _. by apply Hcount1. }
    destruct (append_preserves r1 (GetExtension apk_name) Hext Hwf1)
      as [Hwf2 Hcount2].
    split; [done|]. intros P HP Hne1 Hne2.
    rewrite Hcount2 by done. by apply Hcount1.
Qed.

(** A run of [ReplacePlaceholder] over different placeholders, from a
    well-formed name and with labels free of ['$'], succeeds exactly when
    each placeholder occurs in that name as often as expected. *)
Lemma ReplacePlaceholders_well_formed l n :
  NoDup l.*1 →
  Forall (λ pv, pv.1 ∈ placeholders ∧
                ∀ label, pv.2 = Some label → no_dollar label = true) l →
  well_formed n = true →
  is_Some (value (ReplacePlaceholders l n)) ↔
  Forall (λ pv, occurrences pv.1 n = expected_occurrences pv.2) l.
Proof.
  revert n. induction l as [|[p v] l IH]; intros n Hnd Hl Hwf.
  { split; [constructor|by eexists]. }
  apply NoDup_cons in Hnd as [Hp Hnd].
  apply Forall_cons in Hl as [[Hin Hv] Hl]. cbn [fst snd] in *.
  rewrite ReplacePlaceholders_cons, Forall_cons. cbn [fst snd].
  destruct (ReplacePlaceholder_well_formed p v n Hin Hwf Hv) as [-> Hstep].
  case_bool_decide as Hocc.
  - destruct (Hstep Hocc) as [Hwf' Hcount].
    rewrite (IH _ Hnd Hl Hwf'). split.
    + intros Hall. split; [done|].
      rewrite Forall_forall in Hall, Hl |- *. intros pv Hpv.
      rewrite <-(Hall pv Hpv). symmetry. apply Hcount; [by apply Hl|].
      intros <-. apply Hp, list_elem_of_fmap. by exists pv.
    + intros [_ Hall].
      rewrite Forall_forall in Hall, Hl |- *. intros pv Hpv.
      rewrite <-(Hall pv Hpv). apply Hcount; [by apply Hl|].
      intros <-. apply Hp, list_elem_of_fmap. by exists pv.
  - split; [by intros [??]|by intros [??]].
Qed.

Lemma ReplacePlaceholders_preserves l n n' :
  NoDup l.*1 →
  Forall (λ pv, pv.1 ∈ placeholders ∧
                ∀ label, pv.2 = Some label → no_dollar label = true) l →
  well_formed n = true →
  value (ReplacePlaceholders l n) = Some n' →
  well_formed n' = true ∧
  ∀ P, P ∈ placeholders → P ∉ l.*1 → occurrences P n' = occurrences P n.
Proof.
  revert n. induction l as [|[p v] l IH]; intros n Hnd Hl Hwf.
  { by intros [= <-]. }
  apply NoDup_cons in Hnd as [Hp Hnd].
  apply Forall_cons in Hl as [[Hin Hv] Hl]. cbn [fst snd] in *.
  rewrite ReplacePlaceholders_cons.
  destruct (ReplacePlaceholder_well_formed p v n Hin Hwf Hv) as [-> Hstep].
  case_bool_decide as Hocc; [|done].
  destruct (Hstep Hocc) as [Hwf1 Hcount1]. intros Hrest.
  destruct (IH _ Hnd Hl Hwf1 Hrest) as [Hwf' Hcount]. split; [done|].
  intros P HP [Hne Hnotin]%not_elem_of_cons.
  rewrite Hcount by done. by apply Hcount1.
Qed.

(** For a well-formed global format, a file name without ['$'] and labels
    without ['$'], the placeholders are those of the format itself:
    [ToArtifactName] succeeds exactly when base name and extension can be
    handled and every axis placeholder occurs in the format once if the
    artifact refers to that axis and not at all if it does not. *)
Lemma ToArtifactName_format_contract this format apk_name :
  well_formed format = true →
  no_dollar apk_name = true →
  no_dollar (GetExtension apk_name) = true →
  plain_labels this →
  is_Some (returned (value (ToArtifactName this format apk_name))) ↔
  is_Some (returned (value (ToBaseName format apk_name))) ∧
  Forall (λ pv, occurrences pv.1 format = expected_occurrences pv.2)
    (axes this).
Proof.
  intros Hwf Hname Hext Hlabels.
  rewrite ToArtifactName_value.
  destruct (returned (value (ToBaseName format apk_name))) as [base|] eqn:Hbase;
    cbn [mbind option_bind].
  2: { split; [by intros [??]|by intros [[??] _]]. }
  destruct (ToBaseName_well_formed _ _ _ Hwf Hname Hext Hbase)
    as [Hwf' Hcount].
  rewrite ReplacePlaceholders_well_formed; [|apply axes_NoDup| |done].
  - split.
    + intros Hall. split; [by eexists|].
      rewrite Forall_forall in Hall |- *. intros pv Hpv.
      destruct (axes_placeholders _ _ Hpv) as (? & ? & ?).
      rewrite <-(Hall pv Hpv). symmetry. by apply Hcount.
    + intros [_ Hall]. rewrite Forall_forall in Hall |- *. intros pv Hpv.
      destruct (axes_placeholders _ _ Hpv) as (? & ? & ?).
      rewrite <-(Hall pv Hpv). by apply Hcount.
  - unfold plain_labels in Hlabels.
    rewrite Forall_forall in Hlabels |- *. intros pv Hpv. split.
    + by apply (axes_placeholders this).
    + by apply Hlabels.
Qed.

Lemma resolved_name_None_fails apk_name config a :
  resolved_name apk_name config a = None → resolve apk_name config a = None.
Proof. intros Hname. by rewrite ToOutputArtifact_value, Hname. Qed.

(** An artifact with a name of its own has base name and extension
    handled in that name and nothing else: its references are not compared
    with the name. *)
Lemma resolved_name_own apk_name config a own :
  name a = Some own →
  resolved_name apk_name config a = returned (value (ToBaseName own apk_name)).
Proof. intros Hown. unfold resolved_name, Name. by rewrite Hown. Qed.

(** For a well-formed global format and plain labels and file name, the
    texture placeholder has to be in the format itself. *)
Lemma format_without_texture_placeholder_fails (config : Config)
    (apk_path : string) (a : ConfiguredArtifact) (format g : string) :
  a ∈ artifacts config →
  name a = None →
  artifact_format config = Some format →
  gl_texture_group a = Some g →
  well_formed format = true →
  no_dollar (GetFilename apk_path) = true →
  no_dollar (GetExtension (GetFilename apk_path)) = true →
  plain_labels a →
  occurrences "${gl}" format = 0%nat →
  resolve (GetFilename apk_path) config a = None ∧
  returned (value (Parse (Some config) apk_path)) = None.
Proof.
  intros Hin Hname Hformat Hgl Hwf Hfile Hext Hlabels Habsent.
  assert (resolve (GetFilename apk_path) config a = None) as Hfail.
  { apply resolved_name_None_fails. unfold resolved_name.
    rewrite Hname, Hformat.
    set (apk_name := GetFilename apk_path) in *.
    destruct (returned (value (ToArtifactName a format apk_name)))
      as [r|] eqn:Hr; [|done].
    assert (is_Some (returned (value (ToArtifactName a format apk_name))))
      as Hsome by (by rewrite Hr).
    apply ToArtifactName_format_contract in Hsome as [_ Hall]; [|done..].
    rewrite Forall_forall in Hall.
    assert (("${gl}", gl_texture_group a) ∈ axes a) as Hmem.
    { unfold axes. do 5 apply list_elem_of_further. apply list_elem_of_here. }
    specialize (Hall _ Hmem). cbn [fst snd] in Hall.
    rewrite Hgl, Habsent in Hall. discriminate Hall. }
  split; [done|]. by apply (Parse_fails_with config apk_path a).
Qed.

(** ** Copied references *)

Lemma ReplacePlaceholders_quiet l n r :
  value (ReplacePlaceholders l n) = Some r →
  emitted (ReplacePlaceholders l n) = [].
Proof.
  revert n. induction l as [|[p v] l IH]; intros n; [done|].
  rewrite ReplacePlaceholders_cons. cbn [ReplacePlaceholders].
  rewrite emitted_bind, ReplacePlaceholder_emitted.
  destruct (value (ReplacePlaceholder p v n)) as [[] n']; [|done].
  cbn [fst snd negb app]. apply IH.
Qed.

(** [ToBaseName] reports only when it returns nothing. *)
Lemma ToBaseName_emitted result apk_name :
  value (ToBaseName result apk_name) ≠ Returned None →
  emitted (ToBaseName result apk_name) = [].
Proof.
  unfold ToBaseName. cbv zeta.
  rewrite value_bind, emitted_bind.
  destruct (bool_decide (cxx.find "${basename}" result ≠ cxx.npos)).
  - rewrite value_bind, emitted_bind, ReplacePlaceholder_emitted.
    destruct (value (ReplacePlaceholder "${basename}" _ result))
      as [[] r1]; [|done].
    cbn [fst snd app value emitted ret].
    destruct (bool_decide (cxx.find "${ext}" r1 ≠ cxx.npos)).
    + destruct (StringPiece_substr 1 _) as [piece|]; [|done].
      rewrite value_bind, emitted_bind, ReplacePlaceholder_emitted.
      destruct (value (ReplacePlaceholder "${ext}" _ r1)) as [[] r2]; done.
    + by destruct (util.EndsWith r1 _).
  - cbn [fst snd app value emitted ret].
    destruct (bool_decide (cxx.find "${ext}" result ≠ cxx.npos)).
    + destruct (StringPiece_substr 1 _) as [piece|]; [|done].
      rewrite value_bind, emitted_bind, ReplacePlaceholder_emitted.
      destruct (value (ReplacePlaceholder "${ext}" _ result)) as [[] r2];
        done.
    + by destruct (util.EndsWith result _).
Qed.

Lemma ToBaseName_quiet result apk_name r :
  returned (value (ToBaseName result apk_name)) = Some r →
  emitted (ToBaseName result apk_name) = [].
Proof.
  intros Hr. apply ToBaseName_emitted. intros Hnone. by rewrite Hnone in Hr.
Qed.

Lemma resolved_name_quiet apk_name config a n :
  resolved_name apk_name config a = Some n →
  match name a, artifact_format config with
  | Some _, _ => emitted (Name a apk_name) = []
  | None, Some format => emitted (ToArtifactName a format apk_name) = []
  | None, None => False
  end.
Proof.
  unfold resolved_name, Name.
  destruct (name a) as [own|]; [apply ToBaseName_quiet|].
  destruct (artifact_format config) as [format|]; [|done].
  rewrite ToArtifactName_axes, value_bind, emitted_bind.
  destruct (value (ToBaseName format apk_name)) as [[base|]|e] eqn:Hbase;
    [|done..].
  rewrite (ToBaseName_quiet _ _ base) by (by rewrite Hbase).
  rewrite value_bind, emitted_bind.
  cbn [app returned value emitted ret fst snd].
  rewrite app_nil_r. apply ReplacePlaceholders_quiet.
Qed.

Lemma referenced_copies {T} (label : option string)
    (groups : gmap string (list T)) (resolved : list T) :
  referenced label groups = Some resolved ↔
  copies_axis label groups resolved.
Proof.
  unfold referenced, copies_axis. destruct label as [l|]; [done|].
  split; [by intros [= <-]|by intros ->].
Qed.

(** A conversion that succeeds reports nothing. *)
Lemma ToOutputArtifact_quiet apk_name config a out :
  resolve apk_name config a = Some out →
  emitted (ToOutputArtifact a apk_name config) = [].
Proof.
  intros Hres. pose proof Hres as Hvalue.
  rewrite ToOutputArtifact_value in Hvalue.
  destruct (resolved_name apk_name config a) as [n|] eqn:Hn; [|done].
  pose proof (resolved_name_quiet _ _ _ _ Hn) as Hquiet.
  cbn [mbind option_bind] in Hvalue.
  destruct (referenced (abi_group a) _) as [x1|] eqn:H1; [|done].
  destruct (referenced (locale_group a) _) as [x2|] eqn:H2; [|done].
  destruct (referenced (screen_density_group a) _) as [x3|] eqn:H3; [|done].
  destruct (referenced (device_feature_group a) _) as [x4|] eqn:H4; [|done].
  destruct (referenced (gl_texture_group a) _) as [x5|] eqn:H5; [|done].
  destruct (referenced_sdk (android_sdk_group a) _) as [x6|] eqn:H6; [|done].
  unfold ToOutputArtifact, resolved_name in *.
  destruct (name a) as [own|] eqn:Hname;
    destruct (artifact_format config) as [format|] eqn:Hformat; [| | |done].
  all: repeat first [rewrite bool_decide_true by done
                    |rewrite bool_decide_false by done
                    |rewrite bool_decide_false by (by intros [])].
  all: cbn [andb].
  all: rewrite emitted_bind.
  all: try change (Maybe_value (Some format)) with format.
  all: apply returned_Some in Hn.
  all: rewrite Hquiet, Hn; cbn [app].
  all: rewrite !CopyXmlReferences_spec, H1, H2, H3, H4, H5.
  all: unfold referenced_sdk in H6.
  all: destruct (android_sdk_group a) as [l|]; [|reflexivity].
  all: by destruct (android_sdk_groups config !! l).
Qed.

(** C7. In a converted artifact every list axis holds the content of the
    group that the artifact refers to on that axis, element for element and
    in the order of the group, and is empty when the artifact has no
    reference on that axis; the SDK reference gives a single optional
    entry; and the conversion has reported no error. *)
Theorem ToOutputArtifact_copies_references (apk_name : string)
    (config : Config) (a : ConfiguredArtifact) (out : Output) :
  resolve apk_name config a = Some out →
  copies_axis (abi_group a) (abi_groups config) (abis out) ∧
  copies_axis (locale_group a) (locale_groups config) (locales out) ∧
  copies_axis (screen_density_group a) (screen_density_groups config)
    (screen_densities out) ∧
  copies_axis (device_feature_group a) (device_feature_groups config)
    (features out) ∧
  copies_axis (gl_texture_group a) (gl_texture_groups config)
    (textures out) ∧
  referenced_sdk (android_sdk_group a) (android_sdk_groups config) =
    Some (android_sdk out) ∧
  emitted (ToOutputArtifact a apk_name config) = [].
Proof.
  intros Hres. pose proof (ToOutputArtifact_quiet _ _ _ _ Hres) as Hquiet.
  rewrite ToOutputArtifact_value in Hres.
  destruct (resolved_name apk_name config a) as [n|]; [|done].
  cbn [mbind option_bind] in Hres.
  destruct (referenced (abi_group a) _) as [x1|] eqn:H1; [|done].
  destruct (referenced (locale_group a) _) as [x2|] eqn:H2; [|done].
  destruct (referenced (screen_density_group a) _) as [x3|] eqn:H3; [|done].
  destruct (referenced (device_feature_group a) _) as [x4|] eqn:H4; [|done].
  destruct (referenced (gl_texture_group a) _) as [x5|] eqn:H5; [|done].
  destruct (referenced_sdk (android_sdk_group a) _) as [x6|] eqn:H6; [|done].
  cbn [mbind option_bind] in Hres. injection Hres as <-.
  cbn [abis locales screen_densities features textures android_sdk].
  rewrite <-!referenced_copies. done.
Qed.

(** Conversely, an artifact whose name can be formed and whose references
    all exist is converted. *)
Lemma ToOutputArtifact_succeeds apk_name config a n :
  resolved_name apk_name config a = Some n →
  ¬ missing_label config a →
  ∃ out, resolve apk_name config a = Some out ∧ out_name out = n.
Proof.
  intros Hn Hlabels. rewrite ToOutputArtifact_value, Hn.
  cbn [mbind option_bind]. unfold missing_label in Hlabels.
  assert (∀ T (label : option string) (groups : gmap string (list T)),
            ¬ (∃ l, label = Some l ∧ groups !! l = None) →
            is_Some (referenced label groups)) as Href.
  { intros T [l|] groups Hno; [|by eexists]. cbn [referenced].
    destruct (groups !! l) eqn:Hl; [by eexists|]. destruct Hno. eauto. }
  destruct (Href _ (abi_group a) (abi_groups config)) as [x1 ->].
  { intros H. apply Hlabels. by left. }
  destruct (Href _ (locale_group a) (locale_groups config)) as [x2 ->].
  { intros H. apply Hlabels. by right; left. }
  destruct (Href _ (screen_density_group a) (screen_density_groups config))
    as [x3 ->].
  { intros H. apply Hlabels. by right; right; left. }
  destruct (Href _ (device_feature_group a) (device_feature_groups config))
    as [x4 ->].
  { intros H. apply Hlabels. by right; right; right; left. }
  destruct (Href _ (gl_texture_group a) (gl_texture_groups config))
    as [x5 ->].
  { intros H. apply Hlabels. by right; right; right; right; left. }
  cbn [mbind option_bind]. unfold referenced_sdk.
  destruct (android_sdk_group a) as [l|]; [|by eexists].
  destruct (android_sdk_groups config !! l) eqn:Hl; [by eexists|].
  destruct Hlabels. do 5 right. eauto.
Qed.

(** ** Calls that do not return *)

(** [ToBaseName] is left without a return exactly in one case: the file
    name has no extension and the name, after the base name has been
    handled, contains the extension placeholder. *)
Lemma ToBaseName_value result apk_name :
  value (ToBaseName result apk_name) =
    match basename_stage result apk_name with
    | None => Returned None
    | Some r1 =>
        if bool_decide (cxx.find "${ext}" r1 ≠ cxx.npos) &&
           String.eqb (GetExtension apk_name) ""
        then Thrown cxx.null_dereference
        else Returned (ext_stage r1 apk_name)
    end.
Proof.
  unfold ToBaseName, basename_stage, ext_stage, base_name_of. cbv zeta.
  rewrite value_bind. case_bool_decide.
  - rewrite value_bind.
    destruct (value (ReplacePlaceholder "${basename}" _ result)) as [[] r1];
      [|done].
    cbn [fst snd value ret]. case_bool_decide; cbn [andb].
    + rewrite StringPiece_substr_1. destruct (String.eqb _ ""); [done|].
      cbn [mbind option_bind]. rewrite value_bind.
      by destruct (value (ReplacePlaceholder "${ext}" _ r1)) as [[] r2].
    + by destruct (util.EndsWith r1 _).
  - cbn [fst snd value ret]. case_bool_decide; cbn [andb].
    + rewrite StringPiece_substr_1. destruct (String.eqb _ ""); [done|].
      cbn [mbind option_bind]. rewrite value_bind.
      by destruct (value (ReplacePlaceholder "${ext}" _ result)) as [[] r2].
    + by destruct (util.EndsWith result _).
Qed.

Lemma ToBaseName_returns result apk_name :
  GetExtension apk_name ≠ "" →
  ∃ r, value (ToBaseName result apk_name) = Returned r.
Proof.
  intros Hext. rewrite ToBaseName_value.
  destruct (basename_stage result apk_name) as [r1|]; [|by eexists].
  apply String.eqb_neq in Hext. rewrite Hext, andb_false_r. by eexists.
Qed.

(** A conversion is left without a return only from the name formatter. *)
Lemma ToOutputArtifact_faults apk_name config a :
  faults apk_name config a =
    match name a, artifact_format config with
    | Some own, _ =>
        match value (ToBaseName own apk_name) with
        | Thrown _ => true
        | Returned _ => false
        end
    | None, Some format =>
        match value (ToBaseName format apk_name) with
        | Thrown _ => true
        | Returned _ => false
        end
    | None, None => false
    end.
Proof.
  unfold faults, ToOutputArtifact, Name.
  destruct (name a) as [own|] eqn:Hname;
    destruct (artifact_format config) as [format|] eqn:Hformat.
  all: repeat first [rewrite bool_decide_true by done
                    |rewrite bool_decide_false by done
                    |rewrite bool_decide_false by (by intros [])].
  all: cbn [andb].
  4: done.
  all: rewrite value_bind.
  all: try change (Maybe_value (Some format)) with format.
  all: try (rewrite ToArtifactName_axes, value_bind).
  all: destruct (value (ToBaseName _ apk_name)) as [[n|]|e]; [|reflexivity..].
  all: try rewrite value_bind.
  all: try match goal with
           | |- context [value (ReplacePlaceholders ?l ?n)] =>
               destruct (value (ReplacePlaceholders l n)); [|reflexivity]
           end.
  all: cbn [value ret fst].
  all: rewrite !CopyXmlReferences_spec.
  all: destruct (referenced (abi_group a) _);
    destruct (referenced (locale_group a) _);
    destruct (referenced (screen_density_group a) _);
    destruct (referenced (device_feature_group a) _);
    destruct (referenced (gl_texture_group a) _);
    destruct (android_sdk_group a) as [g|];
    try destruct (android_sdk_groups config !! g) eqn:Hsdk;
    reflexivity.
Qed.

Lemma ToBaseName_thrown result apk_name e :
  value (ToBaseName result apk_name) = Thrown e → e = cxx.null_dereference.
Proof.
  rewrite ToBaseName_value.
  destruct (basename_stage result apk_name) as [r1|]; [|done].
  destruct (_ && _); [|done]. by intros [= <-].
Qed.

Lemma ToOutputArtifact_thrown apk_name config a e :
  value (ToOutputArtifact a apk_name config) = Thrown e →
  e = cxx.null_dereference.
Proof.
  unfold ToOutputArtifact, Name.
  destruct (name a) as [own|] eqn:Hname;
    destruct (artifact_format config) as [format|] eqn:Hformat.
  all: repeat first [rewrite bool_decide_true by done
                    |rewrite bool_decide_false by done
                    |rewrite bool_decide_false by (by intros [])].
  all: cbn [andb].
  4: done.
  all: rewrite value_bind.
  all: try change (Maybe_value (Some format)) with format.
  all: try (rewrite ToArtifactName_axes, value_bind).
  all: destruct (value (ToBaseName _ apk_name)) as [[n|]|e'] eqn:Hbase;
    [|done|intros [= <-]; by apply ToBaseName_thrown in Hbase].
  all: try rewrite value_bind.
  all: try match goal with
           | |- context [value (ReplacePlaceholders ?l ?n)] =>
               destruct (value (ReplacePlaceholders l n)); [|done]
           end.
  all: cbn [value ret fst].
  all: rewrite !CopyXmlReferences_spec.
  all: destruct (referenced (abi_group a) _);
    destruct (referenced (locale_group a) _);
    destruct (referenced (screen_density_group a) _);
    destruct (referenced (device_feature_group a) _);
    destruct (referenced (gl_texture_group a) _);
    destruct (android_sdk_group a) as [g|];
    try destruct (android_sdk_groups config !! g) eqn:Hsdk;
    done.
Qed.

Lemma Parse_loop_thrown apk_name config l st e :
  value (for_each_x (Parse_artifact apk_name config) l st) = Thrown e →
  e = cxx.null_dereference.
Proof.
  revert st. induction l as [|a l IH]; intros [outs h]; [done|].
  cbn [for_each_x]. rewrite value_bind. unfold Parse_artifact at 1.
  rewrite value_bind.
  destruct (value (ToOutputArtifact a apk_name config)) as [[o|]|e']
    eqn:Ha; rewrite value_ret.
  - apply IH.
  - apply IH.
  - intros [= <-]. by apply ToOutputArtifact_thrown in Ha.
Qed.

(** With distinct versions, [Parse] does not return when a conversion does
    not. *)
Lemma Parse_fault config apk_path a :
  a ∈ artifacts config →
  NoDup (version <$> artifacts config) →
  faults (GetFilename apk_path) config a = true →
  value (Parse (Some config) apk_path) = Thrown cxx.null_dereference.
Proof.
  intros Hin Hnd Ha. unfold Parse. cbv zeta.
  rewrite bool_decide_false.
  2: { intros Hdup. by apply Hdup, adjacent_find_std_sort. }
  rewrite value_bind.
  destruct (Parse_loop_fault (GetFilename apk_path) config
              (std_sort (artifacts config)) ([], false)) as [e He].
  { apply existsb_exists. exists a. split; [|done].
    apply list_elem_of_In. by rewrite std_sort_Permutation. }
  rewrite He. by rewrite (Parse_loop_thrown _ _ _ _ _ He).
Qed.

(** A conversion that does not return has reported nothing. *)
Lemma ToOutputArtifact_fault_quiet apk_name config a :
  faults apk_name config a = true →
  emitted (ToOutputArtifact a apk_name config) = [].
Proof.
  rewrite ToOutputArtifact_faults. unfold ToOutputArtifact, Name.
  destruct (name a) as [own|] eqn:Hname;
    destruct (artifact_format config) as [format|] eqn:Hformat.
  all: repeat first [rewrite bool_decide_true by done
                    |rewrite bool_decide_false by done
                    |rewrite bool_decide_false by (by intros [])].
  all: cbn [andb].
  4: done.
  all: rewrite emitted_bind.
  all: try change (Maybe_value (Some format)) with format.
  all: try (rewrite ToArtifactName_axes, value_bind, emitted_bind).
  all: destruct (value (ToBaseName _ apk_name)) as [r|e] eqn:Hbase; [done|].
  all: intros _; rewrite ToBaseName_emitted by (by rewrite Hbase).
  all: done.
Qed.

Lemma ToOutputArtifact_returns apk_name config a :
  GetExtension apk_name ≠ "" → faults apk_name config a = false.
Proof.
  intros Hext. rewrite ToOutputArtifact_faults.
  destruct (name a) as [own|], (artifact_format config) as [format|];
    try done;
    match goal with
    | |- context [ToBaseName ?t ?n] =>
        by destruct (ToBaseName_returns t n Hext) as [r ->]
    end.
Qed.

(** ** Textures and the name *)

Lemma faults_with_extension apk_name config l :
  GetExtension apk_name ≠ "" → existsb (faults apk_name config) l = false.
Proof.
  intros Hext. induction l as [|a l IH]; [done|]. cbn [existsb].
  by rewrite (ToOutputArtifact_returns _ _ _ Hext), IH.
Qed.

Lemma ToOutputArtifact_returned apk_name config a :
  faults apk_name config a = false →
  value (ToOutputArtifact a apk_name config) =
    Returned (resolve apk_name config a).
Proof.
  unfold faults, resolve.
  by destruct (value (ToOutputArtifact a apk_name config)).
Qed.

Lemma Parse_returned config apk_path :
  existsb (faults (GetFilename apk_path) config)
    (std_sort (artifacts config)) = false →
  value (Parse (Some config) apk_path) =
    Returned (returned (value (Parse (Some config) apk_path))).
Proof.
  intros Hfaults. unfold Parse. cbv zeta. case_bool_decide; [done|].
  rewrite value_bind, (Parse_loop _ _ _ _ _ Hfaults). simpl.
  by destruct (existsb (fails _ _) _).
Qed.

(** An artifact with a name of its own is converted under the name that
    [ToBaseName] makes of it when its labels are registered: nothing in the
    name is compared with its references. *)
Lemma named_artifact_converts apk_name config a own n g :
  name a = Some own →
  gl_texture_group a = Some g →
  value (ToBaseName own apk_name) = Returned (Some n) →
  ¬ missing_label config a →
  ∃ out,
    ToOutputArtifact a apk_name config = (Returned (Some out), []) ∧
    out_name out = n ∧
    gl_texture_groups config !! g = Some (textures out).
Proof.
  intros Hown Hgl Hbase Hlabels.
  assert (resolved_name apk_name config a = Some n) as Hn.
  { rewrite (resolved_name_own _ _ _ _ Hown). by rewrite Hbase. }
  destruct (ToOutputArtifact_succeeds _ _ _ _ Hn Hlabels)
    as (out & Hres & Hname).
  exists out. split_and!; [|done|].
  - rewrite (W_eta (ToOutputArtifact a apk_name config)).
    rewrite (ToOutputArtifact_quiet _ _ _ _ Hres). f_equal.
    by apply returned_Some.
  - rewrite ToOutputArtifact_value, Hn, Hgl in Hres.
    cbn [mbind option_bind referenced] in Hres.
    destruct (referenced (abi_group a) _); [|done].
    destruct (referenced (locale_group a) _); [|done].
    destruct (referenced (screen_density_group a) _); [|done].
    destruct (referenced (device_feature_group a) _); [|done].
    cbn [mbind option_bind] in Hres.
    destruct (gl_texture_groups config !! g) as [x5|]; [|done].
    cbn [mbind option_bind] in Hres.
    destruct (referenced_sdk (android_sdk_group a) _); [|done].
    cbn [mbind option_bind] in Hres. by injection Hres as <-.
Qed.

(** C5, as the code has it. An artifact without a name of its own that
    refers to a texture group is named from the global format. When every
    ['$'] of that format starts a placeholder and file name and labels are
    free of ['$'], a format without the texture placeholder makes the
    conversion of the artifact fail, and [Parse] with it: neither returns
    an output, and with a file name that has an extension both return
    nothing. An artifact with a name of its own is named from that name by
    [ToBaseName] alone: when the labels it refers to are registered it is
    converted, without a message, under that name and with the textures of
    the group it refers to, whether or not the name has the texture
    placeholder. *)
Theorem texture_reference_needs_placeholder (config : Config)
    (apk_path : string) (a : ConfiguredArtifact) (g : string) :
  let apk_name := GetFilename apk_path in
  a ∈ artifacts config →
  gl_texture_group a = Some g →
  (∀ format,
     name a = None →
     artifact_format config = Some format →
     well_formed format = true →
     no_dollar apk_name = true →
     no_dollar (GetExtension apk_name) = true →
     plain_labels a →
     occurrences "${gl}" format = 0%nat →
     returned (value (ToOutputArtifact a apk_name config)) = None ∧
     returned (value (Parse (Some config) apk_path)) = None ∧
     (GetExtension apk_name ≠ "" →
      value (ToOutputArtifact a apk_name config) = Returned None ∧
      value (Parse (Some config) apk_path) = Returned None)) ∧
  (∀ own n,
     name a = Some own →
     value (ToBaseName own apk_name) = Returned (Some n) →
     ¬ missing_label config a →
     ∃ out,
       ToOutputArtifact a apk_name config = (Returned (Some out), []) ∧
       out_name out = n ∧
       gl_texture_groups config !! g = Some (textures out)).
Proof.
  intros apk_name Hin Hgl. split.
  - intros format Hname Hformat Hwf Hfile Hext Hlabels Hnone.
    destruct (format_without_texture_placeholder_fails config apk_path a
                format g) as [Hfail Hparse]; [done..|].
    split_and!; [done..|]. intros Hsome. split.
    + rewrite ToOutputArtifact_returned
        by (by apply ToOutputArtifact_returns).
      by f_equal.
    + rewrite Parse_returned by (by apply faults_with_extension).
      by f_equal.
  - intros own n Hown Hbase Hlabels.
    by apply (named_artifact_converts apk_name config a own n g).
Qed.

(** ** Resolution is all or nothing, with and without an extension *)

(** C1. If an artifact of the configuration fails to convert, for whatever
    reason, or names a group label that its registry does not have, [Parse]
    returns no list, and so none of the artifacts that did convert; for a
    file name with an extension, what it returns is nothing. *)
Theorem Parse_all_or_nothing (config : Config) (apk_path : string)
    (a : ConfiguredArtifact) :
  a ∈ artifacts config →
  resolve (GetFilename apk_path) config a = None ∨ missing_label config a →
  returned (value (Parse (Some config) apk_path)) = None ∧
  (GetExtension (GetFilename apk_path) ≠ "" →
   value (Parse (Some config) apk_path) = Returned None).
Proof.
  intros Hin Hcause.
  assert (returned (value (Parse (Some config) apk_path)) = None) as Hnone.
  { destruct Hcause as [Hfail|Hmissing].
    - by apply (Parse_fails_with config apk_path a).
    - apply (Parse_fails_with config apk_path a); [done|].
      by apply missing_label_fails. }
  split; [done|]. intros Hext.
  rewrite Parse_returned by (by apply faults_with_extension). by f_equal.
Qed.

(** * Further properties of the code *)

(** ** The resolver: when it succeeds and what it reports *)

Lemma existsb_fails_Forall apk_name config (l : list ConfiguredArtifact) :
  existsb (fails apk_name config) l = false ↔
  Forall (λ a, is_Some (resolve apk_name config a)) l.
Proof.
  induction l as [|a l IH]; [by split; [constructor|]|].
  cbn [existsb]. rewrite orb_false_iff, Forall_cons, IH. unfold fails.
  destruct (resolve apk_name config a) as [o|]; split.
  - intros [_ ?]. split; [by eexists|done].
  - by intros [_ ?].
  - by intros [? _].
  - by intros [[? ?] _].
Qed.

(** The loop of [Parse] passes on what each conversion reports, in the
    order of the list, whether or not an earlier conversion failed; it ends
    with a conversion that does not return. *)
Lemma Parse_loop_emitted apk_name config l st :
  emitted (for_each_x (Parse_artifact apk_name config) l st) =
    concat ((λ a, emitted (ToOutputArtifact a apk_name config))
            <$> reached apk_name config l).
Proof.
  revert st. induction l as [|a l IH]; intros [outs h]; [done|].
  cbn [for_each_x reached]. rewrite emitted_bind, fmap_cons. cbn [concat].
  unfold Parse_artifact at 1 2. rewrite emitted_bind, value_bind.
  unfold faults at 1.
  destruct (value (ToOutputArtifact a apk_name config)) as [[o|]|e];
    cbn [emitted value ret fst snd]; rewrite ?app_nil_r; f_equal;
    by rewrite ?IH.
Qed.

Lemma reached_all apk_name config l :
  existsb (faults apk_name config) l = false → reached apk_name config l = l.
Proof.
  induction l as [|a l IH]; [done|]. cbn [existsb reached].
  intros [-> Hl]%orb_false_iff. by rewrite IH.
Qed.

Lemma Parse_emitted config apk_path :
  adjacent_find (std_sort (artifacts config)) = None →
  emitted (Parse (Some config) apk_path) =
    concat ((λ a, emitted (ToOutputArtifact a (GetFilename apk_path) config))
            <$> reached (GetFilename apk_path) config
                  (std_sort (artifacts config))).
Proof.
  intros Hnone. unfold Parse. rewrite Hnone.
  rewrite bool_decide_false by (by intros []).
  rewrite emitted_bind, Parse_loop_emitted.
  destruct (value (for_each_x _ _ _)) as [[outs []]|e];
    cbn [emitted ret snd]; by rewrite app_nil_r.
Qed.

Lemma resolve_Some_returns apk_name config a :
  is_Some (resolve apk_name config a) → faults apk_name config a = false.
Proof.
  unfold resolve, faults.
  destruct (value (ToOutputArtifact a apk_name config)); [done|].
  by intros [??].
Qed.

Lemma Forall_resolve_returns apk_name config l :
  Forall (λ a, is_Some (resolve apk_name config a)) l →
  existsb (faults apk_name config) l = false.
Proof.
  induction 1 as [|a l Ha _ IH]; [done|]. cbn [existsb].
  by rewrite (resolve_Some_returns _ _ _ Ha), IH.
Qed.

Lemma reached_with_extension apk_name config l :
  GetExtension apk_name ≠ "" → reached apk_name config l = l.
Proof.
  intros Hext. apply reached_all.
  induction l as [|a l IH]; [done|]. cbn [existsb].
  by rewrite (ToOutputArtifact_returns _ _ _ Hext), IH.
Qed.

(** X1. [Parse] returns a list exactly when the versions of the declared
    artifacts are pairwise different and every declared artifact converts;
    it has then reported nothing. *)
Theorem Parse_succeeds_iff (config : Config) (apk_path : string) :
  (is_Some (returned (value (Parse (Some config) apk_path))) ↔
   NoDup (version <$> artifacts config) ∧
   Forall (λ a, is_Some (resolve (GetFilename apk_path) config a))
     (artifacts config)) ∧
  (is_Some (returned (value (Parse (Some config) apk_path))) →
   emitted (Parse (Some config) apk_path) = []).
Proof.
  assert (is_Some (returned (value (Parse (Some config) apk_path))) ↔
          adjacent_find (std_sort (artifacts config)) = None ∧
          Forall (λ a, is_Some (resolve (GetFilename apk_path) config a))
            (std_sort (artifacts config))) as Hiff.
  { rewrite Parse_value. cbv zeta. rewrite <-existsb_fails_Forall.
    case_bool_decide as Hadj.
    - split; [by intros [? ?]|]. by intros [? _].
    - destruct (existsb _ _); split.
      + by intros [? ?].
      + by intros [_ ?].
      + intros _. split; [|done].
        destruct (adjacent_find _); [|done]. by destruct Hadj.
      + intros _. by eexists. }
  split.
  - rewrite Hiff, adjacent_find_std_sort.
    by rewrite (std_sort_Permutation (artifacts config)).
  - intros [Hnone Hall]%Hiff. rewrite Parse_emitted by done.
    rewrite reached_all by (by apply Forall_resolve_returns).
    revert Hall. generalize (std_sort (artifacts config)).
    induction 1 as [|a l [out Ha] _ IH]; [done|]. csimpl.
    by rewrite (ToOutputArtifact_quiet _ _ _ _ Ha), IH.
Qed.

(** X2. When the versions are pairwise different, [Parse] reports what the
    conversion of each artifact that the loop reaches reports, artifact
    after artifact in ascending order of version: a failed conversion does
    not keep the later artifacts from being converted and their errors from
    being reported. The loop reaches every artifact when the file name has
    an extension, and in general when every conversion returns. *)
Theorem Parse_reports_every_failure (config : Config) (apk_path : string) :
  NoDup (version <$> artifacts config) →
  let apk_name := GetFilename apk_path in
  let sorted := std_sort (artifacts config) in
  emitted (Parse (Some config) apk_path) =
    concat ((λ a, emitted (ToOutputArtifact a apk_name config))
            <$> reached apk_name config sorted) ∧
  (GetExtension apk_name ≠ "" ∨
   existsb (faults apk_name config) sorted = false →
   reached apk_name config sorted = sorted).
Proof.
  intros Hnd apk_name sorted. split.
  - apply Parse_emitted. by apply adjacent_find_std_sort.
  - intros [Hext|Hall].
    + by apply reached_with_extension.
    + by apply reached_all.
Qed.

(** X3. [ToOutputArtifact] converts an artifact exactly when a name can be
    computed for it and every label it refers to is in its registry; the
    output then carries that name. *)
Theorem ToOutputArtifact_succeeds_iff (apk_name : string) (config : Config)
    (a : ConfiguredArtifact) :
  (is_Some (resolve apk_name config a) ↔
   is_Some (resolved_name apk_name config a) ∧ ¬ missing_label config a) ∧
  (∀ out, resolve apk_name config a = Some out →
          resolved_name apk_name config a = Some (out_name out)).
Proof.
  split; [split|].
  - intros [out Hout]. split.
    + destruct (resolved_name apk_name config a) eqn:Hn; [by eexists|].
      by rewrite (resolved_name_None_fails _ _ _ Hn) in Hout.
    + by eapply resolve_Some_labels.
  - intros [[n Hn] Hlabels].
    destruct (ToOutputArtifact_succeeds _ _ _ _ Hn Hlabels) as (out & -> & _).
    by eexists.
  - intros out Hout. rewrite ToOutputArtifact_value in Hout.
    destruct (resolved_name apk_name config a) as [n|]; [|done].
    cbn [mbind option_bind] in Hout.
    repeat match type of Hout with
           | context [referenced ?x ?y] => destruct (referenced x y); [|done]
           | context [referenced_sdk ?x ?y] =>
               destruct (referenced_sdk x y); [|done]
           end.
    cbn [mbind option_bind] in Hout. by injection Hout as <-.
Qed.

(** One lookup of [ToOutputArtifact] with its report: the error for a label
    that is not registered, and then whatever the rest of the conversion
    reports. *)
Lemma lookup_step_emitted {T B} (label : option string)
    (groups : gmap string (list T)) (n msg : string) (h : bool)
    (K : list T → bool → W B) :
  emitted (let '(ok, out) := CopyXmlReferences label groups [] in
           do h <- report_unless ok n (msg +:+ Maybe_value label) h;
           K out h) =
    lookup_error n msg label groups ++
    emitted (K (snd (CopyXmlReferences label groups []))
               (h || negb (fst (CopyXmlReferences label groups [])))).
Proof.
  unfold CopyXmlReferences, lookup_error.
  destruct label as [l|]; [destruct (groups !! l)|];
    rewrite emitted_bind; cbn [report_unless value emitted fst snd negb ret];
    by rewrite ?orb_true_r, ?orb_false_r.
Qed.

(** X4. Once the name [n] of an artifact is computed, [ToOutputArtifact]
    reports one error for each axis on which the artifact refers to a label
    that is not registered, on all six axes and not only the first one, each
    under the source [n] and in the order architecture, locale, density,
    feature, texture, SDK; and it reports nothing else. *)
Theorem ToOutputArtifact_reports_missing_labels (apk_name : string)
    (config : Config) (a : ConfiguredArtifact) (n : string) :
  resolved_name apk_name config a = Some n →
  emitted (ToOutputArtifact a apk_name config) =
    lookup_error n "Could not lookup required ABIs: "
      (abi_group a) (abi_groups config) ++
    lookup_error n "Could not lookup required locales: "
      (locale_group a) (locale_groups config) ++
    lookup_error n "Could not lookup required screen densities: "
      (screen_density_group a) (screen_density_groups config) ++
    lookup_error n "Could not lookup required device features: "
      (device_feature_group a) (device_feature_groups config) ++
    lookup_error n "Could not lookup required OpenGL texture formats: "
      (gl_texture_group a) (gl_texture_groups config) ++
    lookup_error n "Could not lookup required Android SDK version: "
      (android_sdk_group a) (android_sdk_groups config).
Proof.
  intros Hn. pose proof (resolved_name_quiet _ _ _ _ Hn) as Hquiet.
  unfold ToOutputArtifact, resolved_name in *.
  destruct (name a) as [own|] eqn:Hname;
    destruct (artifact_format config) as [format|] eqn:Hformat; [| | |done].
  all: repeat first [rewrite bool_decide_true by done
                    |rewrite bool_decide_false by done
                    |rewrite bool_decide_false by (by intros [])].
  all: cbn [andb].
  all: rewrite emitted_bind.
  all: try change (Maybe_value (Some format)) with format.
  all: apply returned_Some in Hn.
  all: rewrite Hquiet, Hn; cbn [app].
  all: do 5 (rewrite lookup_step_emitted; f_equal).
  all: unfold lookup_error; rewrite emitted_bind.
  all: destruct (android_sdk_group a) as [l|];
    [destruct (android_sdk_groups config !! l)|].
  all: cbn [value emitted ret fst snd app].
  all: first [reflexivity
             |by match goal with
                 | |- context [if ?b then _ else _] => destruct b
                 end].
Qed.

(** ** The group handlers *)

(** A child loop whose body appends at most one entry to the group, lowers
    [valid] for a child it does not accept, and reports per child. *)
Lemma for_each_collect {A T} (body : list T * bool → A → W (list T * bool))
    (add : A → option T) (ok : A → bool) (msgs : A → list DiagMessage) :
  (∀ group valid x,
     body (group, valid) x =
       ((group ++ option_list (add x), valid && ok x), msgs x)) →
  ∀ l group valid,
    for_each body l (group, valid) =
      ((group ++ omap add l, valid && forallb ok l), concat (msgs <$> l)).
Proof.
  intros Hbody. induction l as [|x l IH]; intros group valid.
  { simpl. by rewrite app_nil_r, andb_true_r. }
  cbn [for_each]. rewrite Hbody. unfold bind. rewrite IH.
  cbn [omap list_omap forallb]. csimpl.
  rewrite <-app_assoc, andb_assoc. by destruct (add x).
Qed.

Lemma for_each_x_collect {A T}
    (body : list T * bool → A → W (outcome (list T * bool)))
    (add : A → option T) (ok : A → bool) (msgs : A → list DiagMessage) l :
  Forall (λ x, ∀ group valid,
            body (group, valid) x =
              (Returned (group ++ option_list (add x), valid && ok x),
               msgs x)) l →
  ∀ group valid,
    for_each_x body l (group, valid) =
      (Returned (group ++ omap add l, valid && forallb ok l),
       concat (msgs <$> l)).
Proof.
  induction 1 as [|x l Hx _ IH]; intros group valid.
  { simpl. by rewrite app_nil_r, andb_true_r. }
  cbn [for_each_x]. rewrite Hx. unfold bind. rewrite IH.
  cbn [omap list_omap forallb]. csimpl.
  rewrite <-app_assoc, andb_assoc. by destruct (add x).
Qed.

Lemma concat_unexpected_errors msg tag cs :
  concat ((λ c, if String.eqb (element_name c) tag then []
                else [mkDiag Error None (msg +:+ element_name c)]) <$> cs) =
    unexpected_errors msg tag cs.
Proof.
  unfold unexpected_errors. induction cs as [|c cs IH]; [done|]. csimpl.
  rewrite IH. by destruct (String.eqb (element_name c) tag).
Qed.

Lemma GetLabel_labelled e :
  label_attribute (attributes e) ≠ "" →
  GetLabel e = (label_attribute (attributes e), []).
Proof.
  intros Hlabel. unfold GetLabel.
  by destruct (String.eqb_spec (label_attribute (attributes e)) "").
Qed.

Lemma GetLabel_unlabelled e :
  label_attribute (attributes e) = "" →
  GetLabel e =
    ("", [mkDiag Error None ("No label found for element " +:+
                             element_name e)]).
Proof. intros Hlabel. unfold GetLabel. by rewrite Hlabel. Qed.

Lemma DeviceFeatureGroupTagHandler_child_eq group valid child :
  DeviceFeatureGroupTagHandler_child (group, valid) child =
    ((group ++ option_list (feature_entry child),
      valid && String.eqb (element_name child) "supports-feature"),
     if String.eqb (element_name child) "supports-feature" then []
     else [mkDiag Error None
             ("Unexpected root_element in device feature group: " +:+
              element_name child)]).
Proof.
  unfold DeviceFeatureGroupTagHandler_child, feature_entry, first_text.
  destruct (String.eqb (element_name child) "supports-feature"); cbn [negb].
  - destruct (text_nodes (children child)); simpl;
      by rewrite ?app_nil_r, andb_true_r.
  - simpl. by rewrite app_nil_r, andb_false_r.
Qed.

(** X5. For a labelled [device-feature-group] the handler appends, to the
    features already registered under the label, the trimmed first text of
    each [supports-feature] child in document order; a child without text
    adds nothing. Every child of another name is reported, the loop goes on
    after it, and the handler returns [true] exactly when there is none. *)
Theorem DeviceFeatureGroupTagHandler_appends (config : Config)
    (root_element : Element) :
  let label := label_attribute (attributes root_element) in
  let cs := GetChildElements root_element in
  label ≠ "" →
  DeviceFeatureGroupTagHandler config root_element =
    ((with_device_feature_groups
        (<[label := default [] (device_feature_groups config !! label) ++
                    omap feature_entry cs]> (device_feature_groups config))
        config,
      all_named "supports-feature" cs),
     unexpected_errors "Unexpected root_element in device feature group: "
       "supports-feature" cs).
Proof.
  intros label cs Hlabel. unfold DeviceFeatureGroupTagHandler.
  rewrite GetLabel_labelled by done. fold label cs.
  unfold bind at 1. destruct (String.eqb_spec label ""); [done|].
  rewrite (for_each_collect _ _ _ _ DeviceFeatureGroupTagHandler_child_eq).
  rewrite concat_unexpected_errors. unfold bind. simpl.
  by rewrite app_nil_r.
Qed.

Lemma AbiGroupTagHandler_child_eq group valid child :
  abi_child_known child = true →
  AbiGroupTagHandler_child (group, valid) child =
    (Returned (group ++ option_list (abi_entry child),
               valid && String.eqb (element_name child) "abi"),
     if String.eqb (element_name child) "abi" then []
     else [mkDiag Error None
             ("Unexpected element in ABI group: " +:+ element_name child)]).
Proof.
  unfold AbiGroupTagHandler_child, abi_child_known, abi_entry, first_text.
  destruct (String.eqb (element_name child) "abi"); cbn [negb].
  - destruct (text_nodes (children child)) as [|t ts]; simpl.
    { by rewrite app_nil_r, andb_true_r. }
    destruct (kStringToAbiMap !! TrimWhitespace t) as [abi|].
    + intros _. simpl. by rewrite andb_true_r.
    + intros [? ?]%bool_decide_eq_true. done.
  - intros _. simpl. by rewrite app_nil_r, andb_false_r.
Qed.

Lemma AbiGroupTagHandler_returns (config : Config)
    (root_element : Element) :
  let label := label_attribute (attributes root_element) in
  let cs := GetChildElements root_element in
  label ≠ "" →
  forallb abi_child_known cs = true →
  AbiGroupTagHandler config root_element =
    (Returned
       (with_abi_groups
          (<[label := default [] (abi_groups config !! label) ++
                      omap abi_entry cs]> (abi_groups config)) config,
        all_named "abi" cs),
     unexpected_errors "Unexpected element in ABI group: " "abi" cs).
Proof.
  intros label cs Hlabel Hknown. unfold AbiGroupTagHandler.
  rewrite GetLabel_labelled by done. fold label cs.
  unfold bind at 1. destruct (String.eqb_spec label ""); [done|].
  rewrite (for_each_x_collect _ abi_entry
             (λ c, String.eqb (element_name c) "abi")
             (λ c, if String.eqb (element_name c) "abi" then []
                   else [mkDiag Error None
                           ("Unexpected element in ABI group: " +:+
                            element_name c)])).
  - rewrite concat_unexpected_errors. unfold bind. simpl.
    by rewrite app_nil_r.
  - apply Forall_forall. intros c Hc group valid.
    apply AbiGroupTagHandler_child_eq.
    rewrite forallb_forall in Hknown. apply Hknown.
    by apply list_elem_of_In.
Qed.

(** X6. When the text of every [abi] child is one of the architecture
    strings, the handler of a labelled [abi-group] returns: it has appended,
    to the architectures already registered under the label, the one of each
    [abi] child in document order, it has reported the children of another
    name and returns [true] exactly when there is none. *)
Theorem AbiGroupTagHandler_known_abis (config : Config)
    (root_element : Element) :
  let label := label_attribute (attributes root_element) in
  let cs := GetChildElements root_element in
  label ≠ "" →
  forallb abi_child_known cs = true →
  AbiGroupTagHandler config root_element =
    (Returned
       (with_abi_groups
          (<[label := default [] (abi_groups config !! label) ++
                      omap abi_entry cs]> (abi_groups config)) config,
        all_named "abi" cs),
     unexpected_errors "Unexpected element in ABI group: " "abi" cs).
Proof. apply AbiGroupTagHandler_returns. Qed.

(** What a converted artifact holds on its five list axes. *)
Lemma resolve_referenced apk_name (config : Config) a out :
  resolve apk_name config a = Some out →
  referenced (abi_group a) (abi_groups config) = Some (abis out) ∧
  referenced (locale_group a) (locale_groups config) = Some (locales out) ∧
  referenced (screen_density_group a) (screen_density_groups config) =
    Some (screen_densities out) ∧
  referenced (device_feature_group a) (device_feature_groups config) =
    Some (features out) ∧
  referenced (gl_texture_group a) (gl_texture_groups config) =
    Some (textures out).
Proof.
  intros Hout. rewrite ToOutputArtifact_value in Hout.
  destruct (resolved_name apk_name config a) as [n|]; [|done].
  cbn [mbind option_bind] in Hout.
  repeat match type of Hout with
         | context [referenced ?x ?y] => destruct (referenced x y); [|done]
         | context [referenced_sdk ?x ?y] =>
             destruct (referenced_sdk x y); [|done]
         end.
  cbn [mbind option_bind] in Hout. by injection Hout as <-.
Qed.

(** X7. From the document to the output: when the handler of a labelled
    [abi-group] returns, an artifact that refers to the label and converts
    has the architectures registered under the label before, followed by
    those of the [abi] children of the element, in document order. *)
Theorem abi_group_reaches_artifact (config config' : Config)
    (root_element : Element) (valid : bool) (apk_name : string)
    (a : ConfiguredArtifact) (out : Output) :
  let label := label_attribute (attributes root_element) in
  label ≠ "" →
  value (AbiGroupTagHandler config root_element) =
    Returned (config', valid) →
  abi_group a = Some label →
  resolve apk_name config' a = Some out →
  abis out =
    default [] (abi_groups config !! label) ++
    omap abi_entry (GetChildElements root_element).
Proof.
  intros label Hlabel Hrun Ha Hout.
  destruct (forallb abi_child_known (GetChildElements root_element))
    eqn:Hknown.
  - rewrite AbiGroupTagHandler_returns in Hrun by done.
    injection Hrun as <- _.
    destruct (resolve_referenced _ _ _ _ Hout) as (Hlookup & _).
    rewrite Ha in Hlookup.
    cbn [referenced abi_groups with_abi_groups] in Hlookup.
    fold label in Hlookup.
    rewrite lookup_insert_eq in Hlookup. by injection Hlookup as <-.
  - unfold AbiGroupTagHandler in Hrun.
    rewrite value_bind, value_GetLabel in Hrun. fold label in Hrun.
    destruct (String.eqb_spec label ""); [done|].
    rewrite value_bind, abi_loop_throws in Hrun by done. done.
Qed.

Lemma qualifier_child_eq tag mask msg group valid child :
  (if negb (String.eqb (element_name child) tag) then
     exec diag_Error
       ("Unexpected root_element in screen density group: " +:+
        element_name child);
     ret (group, false)
   else
     match text_nodes (children child) with
     | t :: _ =>
         let text := TrimWhitespace t in
         match ConfigDescription_Parse text with
         | Some config_descriptor =>
             if diff (CopyWithoutSdkVersion config_descriptor) DefaultConfig
                =? mask then
               ret (push_back group (CopyWithoutSdkVersion config_descriptor),
                    valid)
             else
               exec diag_Error (msg +:+ text);
               ret (group, false)
         | None =>
             exec diag_Error (msg +:+ text);
             ret (group, false)
         end
     | [] => ret (group, valid)
     end) =
    ((group ++ option_list (qualifier_entry tag mask child),
      valid && qualifier_child_ok tag mask child),
     if negb (String.eqb (element_name child) tag) then
       [mkDiag Error None
          ("Unexpected root_element in screen density group: " +:+
           element_name child)]
     else
       match first_text child, qualifier_entry tag mask child with
       | Some text, None => [mkDiag Error None (msg +:+ text)]
       | _, _ => []
       end).
Proof.
  unfold qualifier_child_ok, qualifier_entry, first_text.
  destruct (String.eqb (element_name child) tag); cbn [negb andb].
  2: { simpl. by rewrite app_nil_r, andb_false_r. }
  destruct (text_nodes (children child)) as [|t ts]; simpl.
  { by rewrite app_nil_r, andb_true_r. }
  destruct (ConfigDescription_Parse (TrimWhitespace t)) as [d|]; simpl.
  2: { by rewrite app_nil_r, andb_false_r. }
  destruct (diff (CopyWithoutSdkVersion d) DefaultConfig =? mask); simpl.
  - by rewrite andb_true_r.
  - by rewrite app_nil_r, andb_false_r.
Qed.

Lemma qualifier_entry_mask tag mask cs :
  Forall (λ c, diff c DefaultConfig = mask) (omap (qualifier_entry tag mask) cs).
Proof.
  induction cs as [|child cs IH]; [constructor|]. cbn [omap list_omap].
  destruct (qualifier_entry tag mask child) as [c|] eqn:Hc; [|done].
  constructor; [|done]. unfold qualifier_entry in Hc.
  destruct (String.eqb (element_name child) tag); [|done].
  destruct (first_text child) as [t|]; [|done]. cbn [mbind option_bind] in Hc.
  destruct (ConfigDescription_Parse t) as [d|]; [|done].
  cbn [mbind option_bind] in Hc.
  destruct (Z.eqb_spec (diff (CopyWithoutSdkVersion d) DefaultConfig) mask);
    [|done].
  by injection Hc as <-.
Qed.

Lemma ScreenDensityGroupTagHandler_eq (config : Config) (root_element : Element) :
  let label := label_attribute (attributes root_element) in
  let cs := GetChildElements root_element in
  label ≠ "" →
  ScreenDensityGroupTagHandler config root_element =
    ((with_screen_density_groups
        (<[label := default [] (screen_density_groups config !! label) ++
                    omap (qualifier_entry "screen-density" CONFIG_DENSITY) cs]>
           (screen_density_groups config)) config,
      forallb (qualifier_child_ok "screen-density" CONFIG_DENSITY) cs),
     concat (qualifier_errors "screen-density" CONFIG_DENSITY <$> cs)).
Proof.
  intros label cs Hlabel. unfold ScreenDensityGroupTagHandler.
  rewrite GetLabel_labelled by done. fold label cs.
  unfold bind at 1. destruct (String.eqb_spec label ""); [done|].
  rewrite (for_each_collect _
             (qualifier_entry "screen-density" CONFIG_DENSITY)
             (qualifier_child_ok "screen-density" CONFIG_DENSITY)
             (qualifier_errors "screen-density" CONFIG_DENSITY)).
  - unfold bind. simpl. by rewrite app_nil_r.
  - intros group valid child. apply qualifier_child_eq.
Qed.

(** X8. For a labelled [screen-density-group] the handler appends, to the
    densities already registered under the label, the qualifier of each
    [screen-density] child whose trimmed first text parses and, once its SDK
    version is stripped, differs from the default configuration in the
    density and nothing else; what it appends is the stripped qualifier, so
    each appended entry differs from the default in the density only. A
    child of another name, or with a text that gives no entry, gets one
    error; the loop goes on; the flag is [true] when no child got one. *)
Theorem ScreenDensityGroupTagHandler_appends (config : Config)
    (root_element : Element) :
  let label := label_attribute (attributes root_element) in
  let cs := GetChildElements root_element in
  let added := omap (qualifier_entry "screen-density" CONFIG_DENSITY) cs in
  label ≠ "" →
  ScreenDensityGroupTagHandler config root_element =
    ((with_screen_density_groups
        (<[label := default [] (screen_density_groups config !! label) ++
                    added]> (screen_density_groups config)) config,
      forallb (qualifier_child_ok "screen-density" CONFIG_DENSITY) cs),
     concat (qualifier_errors "screen-density" CONFIG_DENSITY <$> cs)) ∧
  Forall (λ c, diff c DefaultConfig = CONFIG_DENSITY) added.
Proof.
  intros label cs added Hlabel. split; [|apply qualifier_entry_mask].
  by apply ScreenDensityGroupTagHandler_eq.
Qed.

Lemma LocaleGroupTagHandler_eq (config : Config) (root_element : Element) :
  let label := label_attribute (attributes root_element) in
  let cs := GetChildElements root_element in
  label ≠ "" →
  LocaleGroupTagHandler config root_element =
    ((with_locale_groups
        (<[label := default [] (locale_groups config !! label) ++
                    omap (qualifier_entry "locale" CONFIG_LOCALE) cs]>
           (locale_groups config)) config,
      forallb (qualifier_child_ok "locale" CONFIG_LOCALE) cs),
     concat (qualifier_errors "locale" CONFIG_LOCALE <$> cs)).
Proof.
  intros label cs Hlabel. unfold LocaleGroupTagHandler.
  rewrite GetLabel_labelled by done. fold label cs.
  unfold bind at 1. destruct (String.eqb_spec label ""); [done|].
  rewrite (for_each_collect _
             (qualifier_entry "locale" CONFIG_LOCALE)
             (qualifier_child_ok "locale" CONFIG_LOCALE)
             (qualifier_errors "locale" CONFIG_LOCALE)).
  - unfold bind. simpl. by rewrite app_nil_r.
  - intros group valid child. apply qualifier_child_eq.
Qed.

(** X9. The handler of a labelled [locale-group] does the same with the
    [locale] children and the locale: each appended entry differs from the
    default configuration in the locale only. Its two messages are those of
    the density handler. *)
Theorem LocaleGroupTagHandler_appends (config : Config)
    (root_element : Element) :
  let label := label_attribute (attributes root_element) in
  let cs := GetChildElements root_element in
  let added := omap (qualifier_entry "locale" CONFIG_LOCALE) cs in
  label ≠ "" →
  LocaleGroupTagHandler config root_element =
    ((with_locale_groups
        (<[label := default [] (locale_groups config !! label) ++ added]>
           (locale_groups config)) config,
      forallb (qualifier_child_ok "locale" CONFIG_LOCALE) cs),
     concat (qualifier_errors "locale" CONFIG_LOCALE <$> cs)) ∧
  Forall (λ c, diff c DefaultConfig = CONFIG_LOCALE) added.
Proof.
  intros label cs added Hlabel. split; [|apply qualifier_entry_mask].
  by apply LocaleGroupTagHandler_eq.
Qed.

Lemma handlers_unlabelled (config : Config)
    (root_element : Element) :
  label_attribute (attributes root_element) = "" →
  let unlabelled :=
    [mkDiag Error None
       ("No label found for element " +:+ element_name root_element)] in
  AbiGroupTagHandler config root_element =
    (Returned (config, false), unlabelled) ∧
  ScreenDensityGroupTagHandler config root_element =
    ((config, false), unlabelled) ∧
  LocaleGroupTagHandler config root_element =
    ((config, false), unlabelled) ∧
  AndroidSdkGroupTagHandler config root_element =
    ((config, false), unlabelled) ∧
  GlTextureGroupTagHandler config root_element =
    ((config, false), unlabelled) ∧
  DeviceFeatureGroupTagHandler config root_element =
    ((config, false), unlabelled).
Proof.
  intros Hlabel unlabelled.
  unfold AbiGroupTagHandler, ScreenDensityGroupTagHandler,
    LocaleGroupTagHandler, AndroidSdkGroupTagHandler,
    GlTextureGroupTagHandler, DeviceFeatureGroupTagHandler.
  rewrite (GetLabel_unlabelled _ Hlabel). by split_and!.
Qed.

(** X10. Each of the six group handlers gives up on an element without a
    [label] attribute, or whose first [label] attribute is empty: it reports
    that one error, returns [false] and leaves the configuration as it is,
    whatever the children of the element are. *)
Theorem group_handlers_require_label (config : Config)
    (root_element : Element) :
  label_attribute (attributes root_element) = "" →
  let unlabelled :=
    [mkDiag Error None
       ("No label found for element " +:+ element_name root_element)] in
  AbiGroupTagHandler config root_element =
    (Returned (config, false), unlabelled) ∧
  ScreenDensityGroupTagHandler config root_element =
    ((config, false), unlabelled) ∧
  LocaleGroupTagHandler config root_element =
    ((config, false), unlabelled) ∧
  AndroidSdkGroupTagHandler config root_element =
    ((config, false), unlabelled) ∧
  GlTextureGroupTagHandler config root_element =
    ((config, false), unlabelled) ∧
  DeviceFeatureGroupTagHandler config root_element =
    ((config, false), unlabelled).
Proof. apply handlers_unlabelled. Qed.

(** ** The invariant of the qualifier registries *)

Lemma registry_all_insert {T} (P : T → Prop) (groups : gmap string (list T))
    label added :
  registry_all P groups → Forall P added →
  registry_all P (<[label := default [] (groups !! label) ++ added]> groups).
Proof.
  intros Hall Hadded l g. destruct (decide (l = label)) as [->|Hne].
  - rewrite lookup_insert_eq. intros [= <-]. apply Forall_app. split; [|done].
    destruct (groups !! label) as [old|] eqn:Hold; [|constructor].
    by apply (Hall label).
  - rewrite lookup_insert_ne by done. apply Hall.
Qed.

Lemma ScreenDensityGroupTagHandler_qualifiers config e :
  qualifiers_ok config →
  qualifiers_ok (fst (value (ScreenDensityGroupTagHandler config e))).
Proof.
  intros [Hdensity Hlocale].
  destruct (decide (label_attribute (attributes e) = "")) as [Hl|Hl].
  - unfold ScreenDensityGroupTagHandler.
    rewrite (GetLabel_unlabelled _ Hl). by split.
  - rewrite ScreenDensityGroupTagHandler_eq by done.
    split; [|done]. apply registry_all_insert; [done|].
    apply qualifier_entry_mask.
Qed.

Lemma LocaleGroupTagHandler_qualifiers config e :
  qualifiers_ok config →
  qualifiers_ok (fst (value (LocaleGroupTagHandler config e))).
Proof.
  intros [Hdensity Hlocale].
  destruct (decide (label_attribute (attributes e) = "")) as [Hl|Hl].
  - unfold LocaleGroupTagHandler.
    rewrite (GetLabel_unlabelled _ Hl). by split.
  - rewrite LocaleGroupTagHandler_eq by done.
    split; [done|]. apply registry_all_insert; [done|].
    apply qualifier_entry_mask.
Qed.

(** What a handler leaves of the configuration: all but its own part. *)
Lemma handlers_frame (config : Config) (e : Element) :
  (∃ f, fst (value (ArtifactFormatTagHandler config e)) =
          with_artifact_format f config) ∧
  (∃ g, fst (value (ScreenDensityGroupTagHandler config e)) =
          with_screen_density_groups g config) ∧
  (∃ g, fst (value (LocaleGroupTagHandler config e)) =
          with_locale_groups g config) ∧
  (∃ g, fst (value (AndroidSdkGroupTagHandler config e)) =
          with_android_sdk_groups g config) ∧
  (∃ g, fst (value (GlTextureGroupTagHandler config e)) =
          with_gl_texture_groups g config) ∧
  (∃ g, fst (value (DeviceFeatureGroupTagHandler config e)) =
          with_device_feature_groups g config) ∧
  (∀ config' valid,
     value (ArtifactTagHandler config e) = Returned (config', valid) →
     ∃ a, config' = push_artifact a config) ∧
  (∀ config' valid,
     value (AbiGroupTagHandler config e) = Returned (config', valid) →
     ∃ g, config' = with_abi_groups g config).
Proof.
  split_and!.
  - unfold ArtifactFormatTagHandler.
    destruct (text_nodes (children e)); [|by eexists].
    exists (artifact_format config). by destruct config.
  - unfold ScreenDensityGroupTagHandler. rewrite value_bind.
    destruct (String.eqb _ _).
    + exists (screen_density_groups config). by destruct config.
    + rewrite value_bind. destruct (value (for_each _ _ _)). by eexists.
  - unfold LocaleGroupTagHandler. rewrite value_bind.
    destruct (String.eqb _ _).
    + exists (locale_groups config). by destruct config.
    + rewrite value_bind. destruct (value (for_each _ _ _)). by eexists.
  - unfold AndroidSdkGroupTagHandler. rewrite value_bind.
    destruct (String.eqb _ _).
    + exists (android_sdk_groups config). by destruct config.
    + rewrite value_bind. destruct (value (for_each _ _ _)) as [[? ?] ?].
      by eexists.
  - unfold GlTextureGroupTagHandler. rewrite value_bind.
    destruct (String.eqb _ _).
    + exists (gl_texture_groups config). by destruct config.
    + rewrite value_bind. destruct (value (for_each _ _ _)) as [[? ?] ?].
      by eexists.
  - unfold DeviceFeatureGroupTagHandler. rewrite value_bind.
    destruct (String.eqb _ _).
    + exists (device_feature_groups config). by destruct config.
    + rewrite value_bind. destruct (value (for_each _ _ _)). by eexists.
  - intros config' valid. rewrite ArtifactTagHandler_value.
    destruct (value (for_each_x _ _ _)) as [[artifact ver]|exn]; [|done].
    intros [= <- _]. by eexists.
  - intros config' valid. unfold AbiGroupTagHandler. rewrite value_bind.
    destruct (String.eqb _ _).
    + intros [= <- _]. exists (abi_groups config). by destruct config.
    + rewrite value_bind.
      destruct (value (for_each_x _ _ _)) as [[group v]|exn]; [|done].
      intros [= <- _]. by eexists.
Qed.

(** X11. A handler changes its own part of the configuration and nothing
    else: the format handler the format, each group handler the registry
    of its axis, and the artifact handler appends one artifact to the
    list. *)
Theorem handlers_change_their_own_part (config : Config) (e : Element) :
  (∃ f, fst (value (ArtifactFormatTagHandler config e)) =
          with_artifact_format f config) ∧
  (∃ g, fst (value (ScreenDensityGroupTagHandler config e)) =
          with_screen_density_groups g config) ∧
  (∃ g, fst (value (LocaleGroupTagHandler config e)) =
          with_locale_groups g config) ∧
  (∃ g, fst (value (AndroidSdkGroupTagHandler config e)) =
          with_android_sdk_groups g config) ∧
  (∃ g, fst (value (GlTextureGroupTagHandler config e)) =
          with_gl_texture_groups g config) ∧
  (∃ g, fst (value (DeviceFeatureGroupTagHandler config e)) =
          with_device_feature_groups g config) ∧
  (∀ config' valid,
     value (ArtifactTagHandler config e) = Returned (config', valid) →
     ∃ a, config' = push_artifact a config) ∧
  (∀ config' valid,
     value (AbiGroupTagHandler config e) = Returned (config', valid) →
     ∃ g, config' = with_abi_groups g config).
Proof. apply handlers_frame. Qed.

Lemma referenced_registry_all {T} (P : T → Prop) label
    (groups : gmap string (list T)) g :
  registry_all P groups → referenced label groups = Some g → Forall P g.
Proof.
  intros Hall. destruct label as [l|]; cbn [referenced].
  - apply Hall.
  - by intros [= <-].
Qed.

(** X12. The qualifier registries keep their invariant. It holds of the
    empty configuration; each of the eight handlers preserves it, the
    density and the locale handler because they register a qualifier only
    after that check; and it reaches the outputs: under the invariant every
    density of a converted artifact differs from the default configuration
    in the density only, and every locale in the locale only. *)
Theorem qualifier_registries_invariant (config : Config) (e : Element) :
  qualifiers_ok empty_config ∧
  (qualifiers_ok config →
   qualifiers_ok (fst (value (ArtifactFormatTagHandler config e))) ∧
   qualifiers_ok (fst (value (ScreenDensityGroupTagHandler config e))) ∧
   qualifiers_ok (fst (value (LocaleGroupTagHandler config e))) ∧
   qualifiers_ok (fst (value (AndroidSdkGroupTagHandler config e))) ∧
   qualifiers_ok (fst (value (GlTextureGroupTagHandler config e))) ∧
   qualifiers_ok (fst (value (DeviceFeatureGroupTagHandler config e))) ∧
   (∀ config' valid,
      value (ArtifactTagHandler config e) = Returned (config', valid) →
      qualifiers_ok config') ∧
   (∀ config' valid,
      value (AbiGroupTagHandler config e) = Returned (config', valid) →
      qualifiers_ok config') ∧
   (∀ apk_name a out,
      resolve apk_name config a = Some out →
      Forall (λ c, diff c DefaultConfig = CONFIG_DENSITY)
        (screen_densities out) ∧
      Forall (λ c, diff c DefaultConfig = CONFIG_LOCALE) (locales out))).
Proof.
  split.
  { split; intros l g; unfold empty_config;
      cbn [screen_density_groups locale_groups]; by rewrite lookup_empty. }
  intros Hok.
  destruct (handlers_frame config e)
    as ([f ->] & _ & _ & [g1 ->] & [g2 ->] & [g3 ->] & Hartifact & Habi).
  split_and!; try exact Hok.
  - by apply ScreenDensityGroupTagHandler_qualifiers.
  - by apply LocaleGroupTagHandler_qualifiers.
  - intros config' valid Hrun.
    by destruct (Hartifact config' valid Hrun) as [a ->].
  - intros config' valid Hrun.
    by destruct (Habi config' valid Hrun) as [g ->].
  - intros apk_name a out Hout. destruct Hok as [Hdensity Hlocale].
    destruct (resolve_referenced _ _ _ _ Hout) as (_ & Hl & Hd & _).
    split; by eapply referenced_registry_all.
Qed.

(** ** The SDK group handler *)

Lemma AndroidSdkGroupTagHandler_attr_value entry valid attr :
  value (AndroidSdkGroupTagHandler_attr (entry, valid) attr) =
    (fst (value (AndroidSdkGroupTagHandler_attr (entry, true) attr)),
     valid &&
     (if sdk_version_attribute attr
      then bool_decide (is_Some (ParseSdkVersion (attr_value attr)))
      else true)).
Proof.
  unfold AndroidSdkGroupTagHandler_attr, sdk_version_attribute,
    AndroidSdkGroupTagHandler_target.
  destruct (String.eqb (attr_name attr) "minSdkVersion");
    [|destruct (String.eqb (attr_name attr) "targetSdkVersion");
      [|destruct (String.eqb (attr_name attr) "maxSdkVersion")]];
    cbn [orb]; try (by rewrite andb_true_r);
    destruct (ParseSdkVersion (attr_value attr)); simpl;
    by rewrite ?andb_true_r, ?andb_false_r.
Qed.

Lemma attr_loop_value attrs entry valid :
  value (for_each AndroidSdkGroupTagHandler_attr attrs (entry, valid)) =
    (fst (value (for_each AndroidSdkGroupTagHandler_attr attrs
                   (entry, true))),
     valid &&
     forallb (λ attr, if sdk_version_attribute attr
                      then bool_decide
                             (is_Some (ParseSdkVersion (attr_value attr)))
                      else true) attrs).
Proof.
  revert entry valid. induction attrs as [|attr attrs IH]; intros entry valid.
  { simpl. by rewrite andb_true_r. }
  cbn [for_each forallb]. rewrite !value_bind.
  rewrite (AndroidSdkGroupTagHandler_attr_value entry valid).
  rewrite (AndroidSdkGroupTagHandler_attr_value entry true).
  rewrite IH. symmetry. rewrite IH. cbn [fst snd andb].
  by rewrite andb_assoc.
Qed.

(** One iteration of the child loop: an [android-sdk] child overwrites the
    entry of the label and raises [found]; it keeps [valid] only if no
    entry was found before and its version attributes parse. *)
Lemma AndroidSdkGroupTagHandler_child_value label groups valid found child :
  value (AndroidSdkGroupTagHandler_child label (groups, valid, found) child) =
    if String.eqb (element_name child) "android-sdk"
    then (<[label := sdk_entry child]> groups,
          negb found && (valid && sdk_attributes_parse child), true)
    else (groups, false, found).
Proof.
  unfold AndroidSdkGroupTagHandler_child, sdk_entry, sdk_attributes_parse.
  destruct (String.eqb (element_name child) "android-sdk"); cbn [negb];
    [|done].
  rewrite value_bind, attr_loop_value. cbn [fst snd].
  rewrite value_bind. simpl. by destruct found.
Qed.

Lemma sdk_loop_invalid label cs groups found :
  snd (fst (value (for_each (AndroidSdkGroupTagHandler_child label) cs
                     (groups, false, found)))) = false.
Proof.
  revert groups found. induction cs as [|c cs IH]; intros groups found;
    [done|].
  cbn [for_each]. rewrite value_bind, AndroidSdkGroupTagHandler_child_value.
  destruct (String.eqb (element_name c) "android-sdk"); [|apply IH].
  rewrite andb_false_r. apply IH.
Qed.

Lemma sdk_loop_found label cs groups valid :
  snd (fst (value (for_each (AndroidSdkGroupTagHandler_child label) cs
                     (groups, valid, true)))) =
    valid && bool_decide (cs = []).
Proof.
  destruct cs as [|c cs]; [simpl; by rewrite andb_true_r|].
  rewrite bool_decide_false by done. rewrite andb_false_r.
  cbn [for_each]. rewrite value_bind, AndroidSdkGroupTagHandler_child_value.
  destruct (String.eqb (element_name c) "android-sdk");
    cbn [negb andb]; apply sdk_loop_invalid.
Qed.

Lemma sdk_loop_groups label cs groups valid found :
  fst (fst (value (for_each (AndroidSdkGroupTagHandler_child label) cs
                     (groups, valid, found)))) =
    match last (sdk_children cs) with
    | Some c => <[label := sdk_entry c]> groups
    | None => groups
    end.
Proof.
  revert groups valid found.
  induction cs as [|c cs IH]; intros groups valid found; [done|].
  cbn [for_each]. rewrite value_bind, AndroidSdkGroupTagHandler_child_value.
  unfold sdk_children in *. cbn [List.filter].
  destruct (String.eqb (element_name c) "android-sdk"); rewrite IH; [|done].
  rewrite last_cons. destruct (last (List.filter _ cs)); [|done].
  by rewrite insert_insert_eq.
Qed.

Lemma sdk_loop_valid label cs groups :
  snd (fst (value (for_each (AndroidSdkGroupTagHandler_child label) cs
                     (groups, true, false)))) =
    match cs with
    | [] => true
    | [c] => String.eqb (element_name c) "android-sdk" &&
             sdk_attributes_parse c
    | _ => false
    end.
Proof.
  destruct cs as [|c cs]; [done|].
  cbn [for_each]. rewrite value_bind, AndroidSdkGroupTagHandler_child_value.
  destruct (String.eqb (element_name c) "android-sdk"); cbn [negb andb].
  - rewrite sdk_loop_found. destruct cs; [|by rewrite andb_false_r].
    by rewrite andb_true_r.
  - rewrite sdk_loop_invalid. by destruct cs.
Qed.

Lemma AndroidSdkGroupTagHandler_value (config : Config)
    (root_element : Element) :
  let label := label_attribute (attributes root_element) in
  let cs := GetChildElements root_element in
  label ≠ "" →
  value (AndroidSdkGroupTagHandler config root_element) =
    (with_android_sdk_groups
       match last (sdk_children cs) with
       | Some c => <[label := sdk_entry c]> (android_sdk_groups config)
       | None => android_sdk_groups config
       end config,
     match cs with
     | [] => true
     | [c] => String.eqb (element_name c) "android-sdk" &&
              sdk_attributes_parse c
     | _ => false
     end).
Proof.
  intros label cs Hlabel. unfold AndroidSdkGroupTagHandler.
  rewrite value_bind, value_GetLabel. fold label cs.
  destruct (String.eqb_spec label ""); [done|]. rewrite value_bind.
  pose proof (sdk_loop_groups label cs (android_sdk_groups config) true false)
    as Hgroups.
  pose proof (sdk_loop_valid label cs (android_sdk_groups config)) as Hvalid.
  destruct (value (for_each _ cs _)) as [[groups valid] found].
  cbn [fst snd] in Hgroups, Hvalid. by subst groups valid.
Qed.

(** X13. Of the [android-sdk] children of a labelled [android-sdk-group]
    the last one decides: its entry is the one registered under the label,
    replacing what was registered there. Without such a child the registry
    is left as it is and the label is not registered. The handler returns
    [true] only for an element without child element, or with a single
    child element that is an [android-sdk] element whose version attributes
    parse: with two entries it returns [false], and has registered the
    second. *)
Theorem AndroidSdkGroupTagHandler_last_wins (config : Config)
    (root_element : Element) :
  let label := label_attribute (attributes root_element) in
  let cs := GetChildElements root_element in
  label ≠ "" →
  value (AndroidSdkGroupTagHandler config root_element) =
    (with_android_sdk_groups
       match last (sdk_children cs) with
       | Some c => <[label := sdk_entry c]> (android_sdk_groups config)
       | None => android_sdk_groups config
       end config,
     match cs with
     | [] => true
     | [c] => String.eqb (element_name c) "android-sdk" &&
              sdk_attributes_parse c
     | _ => false
     end).
Proof. apply AndroidSdkGroupTagHandler_value. Qed.


Lemma attribute_cons n attr attrs :
  attribute n (attr :: attrs) =
    match attribute n attrs with
    | Some v => Some v
    | None => if String.eqb (attr_name attr) n then Some (attr_value attr)
              else None
    end.
Proof.
  unfold attribute. cbn [List.filter].
  destruct (String.eqb (attr_name attr) n); [|by destruct (last _)].
  rewrite last_cons. by destruct (last _).
Qed.

Lemma attr_loop_fields attrs entry valid :
  let r := fst (value (for_each AndroidSdkGroupTagHandler_attr attrs
                         (entry, valid))) in
  min_sdk_version r =
    match attribute "minSdkVersion" attrs with
    | Some s => ParseSdkVersion s
    | None => min_sdk_version entry
    end ∧
  target_sdk_version r =
    match attribute "targetSdkVersion" attrs with
    | Some s => ParseSdkVersion s
    | None => target_sdk_version entry
    end ∧
  max_sdk_version r =
    match attribute "maxSdkVersion" attrs with
    | Some s => ParseSdkVersion s
    | None => max_sdk_version entry
    end ∧
  manifest r = manifest entry.
Proof.
  revert entry valid. induction attrs as [|attr attrs IH]; intros entry valid.
  { done. }
  cbn zeta. cbn [for_each]. rewrite value_bind.
  destruct (value (AndroidSdkGroupTagHandler_attr (entry, valid) attr))
    as [entry1 valid1] eqn:Hattr.
  destruct (IH entry1 valid1) as (Hmin & Htarget & Hmax & Hmanifest).
  rewrite Hmin, Htarget, Hmax, Hmanifest, !attribute_cons.
  clear IH Hmin Htarget Hmax Hmanifest.
  unfold AndroidSdkGroupTagHandler_attr, AndroidSdkGroupTagHandler_target
    in Hattr.
  destruct (String.eqb_spec (attr_name attr) "minSdkVersion") as [Hn|_];
    [|destruct (String.eqb_spec (attr_name attr) "targetSdkVersion")
        as [Hn|_];
      [|destruct (String.eqb_spec (attr_name attr) "maxSdkVersion")
          as [Hn|_]]].
  all: try rewrite Hn.
  all: cbn [String.eqb Ascii.eqb Bool.eqb] in *.
  all: destruct (ParseSdkVersion (attr_value attr)) eqn:Hparse;
    injection Hattr as <- <-; cbn;
    by repeat match goal with
              | |- context [attribute ?n ?l] => destruct (attribute n l)
              end.
Qed.

Lemma manifest_loop_fields nodes entry :
  let r := value (for_each AndroidSdkGroupTagHandler_manifest nodes entry) in
  min_sdk_version r = min_sdk_version entry ∧
  target_sdk_version r = target_sdk_version entry ∧
  max_sdk_version r = max_sdk_version entry ∧
  manifest r =
    match manifest entry with
    | Some m => Some m
    | None =>
        if existsb (λ n, String.eqb (element_name n) "manifest") nodes
        then Some mkAndroidManifest else None
    end.
Proof.
  revert entry. induction nodes as [|node nodes IH]; intros entry.
  { cbn. by destruct (manifest entry). }
  cbn zeta. cbn [for_each existsb]. rewrite value_bind.
  destruct (IH (value (AndroidSdkGroupTagHandler_manifest entry node)))
    as (-> & -> & -> & ->).
  unfold AndroidSdkGroupTagHandler_manifest.
  destruct (String.eqb (element_name node) "manifest"); cbn [orb].
  - destruct (manifest entry) as [m|] eqn:Hm; cbn; [|done].
    by rewrite Hm.
  - done.
Qed.

(** X14. The entry the SDK handler builds for one [android-sdk] element:
    each of the three versions is what [ParseSdkVersion] gives for the value
    of the last attribute of that name, so it is unset when that value does
    not parse, and unset without such an attribute; attributes of other
    names do not count; and the entry has a manifest exactly when the
    element has a [manifest] child element. *)
Theorem sdk_entry_fields (child : Element) :
  min_sdk_version (sdk_entry child) =
    attribute "minSdkVersion" (attributes child) ≫= ParseSdkVersion ∧
  target_sdk_version (sdk_entry child) =
    attribute "targetSdkVersion" (attributes child) ≫= ParseSdkVersion ∧
  max_sdk_version (sdk_entry child) =
    attribute "maxSdkVersion" (attributes child) ≫= ParseSdkVersion ∧
  manifest (sdk_entry child) =
    if existsb (λ n, String.eqb (element_name n) "manifest")
         (GetChildElements child)
    then Some mkAndroidManifest else None.
Proof.
  unfold sdk_entry.
  destruct (manifest_loop_fields (GetChildElements child)
              (fst (value (for_each AndroidSdkGroupTagHandler_attr
                             (attributes child) (empty_sdk, true)))))
    as (-> & -> & -> & ->).
  destruct (attr_loop_fields (attributes child) empty_sdk true)
    as (-> & -> & -> & ->).
  split_and!; first [reflexivity|by destruct (attribute _ _)].
Qed.

(** ** Which labels a handler registers *)

(** X15. After a list-group handler has run on a labelled element, the label
    is registered on its axis, also when the element has no child element
    and when the handler returns [false]. The SDK handler registers the
    label only with an [android-sdk] child: on an element without one the
    label stays as it was, unregistered if it was not registered before. *)
Theorem labels_registered (config : Config) (root_element : Element) :
  let label := label_attribute (attributes root_element) in
  label ≠ "" →
  is_Some (screen_density_groups
             (fst (value (ScreenDensityGroupTagHandler config root_element)))
           !! label) ∧
  is_Some (locale_groups
             (fst (value (LocaleGroupTagHandler config root_element)))
           !! label) ∧
  is_Some (gl_texture_groups
             (fst (value (GlTextureGroupTagHandler config root_element)))
           !! label) ∧
  is_Some (device_feature_groups
             (fst (value (DeviceFeatureGroupTagHandler config root_element)))
           !! label) ∧
  (∀ config' valid,
     value (AbiGroupTagHandler config root_element) =
       Returned (config', valid) →
     is_Some (abi_groups config' !! label)) ∧
  android_sdk_groups
    (fst (value (AndroidSdkGroupTagHandler config root_element))) !! label =
    match last (sdk_children (GetChildElements root_element)) with
    | Some c => Some (sdk_entry c)
    | None => android_sdk_groups config !! label
    end.
Proof.
  intros label Hlabel. split_and!.
  - rewrite ScreenDensityGroupTagHandler_eq by done.
    cbn [value fst screen_density_groups with_screen_density_groups].
    by rewrite lookup_insert_eq.
  - rewrite LocaleGroupTagHandler_eq by done.
    cbn [value fst locale_groups with_locale_groups].
    by rewrite lookup_insert_eq.
  - unfold GlTextureGroupTagHandler.
    rewrite value_bind, value_GetLabel. fold label.
    destruct (String.eqb_spec label ""); [done|]. rewrite value_bind.
    destruct (value (for_each _ _ _)) as [[result group] valid].
    cbn [value ret fst gl_texture_groups with_gl_texture_groups].
    by rewrite lookup_insert_eq.
  - unfold DeviceFeatureGroupTagHandler.
    rewrite value_bind, value_GetLabel. fold label.
    destruct (String.eqb_spec label ""); [done|]. rewrite value_bind.
    destruct (value (for_each _ _ _)) as [group valid].
    cbn [value ret fst device_feature_groups with_device_feature_groups].
    by rewrite lookup_insert_eq.
  - intros config' valid. unfold AbiGroupTagHandler.
    rewrite value_bind, value_GetLabel. fold label.
    destruct (String.eqb_spec label ""); [done|]. rewrite value_bind.
    destruct (value (for_each_x _ _ _)) as [[group v]|exn]; [|done].
    intros [= <- _]. cbn [abi_groups with_abi_groups].
    by rewrite lookup_insert_eq.
  - rewrite AndroidSdkGroupTagHandler_value by done.
    cbn [fst android_sdk_groups with_android_sdk_groups].
    destruct (last _); [|done]. by rewrite lookup_insert_eq.
Qed.

(** ** The format handler *)


(** ** The artifact handler: what it reads *)

(** One iteration of the attribute loop, for an attribute that does not
    make [std::stoi] throw. *)
Lemma ArtifactTagHandler_attr_step artifact ver attr :
  version_attribute_parses attr = true →
  let update n old :=
    if String.eqb (attr_name attr) n then Some (attr_value attr) else old in
  value (ArtifactTagHandler_attr (artifact, ver) attr) =
    Returned
      (mkConfiguredArtifact
         (update "name" (name artifact))
         (version artifact)
         (update "abi-group" (abi_group artifact))
         (update "screen-density-group" (screen_density_group artifact))
         (update "locale-group" (locale_group artifact))
         (update "android-sdk-group" (android_sdk_group artifact))
         (update "device-feature-group" (device_feature_group artifact))
         (update "gl-texture-group" (gl_texture_group artifact)),
       if String.eqb (attr_name attr) "version"
       then match cxx.stoi (attr_value attr) with
            | inr v => Some v
            | inl _ => None
            end
       else ver).
Proof.
  unfold ArtifactTagHandler_attr, version_attribute_parses. cbv zeta.
  destruct artifact as [n v a1 a2 a3 a4 a5 a6].
  destruct (String.eqb_spec (attr_name attr) "name") as [->|?]; [done|].
  destruct (String.eqb_spec (attr_name attr) "version") as [->|?].
  { by destruct (cxx.stoi (attr_value attr)). }
  destruct (String.eqb_spec (attr_name attr) "abi-group") as [->|?]; [done|].
  destruct (String.eqb_spec (attr_name attr) "screen-density-group")
    as [->|?]; [done|].
  destruct (String.eqb_spec (attr_name attr) "locale-group") as [->|?];
    [done|].
  destruct (String.eqb_spec (attr_name attr) "android-sdk-group") as [->|?];
    [done|].
  destruct (String.eqb_spec (attr_name attr) "gl-texture-group") as [->|?];
    [done|].
  by destruct (String.eqb_spec (attr_name attr) "device-feature-group").
Qed.

(** The state of the attribute loop after [attrs]: each member holds the
    value of the last attribute of its name, and what it held before
    without such an attribute. *)
Lemma attribute_loop_value attrs artifact ver :
  forallb version_attribute_parses attrs = true →
  let latest n old :=
    match attribute n attrs with
    | Some v => Some v
    | None => old
    end in
  value (for_each_x ArtifactTagHandler_attr attrs (artifact, ver)) =
    Returned
      (mkConfiguredArtifact
         (latest "name" (name artifact))
         (version artifact)
         (latest "abi-group" (abi_group artifact))
         (latest "screen-density-group" (screen_density_group artifact))
         (latest "locale-group" (locale_group artifact))
         (latest "android-sdk-group" (android_sdk_group artifact))
         (latest "device-feature-group" (device_feature_group artifact))
         (latest "gl-texture-group" (gl_texture_group artifact)),
       match attribute "version" attrs with
       | Some s =>
           match cxx.stoi s with
           | inr v => Some v
           | inl _ => None
           end
       | None => ver
       end).
Proof.
  revert artifact ver.
  induction attrs as [|attr attrs IH]; intros artifact ver Hparse; cbv zeta.
  { by destruct artifact. }
  cbn [forallb] in Hparse. apply andb_true_iff in Hparse as [Hattr Hparse].
  cbn [for_each_x]. rewrite value_bind.
  rewrite (ArtifactTagHandler_attr_step _ _ _ Hattr). cbv zeta.
  rewrite (IH _ _ Hparse). cbv zeta. rewrite !attribute_cons.
  cbn [name version abi_group screen_density_group locale_group
       android_sdk_group device_feature_group gl_texture_group].
  f_equal. f_equal; [f_equal|].
  all: match goal with
       | |- context [attribute ?n ?l] => destruct (attribute n l)
       end; [done|by destruct (String.eqb _ _)].
Qed.

Lemma ArtifactTagHandler_reads (config : Config) (e : Element) :
  let attrs := attributes e in
  version_attributes_parse e = true →
  value (ArtifactTagHandler config e) =
    Returned
      (push_artifact
         (mkConfiguredArtifact
            (attribute "name" attrs)
            (default (int_add (previous_version config) 1)
               (explicit_version attrs))
            (attribute "abi-group" attrs)
            (attribute "screen-density-group" attrs)
            (attribute "locale-group" attrs)
            (attribute "android-sdk-group" attrs)
            (attribute "device-feature-group" attrs)
            (attribute "gl-texture-group" attrs)) config, true).
Proof.
  intros attrs Hparse. rewrite ArtifactTagHandler_value.
  rewrite (attribute_loop_value _ _ _ Hparse). cbv zeta. fold attrs.
  unfold explicit_version, with_version.
  cbn [name version abi_group screen_density_group locale_group
       android_sdk_group device_feature_group gl_texture_group
       empty_artifact].
  do 3 f_equal.
  f_equal; match goal with
           | |- context [attribute ?n ?l] => by destruct (attribute n l)
           end.
Qed.

(** X17. What the artifact handler reads. When the [version] attributes of
    the element parse, the appended artifact takes its name and its six
    references each from the last attribute of that name, unset without
    such an attribute; its version is what [std::stoi] gives for the last
    [version] attribute, whatever the artifacts before, and only without
    [version] attribute the successor of the version declared last.
    Attributes of other names change nothing. *)
Theorem ArtifactTagHandler_reads_attributes (config : Config) (e : Element) :
  let attrs := attributes e in
  version_attributes_parse e = true →
  value (ArtifactTagHandler config e) =
    Returned
      (push_artifact
         (mkConfiguredArtifact
            (attribute "name" attrs)
            (default (int_add (previous_version config) 1)
               (explicit_version attrs))
            (attribute "abi-group" attrs)
            (attribute "screen-density-group" attrs)
            (attribute "locale-group" attrs)
            (attribute "android-sdk-group" attrs)
            (attribute "device-feature-group" attrs)
            (attribute "gl-texture-group" attrs)) config, true).
Proof. apply ArtifactTagHandler_reads. Qed.

(** X18. Automatic versions continue from the artifact declared last, not
    from the greatest version. When an artifact declared earlier already has
    the successor of the version declared last, an [artifact] element
    without [version] attribute is accepted by the handler, with that same
    version, and [Parse] then rejects the configuration for its duplicate
    versions. *)
Theorem auto_version_collides (config : Config) (e : Element)
    (apk_path : string) (a : ConfiguredArtifact) :
  has_version_attribute e = false →
  a ∈ artifacts config →
  version a = int_add (previous_version config) 1 →
  ∃ config',
    value (ArtifactTagHandler config e) = Returned (config', true) ∧
    Parse (Some config') apk_path =
      (Returned None,
     [mkDiag Error None "Configuration has duplicate versions"]).
Proof.
  intros Hnone Hin Hversion.
  destruct (ArtifactTagHandler_version config e) as (a0 & Hrun & _ & Hauto).
  { by apply no_version_attribute_parses. }
  exists (push_artifact a0 config). split; [done|].
  apply list_elem_of_lookup in Hin as [i Hi].
  assert (adjacent_find (std_sort (artifacts (push_artifact a0 config)))
          ≠ None) as Hdup.
  { apply (duplicate_adjacent_find _ i (length (artifacts config)) a a0).
    - apply lookup_lt_Some in Hi. lia.
    - cbn [artifacts push_artifact]. unfold push_back.
      by apply lookup_app_l_Some.
    - cbn [artifacts push_artifact]. unfold push_back.
      by rewrite list_lookup_middle.
    - by rewrite Hversion, Hauto. }
  unfold Parse. by rewrite bool_decide_true.
Qed.

(** ** The texture group handler: names and flag *)






(** ** Architecture names *)

(** X20. [AbiToString] and the table [kStringToAbiMap] of the architecture
    handler are inverse to each other: [AbiToString] never throws, the
    string it gives for an architecture is a key of the table that stands
    for this architecture, and a key of the table that stands for an
    architecture is the string [AbiToString] gives for it. *)
Theorem AbiToString_round_trip (abi : Abi) (s : string) :
  (∃ n, AbiToString abi = Returned n ∧ kStringToAbiMap !! n = Some abi) ∧
  (kStringToAbiMap !! s = Some abi ↔ AbiToString abi = Returned s).
Proof.
  split.
  - destruct abi; eexists; split; reflexivity.
  - split.
    + intros Hs.
      assert ((s, abi) ∈ map_to_list kStringToAbiMap) as Hin.
      { by apply elem_of_map_to_list. }
      unfold kStringToAbiMap in Hin.
      rewrite map_to_list_to_map in Hin
        by (apply (bool_decide_unpack _); by vm_compute).
      set_unfold in Hin.
      destruct Hin as [Hin|[Hin|[Hin|[Hin|[Hin|[Hin|[Hin|[Hin|[]]]]]]]]];
        by injection Hin as -> ->.
    + destruct abi; intros [= <-]; reflexivity.
Qed.

(** ** The name formatter: extension, base name, and what is left *)

Lemma EndsWith_suffix s suffix :
  util.EndsWith s suffix = true → ∃ pre, s = pre +:+ suffix.
Proof.
  unfold util.EndsWith. destruct (_ <? _)%nat; [done|].
  intros Hdrop%bool_decide_eq_true.
  set (k := (String.length s - String.length suffix)%nat) in *.
  exists (cxx.take k s). rewrite <-Hdrop. by rewrite str_take_drop.
Qed.

Lemma str_length_app s t :
  String.length (s +:+ t) = (String.length s + String.length t)%nat.
Proof. induction s as [|c s IH]; [done|]. simpl. by rewrite IH. Qed.

Lemma EndsWith_app pre suffix : util.EndsWith (pre +:+ suffix) suffix = true.
Proof.
  unfold util.EndsWith. rewrite str_length_app.
  destruct (Nat.ltb_spec (String.length pre + String.length suffix)
              (String.length suffix)) as [Hlt|_]; [lia|].
  apply bool_decide_eq_true.
  replace (String.length pre + String.length suffix - String.length suffix)%nat
    with (String.length pre) by lia.
  apply str_drop_app_length.
Qed.

Lemma ToBaseName_plain result apk_name :
  cxx.find "${basename}" result = None →
  cxx.find "${ext}" result = None →
  ToBaseName result apk_name =
    (Returned
       (Some (if util.EndsWith result (GetExtension apk_name) then result
              else result +:+ GetExtension apk_name)), []).
Proof.
  intros Hbase Hext. unfold ToBaseName. cbv zeta.
  rewrite Hbase. rewrite bool_decide_false by (by intros []).
  unfold bind at 1. cbn [ret]. rewrite Hext.
  rewrite bool_decide_false by (by intros []).
  by destruct (util.EndsWith result (GetExtension apk_name)).
Qed.

(** X21. A template with neither base name nor extension placeholder is
    always accepted, without a message: [ToBaseName] returns it as it is
    when it ends in the extension of the input file, and with that
    extension appended when it does not, so that the name ends in the
    extension in both cases. *)
Theorem ToBaseName_plain_template (result apk_name : string) :
  cxx.find "${basename}" result = None →
  cxx.find "${ext}" result = None →
  let ext := GetExtension apk_name in
  ((∃ pre, result = pre +:+ ext) →
   ToBaseName result apk_name = (Returned (Some result), [])) ∧
  ((∀ pre, result ≠ pre +:+ ext) →
   ToBaseName result apk_name = (Returned (Some (result +:+ ext)), [])).
Proof.
  intros Hbase Hext ext. rewrite (ToBaseName_plain _ _ Hbase Hext).
  fold ext. split.
  - intros [pre ->]. by rewrite EndsWith_app.
  - intros Hnot. destruct (util.EndsWith result ext) eqn:Hends; [|done].
    destruct (EndsWith_suffix _ _ Hends) as [pre Hpre]. by destruct (Hnot pre).
Qed.





(** X30. The extension placeholder needs an extension. With a file name
    that has one, [ToBaseName], [ToOutputArtifact] and [Parse] return. With
    a file name that has none, a template that still contains the extension
    placeholder once the base name has been handled makes [ToBaseName] hand
    the null piece to [ReplacePlaceholder], which reads it: [ToBaseName]
    does not return and has reported nothing, neither does the conversion
    of an artifact that the template applies to, nor [Parse] on a
    configuration with that artifact and pairwise different versions. *)
Theorem extension_placeholder_needs_extension (config : Config)
    (apk_path : string) (a : ConfiguredArtifact) (template r1 : string) :
  let apk_name := GetFilename apk_path in
  (GetExtension apk_name ≠ "" →
   (∃ r, value (ToBaseName template apk_name) = Returned r) ∧
   (∃ r, value (ToOutputArtifact a apk_name config) = Returned r) ∧
   (∃ r, value (Parse (Some config) apk_path) = Returned r)) ∧
  (GetExtension apk_name = "" →
   applicable_template config a = Some template →
   basename_stage template apk_name = Some r1 →
   cxx.find "${ext}" r1 ≠ None →
   ToBaseName template apk_name = (Thrown cxx.null_dereference, []) ∧
   ToOutputArtifact a apk_name config = (Thrown cxx.null_dereference, []) ∧
   (a ∈ artifacts config →
    NoDup (version <$> artifacts config) →
    value (Parse (Some config) apk_path) = Thrown cxx.null_dereference)).
Proof.
  intros apk_name. split.
  - intros Hext. split_and!.
    + by apply ToBaseName_returns.
    + rewrite ToOutputArtifact_returned
        by (by apply ToOutputArtifact_returns).
      by eexists.
    + rewrite Parse_returned by (by apply faults_with_extension).
      by eexists.
  - intros Hext Htemplate Hr1 Hfind.
    assert (value (ToBaseName template apk_name) =
              Thrown cxx.null_dereference) as Hvalue.
    { rewrite ToBaseName_value, Hr1, Hext.
      by rewrite bool_decide_true by done. }
    assert (faults apk_name config a = true) as Hfaults.
    { rewrite ToOutputArtifact_faults. unfold applicable_template in Htemplate.
      destruct (name a) as [own|].
      - injection Htemplate as ->. by rewrite Hvalue.
      - rewrite Htemplate. by rewrite Hvalue. }
    split_and!.
    + rewrite (W_eta (ToBaseName template apk_name)), Hvalue.
      by rewrite ToBaseName_emitted by (by rewrite Hvalue).
    + rewrite (W_eta (ToOutputArtifact a apk_name config)).
      rewrite (ToOutputArtifact_fault_quiet _ _ _ Hfaults). f_equal.
      unfold faults in Hfaults.
      destruct (value (ToOutputArtifact a apk_name config)) as [r|e] eqn:Ha;
        [done|].
      by rewrite (ToOutputArtifact_thrown _ _ _ _ Ha).
    + intros Hin Hnd. by apply (Parse_fault config apk_path a).
Qed.

Lemma ReplacePlaceholder_consumes p v n :
  fst (value (ReplacePlaceholder p v n)) = true →
  occurrences p (snd (value (ReplacePlaceholder p v n))) = 0%nat.
Proof.
  rewrite ReplacePlaceholder_value.
  destruct (cxx.find p n) as [o|] eqn:Hfind; destruct v as [label|];
    cbn [fst snd]; try done.
  - cbv zeta. cbn [fst snd]. intros Hnone%bool_decide_eq_true.
    by apply find_None_occurrences.
  - intros _. by apply find_None_occurrences.
Qed.

(** After [ToBaseName] the two optional placeholders are gone. *)
Lemma ToBaseName_consumes format apk_name r :
  well_formed format = true →
  no_dollar apk_name = true →
  no_dollar (GetExtension apk_name) = true →
  returned (value (ToBaseName format apk_name)) = Some r →
  occurrences "${basename}" r = 0%nat ∧ occurrences "${ext}" r = 0%nat.
Proof.
  intros Hwf Hname Hext Hr. rewrite ToBaseName_stages in Hr.
  destruct (basename_stage format apk_name) as [r1|] eqn:Hr1; [|done].
  cbn [mbind option_bind] in Hr.
  assert (well_formed r1 = true ∧ occurrences "${basename}" r1 = 0%nat)
    as [Hwf1 Hbase1].
  { unfold basename_stage in Hr1. case_bool_decide as Hfind.
    - cbv zeta in Hr1.
      destruct (ReplacePlaceholder_well_formed "${basename}"
                  (base_name_of apk_name) format) as [Hok Hstep];
        [by repeat constructor|done| |].
      { intros label. by apply no_dollar_base_name_of. }
      pose proof (ReplacePlaceholder_consumes "${basename}"
                    (base_name_of apk_name) format) as Hgone.
      destruct (fst (value (ReplacePlaceholder _ _ format))) eqn:Hfst;
        [|done].
      injection Hr1 as <-. split; [|by apply Hgone].
      symmetry in Hok. apply bool_decide_eq_true in Hok. by apply Hstep.
    - injection Hr1 as <-. split; [done|].
      by apply find_None_occurrences. }
  unfold ext_stage in Hr. cbv zeta in Hr. case_bool_decide as Hfind.
  - destruct (StringPiece_substr 1 _) as [piece|] eqn:Hpiece; [|done].
    apply StringPiece_substr_Some in Hpiece as ->.
    cbn [mbind option_bind] in Hr.
    destruct (ReplacePlaceholder_well_formed "${ext}"
                (Some (cxx.drop 1 (GetExtension apk_name))) r1)
      as [Hok Hstep]; [by repeat constructor|done| |].
    { intros label [= <-]. exact (no_dollar_drop 1 _ Hext). }
    pose proof (ReplacePlaceholder_consumes "${ext}"
                  (Some (cxx.drop 1 (GetExtension apk_name))) r1) as Hgone.
    destruct (fst (value (ReplacePlaceholder _ _ r1))) eqn:Hfst; [|done].
    injection Hr as <-. split; [|by apply Hgone].
    symmetry in Hok. apply bool_decide_eq_true in Hok.
    destruct (Hstep Hok) as [_ Hcount].
    rewrite Hcount; [done|by repeat constructor|done].
  - assert (occurrences "${ext}" r1 = 0%nat) as Hext1.
    { by apply find_None_occurrences. }
    destruct (util.EndsWith r1 _); injection Hr as <-; [done|].
    destruct (append_preserves r1 (GetExtension apk_name) Hext Hwf1)
      as [_ Hcount].
    rewrite !Hcount by (by repeat constructor). done.
Qed.

Lemma ReplacePlaceholders_consumes l n n' :
  NoDup l.*1 →
  Forall (λ pv, pv.1 ∈ placeholders ∧
                ∀ label, pv.2 = Some label → no_dollar label = true) l →
  well_formed n = true →
  value (ReplacePlaceholders l n) = Some n' →
  ∀ P, P ∈ l.*1 → occurrences P n' = 0%nat.
Proof.
  revert n. induction l as [|[p v] l IH]; intros n Hnd Hl Hwf.
  { intros _ P HP. by apply elem_of_nil in HP. }
  apply NoDup_cons in Hnd as [Hp Hnd].
  apply Forall_cons in Hl as [[Hin Hv] Hl]. cbn [fst snd] in *.
  rewrite ReplacePlaceholders_cons.
  destruct (ReplacePlaceholder_well_formed p v n Hin Hwf Hv) as [Hok Hstep].
  pose proof (ReplacePlaceholder_consumes p v n) as Hgone.
  destruct (fst (value (ReplacePlaceholder p v n))) eqn:Hfst; [|done].
  symmetry in Hok. apply bool_decide_eq_true in Hok.
  destruct (Hstep Hok) as [Hwf1 _]. intros Hrest P.
  rewrite fmap_cons. cbn [fst]. intros [->|HP]%elem_of_cons.
  - destruct (ReplacePlaceholders_preserves _ _ _ Hnd Hl Hwf1 Hrest)
      as [_ Hcount].
    rewrite Hcount by done. by apply Hgone.
  - by apply (IH _ Hnd Hl Hwf1 Hrest).
Qed.

Lemma no_placeholder_no_dollar s :
  well_formed s = true →
  (∀ P, P ∈ placeholders → occurrences P s = 0%nat) →
  no_dollar s = true.
Proof.
  induction s as [|c s IH]; [done|]. rewrite well_formed_cons.
  intros [Hhead Hwf]%andb_true_iff Hnone. cbn [no_dollar].
  destruct (Ascii.eqb c "$") eqn:Hc.
  - apply starts_placeholder_spec in Hhead as (R & HR & Hprefix).
    specialize (Hnone R HR). rewrite occurrences_cons, Hprefix in Hnone.
    done.
  - cbn [negb andb]. apply IH; [done|]. intros P HP.
    specialize (Hnone P HP). rewrite occurrences_cons in Hnone. lia.
Qed.

(** X23. Accepted means complete. On a template in which every ['$']
    starts a placeholder, with an input file name and labels free of ['$'],
    a name that [ToArtifactName] returns has no ['$'] left: each of the
    eight placeholders that occurred has been replaced. And [ToBaseName],
    which names an artifact from its own literal name, leaves no base name
    or extension placeholder behind. *)
Theorem ToArtifactName_no_placeholder_left (this : ConfiguredArtifact)
    (format apk_name : string) :
  well_formed format = true →
  no_dollar apk_name = true →
  no_dollar (GetExtension apk_name) = true →
  (∀ n, plain_labels this →
        returned (value (ToArtifactName this format apk_name)) = Some n →
        no_dollar n = true) ∧
  (∀ r, returned (value (ToBaseName format apk_name)) = Some r →
        occurrences "${basename}" r = 0%nat ∧
        occurrences "${ext}" r = 0%nat).
Proof.
  intros Hwf Hname Hext. split; [|intros r; by apply ToBaseName_consumes].
  intros n Hlabels Hn.
  rewrite ToArtifactName_value in Hn.
  destruct (returned (value (ToBaseName format apk_name))) as [base|] eqn:Hbase;
    [|done].
  cbn [mbind option_bind] in Hn.
  destruct (ToBaseName_well_formed _ _ _ Hwf Hname Hext Hbase) as [Hwf1 _].
  destruct (ToBaseName_consumes _ _ _ Hwf Hname Hext Hbase)
    as [Hbase0 Hext0].
  assert (Forall (λ pv, pv.1 ∈ placeholders ∧
                        ∀ label, pv.2 = Some label → no_dollar label = true)
            (axes this)) as Haxes.
  { apply Forall_forall. intros pv Hpv. split.
    - by destruct (axes_placeholders this pv Hpv).
    - unfold plain_labels in Hlabels. rewrite Forall_forall in Hlabels.
      by apply Hlabels. }
  destruct (ReplacePlaceholders_preserves _ _ _ (axes_NoDup this) Haxes
              Hwf1 Hn) as [Hwf2 Hkept].
  pose proof (ReplacePlaceholders_consumes _ _ _ (axes_NoDup this) Haxes
                Hwf1 Hn) as Hgone.
  apply no_placeholder_no_dollar; [done|]. intros P HP.
  destruct (decide (P ∈ (axes this).*1)) as [Hin|Hnotin]; [by apply Hgone|].
  rewrite Hkept by done.
  apply elem_of_placeholders in HP
    as [->|[->|[->|[->|[->|[->|[->| ->]]]]]]]; try done.
  all: destruct Hnotin.
  all: change ((axes this).*1)
         with ["${abi}"; "${density}"; "${locale}"; "${sdk}"; "${feature}";
               "${gl}"].
  all: repeat first [apply list_elem_of_here|apply list_elem_of_further].
Qed.

(** ** What the resolver does not check *)

(** X24. [Parse] checks the versions for duplicates and not the names: two
    declared artifacts of different versions with the same literal name are
    both converted, and the returned list has two outputs of one and the
    same name. *)
Theorem Parse_allows_equal_names (config : Config) (apk_path : string)
    (a b : ConfiguredArtifact) (own : string) (outs : list Output) :
  a ∈ artifacts config → b ∈ artifacts config →
  version a ≠ version b →
  name a = Some own → name b = Some own →
  returned (value (Parse (Some config) apk_path)) = Some outs →
  ∃ i j oa ob,
    i ≠ j ∧ outs !! i = Some oa ∧ outs !! j = Some ob ∧
    resolve (GetFilename apk_path) config a = Some oa ∧
    resolve (GetFilename apk_path) config b = Some ob ∧
    out_name oa = out_name ob.
Proof.
  intros Ha Hb Hversion Hna Hnb Houts.
  rewrite Parse_value in Houts. cbv zeta in Houts.
  case_bool_decide; [done|].
  destruct (existsb _ _) eqn:Hex; [done|]. injection Houts as <-.
  pose proof (omap_resolve_Forall2 _ _ _ Hex) as Hall.
  rewrite <-(std_sort_Permutation (artifacts config)) in Ha, Hb.
  apply list_elem_of_lookup in Ha as [i Hi].
  apply list_elem_of_lookup in Hb as [j Hj].
  destruct (Forall2_lookup_l _ _ _ _ _ Hall Hi) as (oa & Hoa & Hra).
  destruct (Forall2_lookup_l _ _ _ _ _ Hall Hj) as (ob & Hob & Hrb).
  exists i, j, oa, ob. split_and!; try done.
  - intros ->. rewrite Hi in Hj. by injection Hj as ->.
  - pose proof (ToOutputArtifact_value (GetFilename apk_path) config a)
      as Hva.
    pose proof (ToOutputArtifact_value (GetFilename apk_path) config b)
      as Hvb.
    rewrite Hra in Hva. rewrite Hrb in Hvb.
    rewrite (resolved_name_own _ _ _ _ Hna) in Hva.
    rewrite (resolved_name_own _ _ _ _ Hnb) in Hvb.
    destruct (returned (value (ToBaseName own (GetFilename apk_path)))) as [n|];
      [|done].
    cbn [mbind option_bind] in Hva, Hvb.
    assert (out_name oa = n) as ->.
    { repeat match type of Hva with
             | context [referenced ?x ?y] =>
                 destruct (referenced x y); [|done]
             | context [referenced_sdk ?x ?y] =>
                 destruct (referenced_sdk x y); [|done]
             end.
      cbn [mbind option_bind] in Hva. by injection Hva as ->. }
    repeat match type of Hvb with
           | context [referenced ?x ?y] =>
               destruct (referenced x y); [|done]
           | context [referenced_sdk ?x ?y] =>
               destruct (referenced_sdk x y); [|done]
           end.
    cbn [mbind option_bind] in Hvb. by injection Hvb as ->.
Qed.

(** X25. The order in which the artifacts are declared has no effect on
    [Parse]: for the same artifacts declared in another order, and the same
    format and groups, it returns the same list, or nothing, and reports the
    same. *)
Theorem Parse_declaration_order_irrelevant (config : Config)
    (declared : list ConfiguredArtifact) (apk_path : string) :
  declared ≡ₚ artifacts config →
  Parse (Some (with_artifacts declared config)) apk_path =
    Parse (Some config) apk_path.
Proof.
  intros Hperm. unfold Parse. cbn [artifacts with_artifacts].
  destruct (decide (NoDup (version <$> artifacts config))) as [Hnd|Hdup].
  - assert (std_sort declared = std_sort (artifacts config)) as ->; [|done].
    apply std_sort_unique.
    + by rewrite std_sort_Permutation.
    + apply std_sort_Sorted.
    + apply adjacent_find_std_sort. by rewrite Hperm.
  - rewrite !bool_decide_true; [done| |].
    + intros Hnone. by apply Hdup, adjacent_find_std_sort.
    + intros Hnone. apply Hdup. rewrite <-Hperm.
      by apply adjacent_find_std_sort.
Qed.

(** ** The artifact handler: order of the attributes *)

Lemma attribute_Some n attrs v :
  NoDup (attr_name <$> attrs) →
  attribute n attrs = Some v ↔ mkAttribute n v ∈ attrs.
Proof.
  revert v. induction attrs as [|attr attrs IH]; intros v Hnd.
  { split; [done|]. by intros ?%elem_of_nil. }
  rewrite fmap_cons in Hnd. apply NoDup_cons in Hnd as [Hnotin Hnd].
  rewrite attribute_cons, elem_of_cons.
  destruct (attribute n attrs) as [w|] eqn:Hw.
  - pose proof (proj1 (IH w Hnd) eq_refl) as Hin. split.
    + intros [= <-]. by right.
    + intros [<-|Hv]; [|by apply IH in Hv].
      destruct Hnotin. apply list_elem_of_fmap.
      by exists (mkAttribute n w).
  - destruct (String.eqb_spec (attr_name attr) n) as [<-|Hne]; split.
    + intros [= <-]. left. by destruct attr.
    + intros [Heq|Hv]; [by rewrite <-Heq|].
      by apply (IH v Hnd) in Hv.
    + done.
    + intros [Heq|Hv]; [destruct Hne; by rewrite <-Heq|].
      by apply (IH v Hnd) in Hv.
Qed.

Lemma attribute_Permutation n attrs attrs' :
  attrs ≡ₚ attrs' → NoDup (attr_name <$> attrs) →
  attribute n attrs = attribute n attrs'.
Proof.
  intros Hperm Hnd.
  assert (NoDup (attr_name <$> attrs')) as Hnd' by by rewrite <-Hperm.
  destruct (attribute n attrs) as [v|] eqn:Hv.
  - symmetry. apply attribute_Some; [done|]. rewrite <-Hperm.
    by apply attribute_Some.
  - destruct (attribute n attrs') as [v'|] eqn:Hv'; [|done].
    apply attribute_Some in Hv'; [|done]. rewrite <-Hperm in Hv'.
    apply attribute_Some in Hv'; [|done]. by rewrite Hv in Hv'.
Qed.

(** With attributes of different names, the one [version] attribute that
    does not parse decides the exception. *)
Lemma attribute_loop_thrown attrs artifact ver s exn :
  NoDup (attr_name <$> attrs) →
  attribute "version" attrs = Some s → cxx.stoi s = inl exn →
  value (for_each_x ArtifactTagHandler_attr attrs (artifact, ver)) =
    Thrown exn.
Proof.
  revert artifact ver.
  induction attrs as [|attr attrs IH]; intros artifact ver Hnd Hs Hstoi;
    [done|].
  pose proof Hnd as Hnd0.
  rewrite fmap_cons in Hnd. apply NoDup_cons in Hnd as [Hnotin Hnd].
  cbn [for_each_x]. rewrite value_bind.
  destruct (ArtifactTagHandler_attr_value artifact ver attr)
    as [[Hv ->]|[Hv (artifact' & ->)]].
  - apply String.eqb_eq in Hv.
    assert (attr_value attr = s) as ->.
    { apply (attribute_Some _ _ _ Hnd0) in Hs.
      apply elem_of_cons in Hs as [<-|Hs]; [done|].
      destruct Hnotin. apply list_elem_of_fmap.
      exists (mkAttribute "version" s). by rewrite Hv. }
    by rewrite Hstoi.
  - apply IH; [done| |done]. rewrite attribute_cons, Hv in Hs.
    by destruct (attribute "version" attrs).
Qed.

Lemma version_attributes_fail attrs :
  forallb version_attribute_parses attrs = false →
  NoDup (attr_name <$> attrs) →
  ∃ s exn, attribute "version" attrs = Some s ∧ cxx.stoi s = inl exn.
Proof.
  intros Hfail Hnd.
  assert (∃ attr, attr ∈ attrs ∧ version_attribute_parses attr = false)
    as (attr & Hin & Hattr).
  { induction attrs as [|attr attrs IH]; [done|].
    cbn [forallb] in Hfail. apply andb_false_iff in Hfail as [Hattr|Hrest].
    - exists attr. split; [apply list_elem_of_here|done].
    - rewrite fmap_cons in Hnd. apply NoDup_cons in Hnd as [_ Hnd].
      destruct (IH Hrest Hnd) as (attr' & Hin & Hattr').
      exists attr'. split; [by apply list_elem_of_further|done]. }
  unfold version_attribute_parses in Hattr.
  destruct (String.eqb_spec (attr_name attr) "version") as [Hn|]; [|done].
  destruct (cxx.stoi (attr_value attr)) as [exn|v] eqn:Hstoi; [|done].
  exists (attr_value attr), exn. split; [|done].
  apply attribute_Some; [done|]. rewrite <-Hn. by destruct attr.
Qed.

Lemma forallb_Permutation {A} (f : A → bool) l l' :
  l ≡ₚ l' → forallb f l = forallb f l'.
Proof.
  induction 1 as [|x l l' _ IH|x y l|l l' l'' _ IH1 _ IH2]; cbn [forallb].
  - done.
  - by rewrite IH.
  - by rewrite !andb_assoc, (andb_comm (f y)).
  - by rewrite IH1.
Qed.

(** X26. The attributes of an element have different names, and then their
    order does not matter to the artifact handler: on two elements with the
    same attributes in any order, whatever their other content, it returns
    the same configuration or throws the same exception. *)
Theorem ArtifactTagHandler_attribute_order (config : Config)
    (e e' : Element) :
  attributes e ≡ₚ attributes e' →
  NoDup (attr_name <$> attributes e) →
  value (ArtifactTagHandler config e) = value (ArtifactTagHandler config e').
Proof.
  intros Hperm Hnd.
  assert (NoDup (attr_name <$> attributes e')) as Hnd' by by rewrite <-Hperm.
  destruct (version_attributes_parse e) eqn:Hparse.
  - assert (version_attributes_parse e' = true) as Hparse'.
    { unfold version_attributes_parse in *.
      by rewrite <-(forallb_Permutation _ _ _ Hperm). }
    rewrite !ArtifactTagHandler_reads by done. cbv zeta.
    unfold explicit_version.
    by rewrite !(attribute_Permutation _ _ _ Hperm Hnd).
  - assert (version_attributes_parse e' = false) as Hparse'.
    { unfold version_attributes_parse in *.
      by rewrite <-(forallb_Permutation _ _ _ Hperm). }
    destruct (version_attributes_fail _ Hparse Hnd) as (s & exn & Hs & Hstoi).
    rewrite !ArtifactTagHandler_value.
    rewrite (attribute_loop_thrown _ _ _ s exn Hnd Hs Hstoi).
    rewrite (attribute_loop_thrown _ _ _ s exn Hnd'); [done| |done].
    by rewrite <-(attribute_Permutation _ _ _ Hperm Hnd).
Qed.

(** ** The document: namespaces and structural errors *)

Lemma xml_Element_ind' (P : xml.Element → Prop) :
  (∀ ns n attrs cs,
     Forall (λ c, match c with
                  | xml.ElementNode e => P e
                  | xml.TextNode _ => True
                  end) cs →
     P (xml.mkElement ns n attrs cs)) →
  ∀ e, P e.
Proof.
  intros H. fix IH 1. intros [ns n attrs cs]. apply H.
  revert cs. fix IHcs 1. intros [|c cs]; constructor.
  - destruct c as [e|t]; [apply IH|exact I].
  - apply IHcs.
Qed.

Lemma NamespaceVisitor_no_namespace e :
  no_namespace (NamespaceVisitor_Visit e) = true.
Proof.
  induction e as [ns n attrs cs IH] using xml_Element_ind'.
  cbn [NamespaceVisitor_Visit no_namespace andb String.eqb].
  induction IH as [|c cs Hc _ IHcs]; [done|].
  cbn [List.map forallb]. rewrite IHcs, andb_true_r. by destruct c.
Qed.

Lemma NamespaceVisitor_keeps e :
  without_namespaces (NamespaceVisitor_Visit e) = without_namespaces e.
Proof.
  induction e as [ns n attrs cs IH] using xml_Element_ind'.
  cbn [NamespaceVisitor_Visit without_namespaces]. f_equal.
  induction IH as [|c cs Hc _ IHcs]; [done|].
  cbn [List.map]. rewrite IHcs. f_equal. destruct c; [|done]. by rewrite Hc.
Qed.

Lemma NamespaceVisitor_fixed e :
  no_namespace e = true → NamespaceVisitor_Visit e = e.
Proof.
  induction e as [ns n attrs cs IH] using xml_Element_ind'.
  cbn [NamespaceVisitor_Visit no_namespace].
  intros [Hns%String.eqb_eq Hcs]%andb_true_iff. subst ns. f_equal.
  induction IH as [|c cs Hc _ IHcs]; [done|].
  cbn [forallb] in Hcs. apply andb_true_iff in Hcs as [Hhead Hcs].
  cbn [List.map]. rewrite (IHcs Hcs). f_equal.
  destruct c; [|done]. by rewrite (Hc Hhead).
Qed.

(** X27. The namespace visitor clears the namespace URI of every element of
    the tree and changes nothing else: names, attributes, texts and the
    order of the children are as before, so a handler sees the same
    element. A tree without namespace URI is left as it is, and visiting
    twice is the same as visiting once. *)
Theorem NamespaceVisitor_clears_namespaces (e : xml.Element) :
  no_namespace (NamespaceVisitor_Visit e) = true ∧
  without_namespaces (NamespaceVisitor_Visit e) = without_namespaces e ∧
  (no_namespace e = true → NamespaceVisitor_Visit e = e) ∧
  NamespaceVisitor_Visit (NamespaceVisitor_Visit e) = NamespaceVisitor_Visit e.
Proof.
  split_and!.
  - apply NamespaceVisitor_no_namespace.
  - apply NamespaceVisitor_keeps.
  - apply NamespaceVisitor_fixed.
  - apply NamespaceVisitor_fixed, NamespaceVisitor_no_namespace.
Qed.

Lemma bind_pair {A B} (a : A) (l : list DiagMessage) (f : A → W B) :
  bind (a, l) f = (value (f a), l ++ emitted (f a)).
Proof. unfold bind. by destruct (f a). Qed.

Lemma ConfigurationParser_Parse_None contents messages :
  ExtractConfiguration contents = (Returned None, messages) →
  ∀ apk_path,
    ConfigurationParser_Parse contents apk_path = (Returned None, messages).
Proof.
  intros Hextract apk_path. unfold ConfigurationParser_Parse.
  rewrite Hextract. unfold bind. simpl. by rewrite app_nil_r.
Qed.

(** X28. A structural error of the document ends the pass before any
    handler runs. When the inflater gives no document, when the document
    has no root element, and when the root element has a namespace URI
    other than the one of aapt, [ExtractConfiguration] gives no
    configuration and [Parse] returns nothing; what has been reported is
    what the inflater reported, followed by the one error that names the
    cause, if the cause is not the inflater's. And when the executor
    returns [false], the configuration that the handlers have built is
    dropped: [Parse] returns nothing, the last message being that the
    document could not be processed. *)
Theorem structural_errors_abort (contents apk_path : string) :
  let messages := emitted (Inflate contents) in
  let aborts cause :=
    ExtractConfiguration contents = (Returned None, messages ++ cause) ∧
    ConfigurationParser_Parse contents apk_path =
      (Returned None, messages ++ cause) in
  (value (Inflate contents) = None → aborts []) ∧
  (∀ doc,
     value (Inflate contents) = Some doc → xml.root doc = None →
     aborts [mkDiag Error None
               "Could not find the root element in the XML document"]) ∧
  (∀ doc root,
     value (Inflate contents) = Some doc → xml.root doc = Some root →
     xml.namespace_uri root ≠ "" → xml.namespace_uri root ≠ kAaptXmlNs →
     aborts [mkDiag Error None
               ("Unknown namespace found on root element: " +:+
                xml.namespace_uri root)]) ∧
  (∀ doc root config,
     value (Inflate contents) = Some doc → xml.root doc = Some root →
     (xml.namespace_uri root = "" ∨ xml.namespace_uri root = kAaptXmlNs) →
     value (Execute actions (executed_document doc root) empty_config) =
       Returned (config, false) →
     aborts (emitted (Execute actions (executed_document doc root)
                        empty_config) ++
             [mkDiag Error None "Could not process XML document"])).
Proof.
  cbv zeta.
  assert (∀ cause,
            ExtractConfiguration contents =
              (Returned None, emitted (Inflate contents) ++ cause) →
            ExtractConfiguration contents =
              (Returned None, emitted (Inflate contents) ++ cause) ∧
            ConfigurationParser_Parse contents apk_path =
              (Returned None, emitted (Inflate contents) ++ cause))
    as Haborts.
  { intros cause Hextract. split; [done|].
    by apply ConfigurationParser_Parse_None. }
  split_and!.
  - intros Hnone. apply Haborts. unfold ExtractConfiguration.
    rewrite (W_eta (Inflate contents)), Hnone. done.
  - intros doc Hdoc Hroot. apply Haborts. unfold ExtractConfiguration.
    rewrite (W_eta (Inflate contents)), Hdoc.
    unfold bind at 1. by rewrite Hroot.
  - intros doc root Hdoc Hroot Hns Haapt. apply Haborts.
    unfold ExtractConfiguration.
    rewrite (W_eta (Inflate contents)), Hdoc.
    unfold bind at 1. rewrite Hroot. cbv zeta.
    apply String.eqb_neq in Hns, Haapt. by rewrite Hns, Haapt.
  - intros doc root config Hdoc Hroot Hns Hexecute. apply Haborts.
    unfold ExtractConfiguration.
    rewrite (W_eta (Inflate contents)), Hdoc.
    unfold bind at 1. rewrite Hroot. cbv zeta.
    fold (executed_document doc root).
    assert (negb (String.eqb (xml.namespace_uri root) "") &&
            negb (String.eqb (xml.namespace_uri root) kAaptXmlNs) = false)
      as ->.
    { destruct Hns as [->| ->]; reflexivity. }
    rewrite (W_eta (Execute _ _ _)), Hexecute. unfold bind. by simpl.
Qed.

(** X29. A document whose root element is in the namespace of aapt is
    handled exactly as the same document with every namespace URI removed:
    the namespaces of the elements below such a root are cleared before the
    executor sees them. *)
Theorem aapt_namespace_is_cleared (contents contents' : string)
    (root : xml.Element) (messages : list DiagMessage) :
  Inflate contents = (Some (xml.mkXmlResource (Some root)), messages) →
  Inflate contents' =
    (Some (xml.mkXmlResource (Some (NamespaceVisitor_Visit root))),
     messages) →
  xml.namespace_uri root = kAaptXmlNs →
  ExtractConfiguration contents = ExtractConfiguration contents'.
Proof.
  intros Hdoc Hdoc' Hns. unfold ExtractConfiguration.
  rewrite Hdoc, Hdoc', !bind_pair. cbn [xml.root]. cbv zeta.
  assert (xml.namespace_uri (NamespaceVisitor_Visit root) = "") as ->.
  { by destruct root. }
  by rewrite Hns.
Qed.

End Parser.

(** * The properties on the sample documents *)

(** The helpers of [util/] are instantiated with the stand-ins of [host],
    which agree with them on the file names used here. *)

(** The second artifact names the undeclared group [x86]: nothing is
    returned, although the first artifact converts. *)
Lemma Parse_all_or_nothing_witness :
  sample.artifact (Some "b") 2 (Some "x86") None
    ∈ artifacts sample.missing_group ∧
  missing_label sample.missing_group
    (sample.artifact (Some "b") 2 (Some "x86") None) ∧
  value (Parse host.GetFilename host.GetExtension
           (Some sample.missing_group) "out/app.apk") = Returned None.
Proof.
  assert (sample.artifact (Some "b") 2 (Some "x86") None
            ∈ artifacts sample.missing_group) as Hin.
  { apply list_elem_of_further, list_elem_of_here. }
  assert (missing_label sample.missing_group
            (sample.artifact (Some "b") 2 (Some "x86") None)) as Hmissing.
  { left. exists "x86". split; reflexivity. }
  split_and!; [done..|].
  refine (proj2 (Parse_all_or_nothing host.GetFilename host.GetExtension
                   sample.missing_group "out/app.apk" _ Hin
                   (or_intror Hmissing)) _).
  discriminate.
Defined.

(** The returned list is not in declaration order: the artifact declared
    first, with version 2, comes last. *)
Lemma Parse_declaration_order_counterexample :
  ¬ (∀ (config : PostProcessingConfiguration unit) (apk_path : string)
       (outs : list (OutputArtifact unit)),
       returned (value (Parse host.GetFilename host.GetExtension
                          (Some config) apk_path)) = Some outs →
       Forall2
         (λ a o, resolve host.GetExtension (host.GetFilename apk_path)
                   config a = Some o)
         (artifacts config) outs).
Proof.
  intros Hall.
  specialize (Hall sample.named "out/app.apk" _ eq_refl).
  apply Forall2_cons_1 in Hall as [Hfirst _].
  vm_compute in Hfirst. discriminate Hfirst.
Qed.

(** Declared with versions 2 and 1, returned in the order 1, 2. *)
Lemma Parse_version_order_witness :
  ∃ outs,
    returned (value (Parse host.GetFilename host.GetExtension
                       (Some sample.named) "out/app.apk")) = Some outs ∧
    out_name <$> outs = ["a.apk"; "b.apk"] ∧
    version <$> artifacts sample.named = [2; 1] ∧
    StronglySorted version_lt (std_sort (artifacts sample.named)).
Proof.
  eexists. split; [reflexivity|]. split_and!; [reflexivity..|].
  exact (proj1 (proj2 (Parse_version_order host.GetFilename host.GetExtension
                         sample.named "out/app.apk" _ eq_refl))).
Defined.

(** Two artifacts of version 1: one error and no list. *)
Lemma Parse_duplicate_versions_witness :
  Parse host.GetFilename host.GetExtension (Some sample.same_version)
    "out/app.apk" =
    (Returned None,
     [mkDiag Error None "Configuration has duplicate versions"]).
Proof.
  refine (proj2 (Parse_duplicate_versions host.GetFilename host.GetExtension
                   sample.same_version "out/app.apk" 0 1 _ _ _ eq_refl
                   eq_refl eq_refl)).
  discriminate.
Defined.

(** C4, where the code departs from it. The format [${abi}] has the
    architecture placeholder exactly once and the artifact refers to an
    architecture group, the one labelled [${abi}]: the claim has the
    placeholder replaced by the label and the name formed. The code
    replaces it and then looks for a second instance in the name after the
    replacement, where it finds the text of the label: formatting fails with
    the message of a placeholder that is present several times. The text
    put in is searched for the later placeholders too: with the label
    [${density}] and a density reference [hdpi], the same format, in which
    the density placeholder occurs zero times, is formatted to
    [hdpi.apk]. *)
Theorem ToArtifactName_rescans_label :
  (occurrences "${abi}" "${abi}" = 1%nat ∧
   abi_group sample.abi_labelled_abi = Some "${abi}" ∧
   ToArtifactName host.GetExtension sample.abi_labelled_abi "${abi}" "app.apk"
   = (Returned None,
      [mkDiag Error None "Placeholder present multiple times: ${abi}"])) ∧
  (occurrences "${density}" "${abi}" = 0%nat ∧
   abi_group sample.abi_labelled_density = Some "${density}" ∧
   screen_density_group sample.abi_labelled_density = Some "hdpi" ∧
   ToArtifactName host.GetExtension sample.abi_labelled_density "${abi}"
     "app.apk"
   = (Returned (Some "hdpi.apk"), [])).
Proof. by vm_compute. Qed.

(** An artifact with a name of its own that refers to a texture group is
    converted although its name has no texture placeholder. *)
Lemma texture_placeholder_counterexample :
  ¬ (∀ (config : PostProcessingConfiguration unit) (apk_path : string)
       (a : ConfiguredArtifact) (g template : string),
       a ∈ artifacts config →
       gl_texture_group a = Some g →
       applicable_template config a = Some template →
       occurrences "${gl}" template = 0%nat →
       returned (value (Parse host.GetFilename host.GetExtension
                          (Some config) apk_path)) = None).
Proof.
  intros Hall.
  specialize (Hall sample.named "out/app.apk"
                (sample.artifact (Some "a") 1 None (Some "dxt1")) "dxt1" "a").
  discriminate Hall; [|reflexivity..].
  apply list_elem_of_further, list_elem_of_here.
Qed.

(** The format [${basename}.${abi}.${ext}] has no texture placeholder: the
    artifact that refers to the texture group [dxt1] is not converted, and
    [Parse] returns nothing. The artifact named [a] refers to the same
    group and is converted to [a.apk], with the texture of the group. *)
Lemma texture_reference_needs_placeholder_witness :
  (well_formed "${basename}.${abi}.${ext}" = true ∧
   occurrences "${gl}" "${basename}.${abi}.${ext}" = 0%nat ∧
   value (ToOutputArtifact host.GetExtension
            (sample.artifact None 1 (Some "arm") (Some "dxt1"))
            (host.GetFilename "out/app.apk") sample.format_without_gl)
     = Returned None ∧
   value (Parse host.GetFilename host.GetExtension
            (Some sample.format_without_gl) "out/app.apk") = Returned None) ∧
  (∃ out : OutputArtifact unit,
     ToOutputArtifact host.GetExtension
       (sample.artifact (Some "a") 1 None (Some "dxt1"))
       (host.GetFilename "out/app.apk") sample.named
       = (Returned (Some out), []) ∧
     out_name out = "a.apk" ∧
     gl_texture_groups sample.named !! "dxt1" = Some (textures out) ∧
     length (textures out) = 1%nat).
Proof.
  split.
  - split; [reflexivity|]. split; [reflexivity|].
    destruct (texture_reference_needs_placeholder host.GetFilename
                host.GetExtension sample.format_without_gl "out/app.apk"
                (sample.artifact None 1 (Some "arm") (Some "dxt1")) "dxt1")
      as [Hformat _]; [apply list_elem_of_here|reflexivity|].
    destruct (Hformat "${basename}.${abi}.${ext}") as (_ & _ & Hclean);
      [reflexivity..| |reflexivity|].
    { repeat constructor; cbn; intros label [= <-]; reflexivity. }
    apply Hclean. discriminate.
  - destruct (texture_reference_needs_placeholder host.GetFilename
                host.GetExtension sample.named "out/app.apk"
                (sample.artifact (Some "a") 1 None (Some "dxt1")) "dxt1")
      as [_ Hown];
      [apply list_elem_of_further, list_elem_of_here|reflexivity|].
    destruct (Hown "a" "a.apk") as (out & Hout & Hname & Htextures);
      [reflexivity|reflexivity| |].
    { intros [(l & Hl & _)|[(l & Hl & _)|[(l & Hl & _)|[(l & Hl & _)|
        [(l & Hl & Hg)|(l & Hl & _)]]]]]; try discriminate Hl.
      injection Hl as <-. discriminate Hg. }
    exists out. split_and!; [exact Hout|exact Hname|exact Htextures|].
    vm_compute in Hout. injection Hout as <-. reflexivity.
Defined.

(** After an artifact of version [INT_MAX], the automatic version is not one
    more: the addition wraps to [INT_MIN]. *)
Lemma auto_assigned_version_counterexample :
  ¬ (∀ (es : list Element) (config : PostProcessingConfiguration unit)
       (k : nat) (e : Element) (a prev : ConfiguredArtifact),
       value (declare_artifacts es empty_config) = Returned config →
       es !! S k = Some e →
       has_version_attribute e = false →
       artifacts config !! S k = Some a →
       artifacts config !! k = Some prev →
       version a = version prev + 1).
Proof.
  intros Hall.
  specialize (Hall [sample.artifact_max; sample.artifact_plain] _ 0%nat
                _ _ _ eq_refl eq_refl eq_refl eq_refl eq_refl).
  vm_compute in Hall. discriminate Hall.
Qed.

(** Three declarations, the second one with version 5: the versions are 1, 5
    and 6; and a declaration without version on the empty configuration
    gets 1. *)
Lemma auto_assigned_version_witness :
  (∃ config : PostProcessingConfiguration unit,
     value (declare_artifacts
              [sample.artifact_plain; sample.artifact_5; sample.artifact_plain]
              empty_config) = Returned config ∧
     version <$> artifacts config = [1; 5; 6]) ∧
  (∃ a,
     value (ArtifactTagHandler (ConfigDescription := unit) empty_config
              sample.artifact_plain) =
       Returned (push_artifact a empty_config, true) ∧
     version a = 1).
Proof.
  destruct (auto_assigned_version (ConfigDescription := unit)
              [sample.artifact_plain; sample.artifact_5; sample.artifact_plain]
              empty_config sample.artifact_plain) as [Hone Hpass].
  split.
  - destruct (Hpass eq_refl) as (config & Hrun & _ & _).
    exists config. split; [exact Hrun|].
    vm_compute in Hrun. injection Hrun as <-. reflexivity.
  - exact (Hone eq_refl).
Defined.

(** The group [arm] has two entries: the artifact that refers to it carries
    these two, in that order, and no texture. *)
Lemma ToOutputArtifact_copies_references_witness :
  ∃ out : OutputArtifact unit,
    resolve host.GetExtension "app.apk" sample.named
      (sample.artifact (Some "b") 2 (Some "arm") None) = Some out ∧
    abis out = [kArmeV6; kArmV7a] ∧
    abi_groups sample.named !! "arm" = Some (abis out) ∧
    textures out = [] ∧
    emitted (ToOutputArtifact host.GetExtension
               (sample.artifact (Some "b") 2 (Some "arm") None) "app.apk"
               sample.named) = [].
Proof.
  eexists. split; [reflexivity|]. split; [reflexivity|].
  destruct (ToOutputArtifact_copies_references host.GetExtension "app.apk"
              sample.named (sample.artifact (Some "b") 2 (Some "arm") None)
              _ eq_refl)
    as (Habis & _ & _ & _ & Htextures & _ & Hquiet).
  split_and!; [exact Habis|exact Htextures|exact Hquiet].
Defined.

(** On an [abi-group] whose second entry reads "bogus", nothing is returned,
    nothing is reported, and the third entry is not looked at. *)
Lemma AbiGroupTagHandler_unknown_abi_witness :
  label_attribute (attributes sample.abi_group_element) = "arm" ∧
  AbiGroupTagHandler (ConfigDescription := unit) host.TrimWhitespace
    empty_config sample.abi_group_element = (Thrown cxx.out_of_range, []).
Proof.
  split; [reflexivity|].
  destruct (AbiGroupTagHandler_unknown_abi_throws (ConfigDescription := unit)
              host.TrimWhitespace empty_config sample.abi_group_element)
    as [Hthrown _]; [discriminate|reflexivity|].
  rewrite (W_eta (AbiGroupTagHandler _ _ _)), Hthrown. reflexivity.
Defined.

(** Two textures of one path each: two entries, the second one with both
    paths. *)
Lemma GlTextureGroupTagHandler_accumulates_witness :
  ∃ valid,
    value (GlTextureGroupTagHandler (ConfigDescription := unit)
             host.TrimWhitespace empty_config sample.gl_texture_group_element)
    = (with_gl_texture_groups
         {["dxt1" := [mkGlTexture "GL_EXT_a" ["assets/a/*"];
                      mkGlTexture "GL_EXT_b" ["assets/a/*"; "assets/b/*"]]]}
         empty_config, valid).
Proof.
  destruct (GlTextureGroupTagHandler_accumulates (ConfigDescription := unit)
              host.TrimWhitespace empty_config sample.gl_texture_group_element)
    as (pushed & valid & Hrun & _ & _); [done|].
  exists valid. vm_compute in Hrun |- *. injection Hrun as <- <-. reflexivity.
Defined.

(** [version="5"] is accepted; [version="one"] makes [std::stoi] throw. *)
Lemma ArtifactTagHandler_total_witness :
  (∃ artifact,
     value (ArtifactTagHandler (ConfigDescription := unit) empty_config
              sample.artifact_5) =
       Returned (push_artifact artifact empty_config, true)) ∧
  (∃ exn,
     value (ArtifactTagHandler (ConfigDescription := unit) empty_config
              sample.artifact_text) = Thrown exn).
Proof.
  destruct (ArtifactTagHandler_total (ConfigDescription := unit) empty_config
              sample.artifact_5) as (Hreturns & _ & _).
  destruct (ArtifactTagHandler_total (ConfigDescription := unit) empty_config
              sample.artifact_text) as (_ & Hthrows & _).
  split.
  - destruct (Hreturns eq_refl) as (artifact & Hrun & _). by exists artifact.
  - exact (Hthrows eq_refl).
Defined.

(** The example of the specification: base name [app.apk] and template
    [out-${basename}] give [out-app.apk], the extension being appended. *)
Example ToBaseName_appends_extension :
  ToBaseName host.GetExtension "out-${basename}" "app.apk" =
    (Returned (Some "out-app.apk"), []).
Proof. reflexivity. Qed.

(** A well-formed format with one placeholder per reference is accepted and
    every placeholder is replaced. *)
Example ToArtifactName_well_formed_format :
  well_formed "${basename}.${abi}.${gl}.${ext}" = true ∧
  ToArtifactName host.GetExtension
    (sample.artifact None 1 (Some "arm") (Some "dxt1"))
    "${basename}.${abi}.${gl}.${ext}" "app.apk" =
    (Returned (Some "app.arm.dxt1.apk"), []).
Proof. split; reflexivity. Qed.

(** * The further properties on the sample documents *)

(** Versions 2 and 1, both artifacts convert: a list is returned and nothing
    is reported. *)
Lemma Parse_succeeds_iff_witness :
  is_Some (returned (value (Parse host.GetFilename host.GetExtension
                    (Some sample.named) "out/app.apk"))) ∧
  emitted (Parse host.GetFilename host.GetExtension (Some sample.named)
             "out/app.apk") = [].
Proof.
  destruct (Parse_succeeds_iff host.GetFilename host.GetExtension
              sample.named "out/app.apk") as [Hiff Hquiet].
  assert (is_Some (returned (value (Parse host.GetFilename host.GetExtension
                            (Some sample.named) "out/app.apk")))) as Hsome.
  { apply Hiff. split.
    - apply (bool_decide_unpack _). vm_compute. exact I.
    - repeat first [apply Forall_cons; split|apply Forall_nil
                   |eexists; reflexivity]. }
  split; [exact Hsome|exact (Hquiet Hsome)].
Defined.

(** The output of a named artifact carries the name computed for it. *)
Lemma ToOutputArtifact_succeeds_iff_witness :
  resolved_name host.GetExtension "app.apk" sample.named
    (sample.artifact (Some "b") 2 (Some "arm") None) = Some "b.apk".
Proof.
  destruct (ToOutputArtifact_succeeds_iff host.GetExtension "app.apk"
              sample.named (sample.artifact (Some "b") 2 (Some "arm") None))
    as [_ Hname].
  exact (Hname _ eq_refl).
Defined.

(** The second artifact refers to the undeclared group [x86]: that is the
    one error, reported under the name of the artifact. *)
Lemma Parse_reports_every_failure_witness :
  emitted (Parse host.GetFilename host.GetExtension
             (Some sample.missing_group) "out/app.apk") =
    [mkDiag Error (Some "b.apk") "Could not lookup required ABIs: x86"].
Proof.
  destruct (Parse_reports_every_failure host.GetFilename host.GetExtension
              sample.missing_group "out/app.apk") as [Hemitted Hreached].
  { apply (bool_decide_unpack _). vm_compute. exact I. }
  rewrite Hemitted, Hreached.
  - reflexivity.
  - left. discriminate.
Defined.

(** An artifact that refers to two undeclared groups: two errors. *)
Lemma ToOutputArtifact_reports_missing_labels_witness :
  emitted (ToOutputArtifact host.GetExtension
             (sample.artifact (Some "b") 2 (Some "x86") (Some "dxt1"))
             "app.apk" sample.missing_group) =
    [mkDiag Error (Some "b.apk") "Could not lookup required ABIs: x86";
     mkDiag Error (Some "b.apk")
       "Could not lookup required OpenGL texture formats: dxt1"].
Proof.
  exact (ToOutputArtifact_reports_missing_labels host.GetExtension "app.apk"
           sample.missing_group
           (sample.artifact (Some "b") 2 (Some "x86") (Some "dxt1"))
           "b.apk" eq_refl).
Defined.

(** Two features around a child that is none: both are registered, trimmed,
    and the handler returns [false] with one error. *)
Lemma DeviceFeatureGroupTagHandler_appends_witness :
  DeviceFeatureGroupTagHandler (ConfigDescription := unit)
    host.TrimWhitespace empty_config sample.feature_group_element =
    ((with_device_feature_groups
        {["audio" := ["android.hardware.audio.low_latency";
                      "android.hardware.audio.pro"]]} empty_config, false),
     [mkDiag Error None
        "Unexpected root_element in device feature group: bogus"]).
Proof.
  rewrite (DeviceFeatureGroupTagHandler_appends (ConfigDescription := unit)
             host.TrimWhitespace empty_config sample.feature_group_element).
  - reflexivity.
  - discriminate.
Defined.

(** Two architectures, in document order. *)
Lemma AbiGroupTagHandler_known_abis_witness :
  AbiGroupTagHandler (ConfigDescription := unit) host.TrimWhitespace
    empty_config sample.arm_group_element =
    (Returned
       (with_abi_groups {["arm" := [kArmV7a; kArm64V8a]]} empty_config, true),
     []).
Proof.
  rewrite (AbiGroupTagHandler_known_abis (ConfigDescription := unit)
             host.TrimWhitespace empty_config sample.arm_group_element).
  - reflexivity.
  - discriminate.
  - reflexivity.
Defined.

(** The artifact that refers to the group [arm] carries its two
    architectures. *)
Lemma abi_group_reaches_artifact_witness :
  ∃ out : OutputArtifact unit,
    resolve host.GetExtension "app.apk"
      (with_abi_groups {["arm" := [kArmV7a; kArm64V8a]]} empty_config)
      (sample.artifact (Some "b") 1 (Some "arm") None) = Some out ∧
    abis out = [kArmV7a; kArm64V8a].
Proof.
  eexists. split; [reflexivity|].
  refine (abi_group_reaches_artifact host.GetExtension host.TrimWhitespace
            empty_config _ sample.arm_group_element true "app.apk"
            (sample.artifact (Some "b") 1 (Some "arm") None) _
            _ eq_refl eq_refl eq_refl).
  discriminate.
Defined.

(** Of the three entries the locale is refused; the two densities are
    registered without their SDK version. *)
Lemma ScreenDensityGroupTagHandler_appends_witness :
  ScreenDensityGroupTagHandler host.TrimWhitespace
    stand_in.ConfigDescription_Parse stand_in.CopyWithoutSdkVersion
    stand_in.diff stand_in.DefaultConfig stand_in.CONFIG_DENSITY
    empty_config sample.density_group_element =
    ((with_screen_density_groups
        {["large" := [stand_in.mkQualifier 320 "" 0;
                      stand_in.mkQualifier 240 "" 0]]} empty_config, false),
     [mkDiag Error None
        "Could not parse config descriptor for screen-density: en"]) ∧
  Forall (λ c, stand_in.diff c stand_in.DefaultConfig =
                 stand_in.CONFIG_DENSITY)
    [stand_in.mkQualifier 320 "" 0; stand_in.mkQualifier 240 "" 0].
Proof.
  destruct (ScreenDensityGroupTagHandler_appends host.TrimWhitespace
              stand_in.ConfigDescription_Parse stand_in.CopyWithoutSdkVersion
              stand_in.diff stand_in.DefaultConfig stand_in.CONFIG_DENSITY
              empty_config sample.density_group_element) as [Hrun Hall].
  - discriminate.
  - split; [rewrite Hrun; reflexivity|exact Hall].
Defined.

(** The locale with a density is refused, with the message of the density
    handler. *)
Lemma LocaleGroupTagHandler_appends_witness :
  LocaleGroupTagHandler host.TrimWhitespace
    stand_in.ConfigDescription_Parse stand_in.CopyWithoutSdkVersion
    stand_in.diff stand_in.DefaultConfig stand_in.CONFIG_LOCALE
    empty_config sample.locale_group_element =
    ((with_locale_groups
        {["europe" := [stand_in.mkQualifier 0 "en" 0]]} empty_config, false),
     [mkDiag Error None
        "Could not parse config descriptor for screen-density: fr-hdpi"]) ∧
  Forall (λ c, stand_in.diff c stand_in.DefaultConfig =
                 stand_in.CONFIG_LOCALE)
    [stand_in.mkQualifier 0 "en" 0].
Proof.
  destruct (LocaleGroupTagHandler_appends host.TrimWhitespace
              stand_in.ConfigDescription_Parse stand_in.CopyWithoutSdkVersion
              stand_in.diff stand_in.DefaultConfig stand_in.CONFIG_LOCALE
              empty_config sample.locale_group_element) as [Hrun Hall].
  - discriminate.
  - split; [rewrite Hrun; reflexivity|exact Hall].
Defined.

(** A group element with a [name] and no [label]. *)
Lemma group_handlers_require_label_witness :
  AbiGroupTagHandler (ConfigDescription := unit) host.TrimWhitespace
    empty_config sample.unlabelled_element =
    (Returned (empty_config, false),
     [mkDiag Error None "No label found for element abi-group"]) ∧
  DeviceFeatureGroupTagHandler (ConfigDescription := unit)
    host.TrimWhitespace empty_config sample.unlabelled_element =
    ((empty_config, false),
     [mkDiag Error None "No label found for element abi-group"]).
Proof.
  destruct (group_handlers_require_label (ConfigDescription := unit)
              host.TrimWhitespace (λ _, None) id (λ _ _, 0) tt 0 0
              stand_in.ParseSdkVersion empty_config
              sample.unlabelled_element eq_refl)
    as (Habi & _ & _ & _ & _ & Hfeature).
  split; [exact Habi|exact Hfeature].
Defined.

(** The artifact handler on [<artifact version="5"/>]: the configuration
    afterwards is the one before with an artifact appended. *)
Lemma handlers_change_their_own_part_witness :
  ∃ a,
    push_artifact (mkConfiguredArtifact None 5 None None None None None None)
      sample.named = push_artifact a sample.named.
Proof.
  destruct (handlers_change_their_own_part host.TrimWhitespace (λ _, None)
              id (λ _ _, 0) tt 0 0 stand_in.ParseSdkVersion sample.named
              sample.artifact_5) as (_ & _ & _ & _ & _ & _ & Hartifact & _).
  exact (Hartifact _ true eq_refl).
Defined.

(** From the empty configuration, the density handler on the sample group:
    the invariant holds afterwards. *)
Lemma qualifier_registries_invariant_witness :
  qualifiers_ok stand_in.diff stand_in.DefaultConfig stand_in.CONFIG_DENSITY
    stand_in.CONFIG_LOCALE
    (fst (value (ScreenDensityGroupTagHandler host.TrimWhitespace
                   stand_in.ConfigDescription_Parse
                   stand_in.CopyWithoutSdkVersion stand_in.diff
                   stand_in.DefaultConfig stand_in.CONFIG_DENSITY
                   empty_config sample.density_group_element))).
Proof.
  destruct (qualifier_registries_invariant host.GetExtension
              host.TrimWhitespace stand_in.ConfigDescription_Parse
              stand_in.CopyWithoutSdkVersion stand_in.diff
              stand_in.DefaultConfig stand_in.CONFIG_DENSITY
              stand_in.CONFIG_LOCALE stand_in.ParseSdkVersion
              empty_config sample.density_group_element) as [Hbase Hstep].
  exact (proj1 (proj2 (Hstep Hbase))).
Defined.

(** Two entries: the second one is registered, and the handler returns
    [false]. *)
Lemma AndroidSdkGroupTagHandler_last_wins_witness :
  value (AndroidSdkGroupTagHandler (ConfigDescription := unit)
           stand_in.ParseSdkVersion empty_config sample.sdk_group_element) =
    (with_android_sdk_groups
       {["v19" := mkAndroidSdk (Some 21) None None None]} empty_config,
     false).
Proof.
  rewrite (AndroidSdkGroupTagHandler_last_wins (ConfigDescription := unit)
             stand_in.ParseSdkVersion empty_config sample.sdk_group_element).
  - reflexivity.
  - discriminate.
Defined.

(** A labelled element without child element: the feature handler registers
    the label, the SDK handler does not. *)
Lemma labels_registered_witness :
  is_Some (device_feature_groups
             (fst (value (DeviceFeatureGroupTagHandler
                            (ConfigDescription := unit) host.TrimWhitespace
                            empty_config sample.empty_group_element)))
           !! "v19") ∧
  android_sdk_groups
    (fst (value (AndroidSdkGroupTagHandler (ConfigDescription := unit)
                   stand_in.ParseSdkVersion empty_config
                   sample.empty_group_element))) !! "v19" = None.
Proof.
  destruct (labels_registered (ConfigDescription := unit)
              host.TrimWhitespace (λ _, None) id (λ _ _, 0) tt 0 0
              stand_in.ParseSdkVersion empty_config
              sample.empty_group_element)
    as (_ & _ & _ & Hfeature & _ & Hsdk).
  - discriminate.
  - split; [exact Hfeature|exact Hsdk].
Defined.


(** Name, version and architecture group are read; the unknown attribute is
    not. *)
Lemma ArtifactTagHandler_reads_attributes_witness :
  value (ArtifactTagHandler (ConfigDescription := unit) empty_config
           sample.artifact_7) =
    Returned
      (push_artifact
         (mkConfiguredArtifact (Some "${basename}.arm.apk") 7 (Some "arm")
            None None None None None) empty_config, true).
Proof.
  exact (ArtifactTagHandler_reads_attributes (ConfigDescription := unit)
           empty_config sample.artifact_7 eq_refl).
Defined.

(** After the versions 2 and 1 an artifact without version gets 2 again,
    and [Parse] reports the duplicate. *)
Lemma auto_version_collides_witness :
  ∃ config' : PostProcessingConfiguration unit,
    value (ArtifactTagHandler sample.named sample.artifact_plain) =
      Returned (config', true) ∧
    version <$> artifacts config' = [2; 1; 2] ∧
    Parse host.GetFilename host.GetExtension (Some config') "out/app.apk" =
      (Returned None,
     [mkDiag Error None "Configuration has duplicate versions"]).
Proof.
  destruct (auto_version_collides host.GetFilename host.GetExtension
              sample.named sample.artifact_plain "out/app.apk"
              (sample.artifact (Some "b") 2 (Some "arm") None) eq_refl
              (list_elem_of_here _ _) eq_refl)
    as (config' & Hrun & Hparse).
  exists config'. split_and!; [exact Hrun| |exact Hparse].
  vm_compute in Hrun. injection Hrun as <-. reflexivity.
Defined.


(** For the input file [app.apk], the template [out] gets the extension
    and the template [out.apk] is returned as it is. *)
Lemma ToBaseName_plain_template_witness :
  ToBaseName host.GetExtension "out" "app.apk" =
    (Returned (Some "out.apk"), []) ∧
  ToBaseName host.GetExtension "out.apk" "app.apk" =
    (Returned (Some "out.apk"), []).
Proof.
  split.
  - refine (proj2 (ToBaseName_plain_template host.GetExtension "out"
                     "app.apk" eq_refl eq_refl) _).
    intros pre Hpre.
    destruct pre as [|c1 [|c2 [|c3 [|c4 pre]]]]; discriminate Hpre.
  - refine (proj1 (ToBaseName_plain_template host.GetExtension "out.apk"
                     "app.apk" eq_refl eq_refl) _).
    exists "out". reflexivity.
Defined.


(** The input file [app] has no extension: on the format
    [${basename}.${abi}.${ext}] neither [ToBaseName] nor [Parse] returns.
    With the input file [app.apk], [Parse] returns. *)
Lemma extension_placeholder_needs_extension_witness :
  ToBaseName host.GetExtension "${basename}.${abi}.${ext}" "app" =
    (Thrown cxx.null_dereference, []) ∧
  value (Parse host.GetFilename host.GetExtension
           (Some sample.format_without_gl) "out/app") =
    Thrown cxx.null_dereference ∧
  ∃ r, value (Parse host.GetFilename host.GetExtension
                (Some sample.format_without_gl) "out/app.apk") = Returned r.
Proof.
  destruct (extension_placeholder_needs_extension host.GetFilename
              host.GetExtension sample.format_without_gl "out/app"
              (sample.artifact None 1 (Some "arm") (Some "dxt1"))
              "${basename}.${abi}.${ext}" "app.${abi}.${ext}")
    as [_ Hnone].
  destruct (Hnone eq_refl eq_refl eq_refl) as (Hbase & _ & Hparse);
    [discriminate|].
  destruct (extension_placeholder_needs_extension host.GetFilename
              host.GetExtension sample.format_without_gl "out/app.apk"
              (sample.artifact None 1 (Some "arm") (Some "dxt1"))
              "${basename}.${abi}.${ext}" "app.${abi}.${ext}")
    as [Hsome _].
  destruct Hsome as (_ & _ & Hreturns); [discriminate|].
  split_and!; [exact Hbase| |exact Hreturns].
  apply Hparse; [apply list_elem_of_here|].
  apply (bool_decide_unpack _). vm_compute. exact I.
Defined.

(** A format with four placeholders: the name has none left. *)
Lemma ToArtifactName_no_placeholder_left_witness :
  returned (value (ToArtifactName host.GetExtension
           (sample.artifact None 1 (Some "arm") (Some "dxt1"))
           "${basename}.${abi}.${gl}.${ext}" "app.apk")) =
    Some "app.arm.dxt1.apk" ∧
  no_dollar "app.arm.dxt1.apk" = true.
Proof.
  split; [reflexivity|].
  destruct (ToArtifactName_no_placeholder_left host.GetExtension
              (sample.artifact None 1 (Some "arm") (Some "dxt1"))
              "${basename}.${abi}.${gl}.${ext}" "app.apk"
              eq_refl eq_refl eq_refl) as [Hname _].
  apply Hname; [|reflexivity].
  repeat constructor; cbn; intros label [= <-]; reflexivity.
Defined.

(** Two artifacts named [split.apk]: two outputs named [split.apk]. *)
Lemma Parse_allows_equal_names_witness :
  ∃ (i j : nat) (oa ob : OutputArtifact unit),
    i ≠ j ∧
    [mkOutputArtifact "split.apk" [] [] [] None [] [];
     mkOutputArtifact "split.apk" [] [] [] None [] []] !! i = Some oa ∧
    [mkOutputArtifact "split.apk" [] [] [] None [] [];
     mkOutputArtifact "split.apk" [] [] [] None [] []] !! j = Some ob ∧
    resolve host.GetExtension "app.apk" sample.same_name
      (sample.artifact (Some "split.apk") 1 None None) = Some oa ∧
    resolve host.GetExtension "app.apk" sample.same_name
      (sample.artifact (Some "split.apk") 2 None None) = Some ob ∧
    out_name oa = out_name ob.
Proof.
  refine (Parse_allows_equal_names host.GetFilename host.GetExtension
            sample.same_name "out/app.apk"
            (sample.artifact (Some "split.apk") 1 None None)
            (sample.artifact (Some "split.apk") 2 None None)
            "split.apk" _ (list_elem_of_here _ _)
            (list_elem_of_further _ _ _ (list_elem_of_here _ _)) _
            eq_refl eq_refl eq_refl).
  discriminate.
Defined.

(** The same four attributes in reverse order: the same artifact. *)
Lemma ArtifactTagHandler_attribute_order_witness :
  value (ArtifactTagHandler (ConfigDescription := unit) empty_config
           sample.artifact_7) =
  value (ArtifactTagHandler (ConfigDescription := unit) empty_config
           sample.artifact_7_reordered).
Proof.
  apply ArtifactTagHandler_attribute_order.
  - exact (Permutation_rev (attributes sample.artifact_7)).
  - apply (bool_decide_unpack _). vm_compute. exact I.
Defined.

(** The sample document in the namespace of aapt, with a node in another
    namespace: no namespace is left, and what the handlers see is the
    same. *)
Lemma NamespaceVisitor_clears_namespaces_witness :
  no_namespace sample.aapt_root = false ∧
  no_namespace (NamespaceVisitor_Visit sample.aapt_root) = true ∧
  without_namespaces (NamespaceVisitor_Visit sample.aapt_root) =
    without_namespaces sample.aapt_root ∧
  NamespaceVisitor_Visit (NamespaceVisitor_Visit sample.aapt_root) =
    NamespaceVisitor_Visit sample.aapt_root.
Proof.
  destruct (NamespaceVisitor_clears_namespaces sample.aapt_root)
    as (Hnone & Hsame & _ & _).
  destruct (NamespaceVisitor_clears_namespaces
              (NamespaceVisitor_Visit sample.aapt_root))
    as (_ & _ & Hfixed & _).
  split_and!; [reflexivity|exact Hnone|exact Hsame|exact (Hfixed Hnone)].
Defined.

(** A text that is no document, a document without root element, a root in
    a foreign namespace and a group without label: nothing is returned, and
    the cause is the last message. *)
Lemma structural_errors_abort_witness :
  let ConfigurationParser_Parse :=
    ConfigurationParser_Parse host.GetFilename host.GetExtension
      host.TrimWhitespace stand_in.ConfigDescription_Parse
      stand_in.CopyWithoutSdkVersion stand_in.diff stand_in.DefaultConfig
      stand_in.CONFIG_DENSITY stand_in.CONFIG_LOCALE stand_in.ParseSdkVersion
      stand_in.Inflate stand_in.Execute in
  ConfigurationParser_Parse "<post-process" "app.apk" =
    (Returned None, [mkDiag Error None "not well-formed (invalid token)"]) ∧
  ConfigurationParser_Parse "<!-- empty -->" "app.apk" =
    (Returned None,
     [mkDiag Error None
        "Could not find the root element in the XML document"]) ∧
  ConfigurationParser_Parse "<post-process xmlns='urn:example'/>" "app.apk" =
    (Returned None,
     [mkDiag Error None
        "Unknown namespace found on root element: urn:example"]) ∧
  ConfigurationParser_Parse
    "<post-process><groups><abi-group/></groups></post-process>" "app.apk" =
    (Returned None,
     [mkDiag Error None "No label found for element abi-group";
      mkDiag Error None "Could not process XML document"]).
Proof.
  pose proof (structural_errors_abort host.GetFilename host.GetExtension
                host.TrimWhitespace stand_in.ConfigDescription_Parse
                stand_in.CopyWithoutSdkVersion stand_in.diff
                stand_in.DefaultConfig stand_in.CONFIG_DENSITY
                stand_in.CONFIG_LOCALE stand_in.ParseSdkVersion
                stand_in.Inflate stand_in.Execute) as Haborts.
  cbv zeta. split_and!.
  - destruct (Haborts "<post-process" "app.apk") as (Hnone & _).
    exact (proj2 (Hnone eq_refl)).
  - destruct (Haborts "<!-- empty -->" "app.apk") as (_ & Hroot & _).
    exact (proj2 (Hroot _ eq_refl eq_refl)).
  - destruct (Haborts "<post-process xmlns='urn:example'/>" "app.apk")
      as (_ & _ & Hns & _).
    refine (proj2 (Hns _ sample.foreign_root eq_refl eq_refl _ _));
      discriminate.
  - destruct (Haborts
                "<post-process><groups><abi-group/></groups></post-process>"
                "app.apk") as (_ & _ & _ & Hexecute).
    exact (proj2 (Hexecute _ sample.unlabelled_root empty_config eq_refl
                    eq_refl (or_introl eq_refl) eq_refl)).
Defined.

(** The sample document in the namespace of aapt and the same document
    without namespaces give the same configuration: the group below the
    node of another namespace is registered in both. *)
Lemma aapt_namespace_is_cleared_witness :
  let ExtractConfiguration :=
    ExtractConfiguration host.TrimWhitespace stand_in.ConfigDescription_Parse
      stand_in.CopyWithoutSdkVersion stand_in.diff stand_in.DefaultConfig
      stand_in.CONFIG_DENSITY stand_in.CONFIG_LOCALE stand_in.ParseSdkVersion
      stand_in.Inflate stand_in.Execute in
  ExtractConfiguration
    "<post-process xmlns='http://schemas.android.com/tools/aapt'>" =
  ExtractConfiguration "<post-process>" ∧
  ExtractConfiguration "<post-process>" =
    (Returned (Some (with_abi_groups {["arm" := [kX86]]} empty_config)), []).
Proof.
  cbv zeta. split; [|reflexivity].
  exact (aapt_namespace_is_cleared host.TrimWhitespace
           stand_in.ConfigDescription_Parse stand_in.CopyWithoutSdkVersion
           stand_in.diff stand_in.DefaultConfig stand_in.CONFIG_DENSITY
           stand_in.CONFIG_LOCALE stand_in.ParseSdkVersion
           stand_in.Inflate stand_in.Execute
           "<post-process xmlns='http://schemas.android.com/tools/aapt'>"
           "<post-process>" sample.aapt_root [] eq_refl eq_refl eq_refl).
Defined.

(** The two artifacts of the sample declared in the other order: the same
    outputs in the same order. *)
Lemma Parse_declaration_order_irrelevant_witness :
  Parse host.GetFilename host.GetExtension
    (Some (with_artifacts
             [sample.artifact (Some "a") 1 None (Some "dxt1");
              sample.artifact (Some "b") 2 (Some "arm") None] sample.named))
    "out/app.apk" =
  Parse host.GetFilename host.GetExtension (Some sample.named) "out/app.apk".
Proof.
  apply Parse_declaration_order_irrelevant.
  exact (perm_swap _ _ []).
Defined.
